(** * sfdx-scanner: the custom rule path registry and the ESLint engine base

    A shallow embedding of
    - [src/lib/CustomRulePathManager.ts] (the registry of custom rule paths),
    - [src/lib/eslint/EslintCommons.ts] (default status and configuration of
      a rule, the allowed rules, the results of a report),
    - [src/lib/eslint/BaseEslintEngine.ts] (path ownership, rule
      configuration, the merge of environment settings, [run] and the
      catalogue; and the filters of [ScannerCommand]) and
    - [src/commands/scanner/rule/add.ts] (the command that adds paths),
    followed by the properties of the specification that concern them and
    by further properties of the code.

    Conventions.  A JavaScript string is a Rocq [string] (code units below
    256).  A [Map] and a [Set] keep their insertion order, as in JavaScript,
    and are lists.  A plain object is its own properties: a list in the
    order of [Object.keys] where the code enumerates them, a [gmap] where
    it only reads them by key or spreads them; a key that is not an own
    property is read through [Object.prototype], and an assignment to
    [__proto__] reaches the setter of [Object.prototype].  A
    method that can throw returns an [Outcome]; the methods of the registry
    run in a state monad over the fields of the manager and the persisted
    file.  [await] is sequencing: the flow is single and nothing else
    touches the manager or the files between two steps.  Logging is left
    out.  What the sources import and do not define ([FileHandler],
    [JSON], [path], the strategy and the dependencies of an ESLint engine)
    is a parameter. *)

From Stdlib Require Import String Ascii List ZArith Lia Bool.
From Stdlib Require Sorting.Sorted.
From stdpp Require Import gmap strings list fin_maps.

Open Scope string_scope.
Open Scope list_scope.

(* ================================================================== *)
(** ** JavaScript values and control flow *)
(* ================================================================== *)

Module Js.

(** What a [throw] carries. *)
Inductive Error : Type :=
| SfdxError (key : string) (tokens : list string)
    (* SfdxError.create('@salesforce/sfdx-scanner', 'add', key, tokens) *)
| SfdxErrorFrom (cause : Error)
    (* new SfdxError(e.message || e) *)
| TypeError (message : string)
| SyntaxError (message : string)
| SystemError (code : string) (message : string).
    (* a rejected file-system call: e.code, e.message *)

Inductive Outcome (A : Type) : Type :=
| Return (a : A)
| Throw (e : Error).

Arguments Return {A} a.
Arguments Throw {A} e.

(** *** Strings *)

(** [s.endsWith(search)] *)
Definition endsWith (s search : string) : bool :=
  let len := String.length s in
  let searchLength := String.length search in
  if (searchLength <=? len)%nat
  then String.eqb (substring (len - searchLength) searchLength s) search
  else false.

(** The white space of [String.prototype.trim] among the code units below
    256: TAB, LF, VT, FF, CR, SP and NBSP. *)
Definition isWhiteSpace (c : ascii) : bool :=
  let n := nat_of_ascii c in
  ((9 <=? n) && (n <=? 13) || (n =? 32) || (n =? 160))%nat.

Fixpoint trimStart (s : string) : string :=
  match s with
  | EmptyString => EmptyString
  | String c s' => if isWhiteSpace c then trimStart s' else s
  end.

Definition trimEnd (s : string) : string :=
  String.rev (trimStart (String.rev s)).

(** [s.trim()] *)
Definition trim (s : string) : string := trimEnd (trimStart s).

(** [s.indexOf(search)], counted from [from]: the first position at which
    [search] occurs, or -1. *)
Fixpoint indexOfFrom (from : Z) (s search : string) : Z :=
  if String.prefix search s then from
  else match s with
       | EmptyString => (-1)%Z
       | String _ s' => indexOfFrom (from + 1)%Z s' search
       end.

Definition indexOf (s search : string) : Z := indexOfFrom 0%Z s search.

(** *** Map: keys in insertion order *)

Abbreviation Map K V := (list (K * V)).

Section MapOps.
Context {K : Type} `{EqDecision K} {V : Type}.

Fixpoint mapGet (k : K) (m : Map K V) : option V :=
  match m with
  | [] => None
  | (k', v) :: m' => if decide (k' = k) then Some v else mapGet k m'
  end.

Definition mapHas (k : K) (m : Map K V) : bool :=
  match mapGet k m with Some _ => true | None => false end.

(** [m.set(k, v)]: an existing key keeps its position. *)
Fixpoint mapSet (k : K) (v : V) (m : Map K V) : Map K V :=
  match m with
  | [] => [(k, v)]
  | (k', v') :: m' =>
      if decide (k' = k) then (k, v) :: m' else (k', v') :: mapSet k v m'
  end.

Definition mapKeys (m : Map K V) : list K := map fst m.

End MapOps.

(** *** Set: elements in insertion order *)

Abbreviation Set_ A := (list A).

Section SetOps.
Context {A : Type} `{EqDecision A}.

Definition setHas (x : A) (s : Set_ A) : bool :=
  existsb (fun y => bool_decide (y = x)) s.

(** [s.add(x)] *)
Definition setAdd (x : A) (s : Set_ A) : Set_ A :=
  if setHas x s then s else s ++ [x].

(** [new Set(iterable)] *)
Definition setFrom (l : list A) : Set_ A :=
  fold_left (fun s x => setAdd x s) l [].

(** [s.delete(x)]: whether [x] was there, and the set without it. *)
Definition setDelete (x : A) (s : Set_ A) : bool * Set_ A :=
  (setHas x s, List.filter (fun y => negb (bool_decide (y = x))) s).

End SetOps.

(** *** Plain objects

    An object made by [{}] is the list of its own enumerable properties in
    the order of [Object.keys]: the keys that are array indices first, in
    ascending order, then the others in the order of their creation.  Its
    prototype is [Object.prototype], whose properties it inherits. *)

(** The names of the properties of [Object.prototype]. *)
Definition OBJECT_PROTOTYPE_KEYS : list string :=
  ["constructor"; "__defineGetter__"; "__defineSetter__"; "hasOwnProperty";
   "__lookupGetter__"; "__lookupSetter__"; "isPrototypeOf";
   "propertyIsEnumerable"; "toString"; "valueOf"; "__proto__";
   "toLocaleString"].

Definition inherited (key : string) : bool :=
  existsb (String.eqb key) OBJECT_PROTOTYPE_KEYS.

Definition digitValue (c : ascii) : option N :=
  let n := N_of_ascii c in
  if ((48 <=? n) && (n <=? 57))%N then Some (n - 48)%N else None.

Fixpoint decimalValue (acc : N) (s : string) : option N :=
  match s with
  | EmptyString => Some acc
  | String c s' =>
      match digitValue c with
      | Some d => decimalValue (10 * acc + d)%N s'
      | None => None
      end
  end.

(** The array index that a key is: the key is the decimal numeral, without
    leading zero, of an integer below [2^32 - 1]. *)
Definition arrayIndex (key : string) : option N :=
  match key with
  | EmptyString => None
  | String c rest =>
      if Ascii.eqb c "0" && negb (String.eqb rest "") then None
      else match decimalValue 0 key with
           | Some n => if (n <? 4294967295)%N then Some n else None
           | None => None
           end
  end.

Section ObjectOps.
Context {V : Type}.

(** The place of a new property whose key is the array index [index]. *)
Fixpoint insertIndex (index : N) (key : string) (value : V)
    (o : list (string * V)) : list (string * V) :=
  match o with
  | [] => [(key, value)]
  | (key', value') :: o' =>
      match arrayIndex key' with
      | Some index' =>
          if (index' <? index)%N
          then (key', value') :: insertIndex index key value o'
          else (key, value) :: o
      | None => (key, value) :: o
      end
  end.

(** [o[key] = value] for a [value] that is an object: an own property
    takes the value; [__proto__], when it is not an own property, reaches
    the setter of [Object.prototype], which makes [value] the prototype
    and creates no property; any other key becomes a new own property, as
    every other property of [Object.prototype] is a writable data
    property. *)
Definition objectSet (key : string) (value : V) (o : list (string * V))
    : list (string * V) :=
  if mapHas key o then mapSet key value o
  else if String.eqb key "__proto__" then o
  else match arrayIndex key with
       | Some index => insertIndex index key value o
       | None => o ++ [(key, value)]
       end.

End ObjectOps.

(** *** Methods that read and write fields and may throw *)

Definition StateOutcome (S A : Type) : Type := S -> Outcome A * S.

#[global] Instance StateOutcome_ret {S} : MRet (StateOutcome S) :=
  fun A a st => (Return a, st).

#[global] Instance StateOutcome_bind {S} : MBind (StateOutcome S) :=
  fun A B k c st =>
    match c st with
    | (Return a, st') => k a st'
    | (Throw e, st') => (Throw e, st')
    end.

Definition throw {S A} (e : Error) : StateOutcome S A :=
  fun st => (Throw e, st).

Definition getState {S} : StateOutcome S S := fun st => (Return st, st).

(** A synchronous step that returns or throws. *)
Definition lift {S A} (o : Outcome A) : StateOutcome S A := fun st => (o, st).

(** [try { body } catch (e) { handler(e) }] *)
Definition tryCatch {S A} (body : StateOutcome S A)
    (handler : Error -> StateOutcome S A) : StateOutcome S A :=
  fun st =>
    match body st with
    | (Return a, st') => (Return a, st')
    | (Throw e, st') => handler e st'
    end.

(** [l.forEach(f)] *)
Fixpoint forEach {S A} (f : A -> StateOutcome S unit) (l : list A)
    : StateOutcome S unit :=
  match l with
  | [] => mret tt
  | x :: l' => f x ;; forEach f l'
  end.

End Js.

Import Js.

(* ================================================================== *)
(** ** Constants *)
(* ================================================================== *)

Module Constants.

Inductive ENGINE : Type :=
| PMD | PMD_CUSTOM | ESLINT | ESLINT_LWC | ESLINT_TYPESCRIPT | ESLINT_CUSTOM
| RETIRE_JS | CPD.

(** The string value of a member of the enum. *)
Definition valueOf (e : ENGINE) : string :=
  match e with
  | PMD => "pmd"
  | PMD_CUSTOM => "pmd-custom"
  | ESLINT => "eslint"
  | ESLINT_LWC => "eslint-lwc"
  | ESLINT_TYPESCRIPT => "eslint-typescript"
  | ESLINT_CUSTOM => "eslint-custom"
  | RETIRE_JS => "retire-js"
  | CPD => "cpd"
  end.

End Constants.

(* ================================================================== *)
(** ** Types shared by the engines *)
(* ================================================================== *)

(** The value of a property of a loose object, as far as the code looks
    into it. *)
Inductive JsValue : Type :=
| JsNull
| JsBoolean (b : bool)
| JsNumber (n : Z)
| JsString (s : string).

Abbreviation LooseObject := (gmap string JsValue).

(** Object spread, one source at a time: [{...target, ...source}]. *)
Definition spread {V : Type} (target source : gmap string V) : gmap string V :=
  source ∪ target.

(** [o[key]] read on a plain object whose own properties are [own]: the
    own property, else the property of [Object.prototype] of that name (a
    function, or for [__proto__] the prototype itself), else
    [undefined]. *)
Inductive Property (V : Type) : Type :=
| Own (value : V)
| Inherited
| Undefined.

Arguments Own {V} value.
Arguments Inherited {V}.
Arguments Undefined {V}.

Definition getProperty {V : Type} (own : gmap string V) (key : string)
    : Property V :=
  match own !! key with
  | Some value => Own value
  | None => if inherited key then Inherited else Undefined
  end.

(** An element of a rule configuration given as an array. *)
Inductive ESRuleConfigValue : Type :=
| StringValue (s : string)
| OtherValue (json : string).
    (* a number or an options object; never strictly equal to a string *)

(** The entry of a rule in an ESLint configuration: the two shapes on
    which the code calls [indexOf]. *)
Inductive ESRuleConfig : Type :=
| ConfigString (s : string)
| ConfigArray (items : list ESRuleConfigValue).

#[global] Instance ESRuleConfigValue_eq_dec : EqDecision ESRuleConfigValue.
Proof. solve_decision. Defined.

#[global] Instance ESRuleConfig_eq_dec : EqDecision ESRuleConfig.
Proof. solve_decision. Defined.

(** [!!config]: every array is truthy, a string is truthy unless empty. *)
Definition truthy (config : ESRuleConfig) : bool :=
  match config with
  | ConfigString s => negb (String.eqb s "")
  | ConfigArray _ => true
  end.

(** [items.indexOf(search)] for a string [search], by strict equality. *)
Fixpoint arrayIndexOfFrom (from : Z) (items : list ESRuleConfigValue)
    (search : string) : Z :=
  match items with
  | [] => (-1)%Z
  | StringValue s :: items' =>
      if String.eqb s search then from
      else arrayIndexOfFrom (from + 1)%Z items' search
  | OtherValue _ :: items' => arrayIndexOfFrom (from + 1)%Z items' search
  end.

(** [config.indexOf(search)] *)
Definition configIndexOf (config : ESRuleConfig) (search : string) : Z :=
  match config with
  | ConfigString s => indexOf s search
  | ConfigArray items => arrayIndexOfFrom 0%Z items search
  end.

Record Rule : Type := {
  engine : string;
  name : string;
  languages : list string;
  defaultConfig : option ESRuleConfig;
}.

Record RuleTarget : Type := {
  target : string;
  isDirectory : bool;
  paths : list string;
}.

Record ESMessage : Type := {
  es_line : Z;
  es_column : Z;
  es_severity : Z;
  es_message : string;
  ruleId : string;
}.

Record ESResult : Type := {
  filePath : string;
  messages : list ESMessage;
}.

Record ESRuleMetadata : Type := {
  type : string;
  docs_url : string;
}.

Record RuleViolation : Type := {
  line : Z;
  column : Z;
  severity : Z;
  message : string;
  ruleName : string;
  category : string;
  url : string;
}.

Record RuleResult : Type := {
  result_engine : string;
  fileName : string;
  violations : list RuleViolation;
}.

(** An engine as the registry sees it.  [objectId] stands for the identity
    of the object: two references are the same key of a [Map] when they are
    the same object. *)
Record RuleEngine : Type := {
  objectId : nat;
  getName : string;
  matchPath : string -> bool;
}.

(** A rule as the ESLint engine lists it: [meta.docs] and
    [meta.deprecated], where an absent flag counts as false. *)
Record ESRuleDocs : Type := {
  doc_description : string;
  doc_category : string;
  doc_url : string;
}.

Record ESRuleMeta : Type := {
  docs : ESRuleDocs;
  deprecated : bool;
}.

Record ESRule : Type := {
  meta : ESRuleMeta;
}.

(* ================================================================== *)
(** ** src/lib/eslint/EslintCommons.ts *)
(* ================================================================== *)

Module EslintCommons.

Inductive RuleDefaultStatus : Type := ENABLED | DISABLED.

(** The part of a recommended configuration that is read: the own
    properties of its [rules]. *)
Record RecommendedConfig : Type := {
  rules : gmap string ESRuleConfig;
}.

Module EslintStrategyHelper.

(** What calling [indexOf] on an inherited property throws: a function,
    and [Object.prototype], have no such method. *)
Definition NOT_A_FUNCTION : Error :=
  TypeError "recommendation.indexOf is not a function".

(** [null] is [None].  The rules of the recommended configuration are a
    plain object. *)
Definition getDefaultStatus (recommendedConfig : RecommendedConfig)
    (ruleName : string) : Outcome (option RuleDefaultStatus) :=
  let recommendation := getProperty (rules recommendedConfig) ruleName in
  match recommendation with
  | Undefined => Return None
  | Inherited => Throw NOT_A_FUNCTION
  | Own recommendation =>
      if negb (truthy recommendation) then Return None
      else if (configIndexOf recommendation "off" =? 0)%Z
           then Return (Some DISABLED) else Return (Some ENABLED)
  end.

Definition getDefaultConfig (recommendedConfig : RecommendedConfig)
    (ruleName : string) : Outcome (option ESRuleConfig) :=
  let recommendation := getProperty (rules recommendedConfig) ruleName in
  match recommendation with
  | Undefined => Return None
  | Inherited => Throw NOT_A_FUNCTION
  | Own recommendation =>
      if negb (truthy recommendation)
         || (configIndexOf recommendation "off" =? 0)%Z
      then Return None
      else Return (Some recommendation)
  end.

(** The rules that are not deprecated, set one after the other into a new
    [Map]. *)
Definition filterDisallowedRules (rulesByName : Map string ESRule)
    : Map string ESRule :=
  fold_left
    (fun (filteredRules : Map string ESRule) '(name, rule) =>
       if negb (deprecated (meta rule))
       then mapSet name rule filteredRules
       else filteredRules)
    rulesByName [].

End EslintStrategyHelper.

Module EslintProcessHelper.

Definition toRuleResult (engineName fileName : string)
    (messages : list ESMessage) (ruleMap : gmap string ESRuleMetadata)
    (processRuleViolation : string -> RuleViolation -> RuleViolation)
    : RuleResult :=
  {| result_engine := engineName;
     fileName := fileName;
     violations :=
       map (fun v : ESMessage =>
              let ruleMeta := ruleMap !! ruleId v in
              let category :=
                match ruleMeta with Some m => type m | None => "problem" end in
              let url :=
                match ruleMeta with Some m => docs_url m | None => "" end in
              let violation :=
                {| line := es_line v; column := es_column v;
                   severity := es_severity v; message := es_message v;
                   ruleName := ruleId v; category := category; url := url |} in
              processRuleViolation fileName violation)
           messages |}.

(** The results after the report has been pushed onto them. *)
Definition addRuleResultsFromReport (engineName : string)
    (results : list RuleResult) (esResults : list ESResult)
    (ruleMap : gmap string ESRuleMetadata)
    (processRuleViolation : string -> RuleViolation -> RuleViolation)
    : list RuleResult :=
  fold_left
    (fun results r =>
       if (0 <? length (messages r))%nat
       then results ++ [toRuleResult engineName (filePath r) (messages r)
                          ruleMap processRuleViolation]
       else results)
    esResults results.

End EslintProcessHelper.

End EslintCommons.

(* ================================================================== *)
(** ** messages/add.js *)
(* ================================================================== *)

Module Messages.

(** The templates under ["errors"] and ["validations"]. *)
Definition getMessage (key : string) : string :=
  if String.eqb key "errors.invalidFilePath"
  then "Failed to find any file or directory with path: %s"
  else if String.eqb key "errors.readCustomRulePathFileFailed"
  then "Failed to read custom rule path file: %s"
  else if String.eqb key "errors.writeCustomRulePathFileFailed"
  then "Failed to write to custom rule path file: %s"
  else if String.eqb key "validations.languageCannotBeEmpty"
  then "Language cannot be empty"
  else if String.eqb key "validations.pathCannotBeEmpty"
  then "Path cannot be empty"
  else key.

(** Each [%s] of the template takes the next token. *)
Fixpoint format (template : string) (tokens : list string) : string :=
  match template with
  | EmptyString => EmptyString
  | String "%" (String "s" rest) =>
      match tokens with
      | t :: tokens' => t +:+ format rest tokens'
      | [] => "%s" +:+ format rest []
      end
  | String c rest => String c (format rest tokens)
  end.

(** [e.message] *)
Fixpoint messageOf (e : Error) : string :=
  match e with
  | SfdxError key tokens => format (getMessage key) tokens
  | SfdxErrorFrom cause => messageOf cause
  | TypeError message => message
  | SyntaxError message => message
  | SystemError _ message => message
  end.

End Messages.

(* ================================================================== *)
(** ** src/lib/CustomRulePathManager.ts *)
(* ================================================================== *)

Module CustomRulePathManager.

(** What the code passes as a key of [pathsByLanguageByEngine]: the name of
    an engine, an engine itself (a reference to the object), or
    [undefined].  Keys are compared as JavaScript compares them: a string
    equals a string with the same characters, an object only itself. *)
Inductive Key : Type :=
| KeyString (s : string)
| KeyObject (id : nat)
| KeyUndefined.

#[global] Instance Key_eq_dec : EqDecision Key.
Proof. solve_decision. Defined.

Abbreviation RulePathEntry := (Map string (Set_ string)).
Abbreviation RulePathMap := (Map Key RulePathEntry).

(** The persisted document, [{ [engine]: { [language]: string[] } }], with
    the properties of each object in the order of [Object.keys]. *)
Abbreviation RulePathJson := (list (string * list (string * list string))).

Definition EMPTY_JSON_FILE : string := "{}".

(** What [stats] resolves to. *)
Record Stats : Type := {
  isFile : bool;
  isDirectory : bool;
}.

(** The file system as the manager reaches it through its [FileHandler]:
    [stats] rejects ([None]) for a path at which there is nothing;
    [mkdirIfNotExists] and [writeFile] may reject with a message. *)
Record FileHandler : Type := {
  stats : string -> option Stats;
  readDir : string -> list string;
  mkdirIfNotExists : string -> option string;
  writeFile : string -> string -> option string;
}.

(** What reading the persisted file gives: its content, or a rejection
    with [code] and [message]. *)
Inductive ReadResult : Type :=
| Content (data : string)
| Rejected (code : string) (message : string).

(** The fields of the manager that change, and the persisted file. *)
Record State : Type := {
  initialized : bool;
  pathsByLanguageByEngine : RulePathMap;
  customRulePathFile : ReadResult;
}.

Abbreviation M := (StateOutcome State).

(** The manager after [init()], next to a given file. *)
Definition init (file : ReadResult) : State :=
  {| initialized := false;
     pathsByLanguageByEngine := [];
     customRulePathFile := file |}.

Definition setPaths (m : RulePathMap) : M unit :=
  fun st =>
    (Return tt,
     {| initialized := initialized st;
        pathsByLanguageByEngine := m;
        customRulePathFile := customRulePathFile st |}).

Definition setInitialized (b : bool) : M unit :=
  fun st =>
    (Return tt,
     {| initialized := b;
        pathsByLanguageByEngine := pathsByLanguageByEngine st;
        customRulePathFile := customRulePathFile st |}).

Definition setFile (data : string) : M unit :=
  fun st =>
    (Return tt,
     {| initialized := initialized st;
        pathsByLanguageByEngine := pathsByLanguageByEngine st;
        customRulePathFile := Content data |}).

Definition convertJsonDataToMap (json : RulePathJson) : RulePathMap :=
  fold_left
    (fun (map : RulePathMap) key =>
       match mapGet key json with
       | None => map
       | Some val =>
           let innerMap : RulePathEntry :=
             fold_left
               (fun (innerMap : RulePathEntry) lang =>
                  match mapGet lang val with
                  | None => innerMap
                  | Some paths => mapSet lang (setFrom paths) innerMap
                  end)
               (mapKeys val) [] in
           mapSet (KeyString key) innerMap map
       end)
    (mapKeys json) [].

(** [key.toString()] *)
Definition toString (key : Key) : Outcome string :=
  match key with
  | KeyString s => Return s
  | KeyObject _ => Return "[object Object]"
  | KeyUndefined =>
      Throw (TypeError "Cannot read properties of undefined (reading 'toString')")
  end.

(** The document of the registry: [json] and every [innerObj] are plain
    objects, and what is assigned to their properties are objects. *)
Definition convertMapToJson (m : RulePathMap) : Outcome RulePathJson :=
  fold_left
    (fun (json : Outcome RulePathJson) '(engine, pathsByLang) =>
       match json with
       | Throw e => Throw e
       | Return json =>
           let innerObj :=
             fold_left
               (fun innerObj '(lang, paths) => objectSet lang paths innerObj)
               (pathsByLang : RulePathEntry) [] in
           match toString engine with
           | Throw e => Throw e
           | Return engine => Return (objectSet engine innerObj json)
           end
       end)
    m (Return []).

Section Manager.

(** [this.engines], [this.fileHandler] *)
Variable engines : list RuleEngine.
Variable fileHandler : FileHandler.

(** [JSON.parse] on the content of the persisted file, which returns a
    document or throws; [JSON.stringify(_, null, 4)]; and [path.resolve].
    A text that parses is taken to have the shape of the persisted format,
    which is the shape that [convertMapToJson] writes. *)
Variable JSON_parse : string -> Outcome RulePathJson.
Variable JSON_stringify : RulePathJson -> string.
Variable path_resolve : string -> string -> string.

(** [SFDX_SCANNER_PATH] and [getFilePath()] *)
Variable SFDX_SCANNER_PATH : string.
Variable filePath : string.

Definition determineEngineForPath (path : string) : option RuleEngine :=
  find (fun e => matchPath e path) engines.

(** The key that a reference to an engine, or [undefined], makes. *)
Definition keyOf (e : option RuleEngine) : Key :=
  match e with
  | Some e => KeyObject (objectId e)
  | None => KeyUndefined
  end.

Definition initialize : M unit :=
  st ← getState;
  if initialized st then mret tt
  else
    data ← match customRulePathFile st with
            | Content data => mret data
            | Rejected code message =>
                if String.eqb code "ENOENT" then mret EMPTY_JSON_FILE
                else throw (SfdxError "errors.readCustomRulePathFileFailed"
                              [message])
            end;
    let data := if String.eqb "" (trim data) then EMPTY_JSON_FILE else data in
    json ← lift (JSON_parse data);
    setPaths (convertJsonDataToMap json);;
    setInitialized true.

Fixpoint expandPathsFrom (classpathEntries : list string)
    (paths : list string) : Outcome (list string) :=
  match paths with
  | [] => Return classpathEntries
  | p :: paths' =>
      match stats fileHandler p with
      | None => Throw (SfdxError "errors.invalidFilePath" [p])
      | Some stats =>
          if isFile stats then
            if endsWith p ".jar"
            then expandPathsFrom (classpathEntries ++ [p]) paths'
            else expandPathsFrom classpathEntries paths'
          else if isDirectory stats then
            let files := readDir fileHandler p in
            expandPathsFrom
              (fold_left
                 (fun classpathEntries file =>
                    if endsWith file ".jar"
                    then classpathEntries ++ [path_resolve p file]
                    else classpathEntries)
                 files classpathEntries)
              paths'
          else expandPathsFrom classpathEntries paths'
      end
  end.

Definition expandPaths (paths : list string) : Outcome (list string) :=
  expandPathsFrom [] paths.

(** [engine.getName()], where [engine] may be [undefined]. *)
Definition getNameOf (engine : option RuleEngine) : Outcome string :=
  match engine with
  | Some engine => Return (getName engine)
  | None =>
      Throw (TypeError "Cannot read properties of undefined (reading 'getName')")
  end.

(** [m.get(k)] followed by a method call, which throws on [undefined]. *)
Definition getOrThrow {K V} `{EqDecision K} (k : K) (m : Map K V)
    (method : string) : Outcome V :=
  match mapGet k m with
  | Some v => Return v
  | None =>
      Throw (TypeError
               ("Cannot read properties of undefined (reading '" +:+ method
                +:+ "')"))
  end.

(** The body of the [forEach] of [addPathsForLanguage]. *)
Definition addEntry (language entry : string) : M unit :=
  let engine := determineEngineForPath entry in
  name ← lift (getNameOf engine);
  st ← getState;
  (if negb (mapHas (KeyString name) (pathsByLanguageByEngine st))
   then setPaths (mapSet (KeyString name) [] (pathsByLanguageByEngine st))
   else mret tt);;
  st ← getState;
  let map := pathsByLanguageByEngine st in
  byLanguage ← lift (getOrThrow (KeyString name) map "has");
  if negb (mapHas language byLanguage)
  then setPaths (mapSet (KeyString name)
                   (mapSet language (setFrom [entry]) byLanguage) map)
  else
    paths ← lift (getOrThrow language byLanguage "add");
    setPaths (mapSet (KeyString name)
                (mapSet language (setAdd entry paths) byLanguage) map).

Definition saveCustomClasspaths : M unit :=
  initialize;;
  tryCatch
    (st ← getState;
     json ← lift (convertMapToJson (pathsByLanguageByEngine st));
     let fileContent := JSON_stringify json in
     match mkdirIfNotExists fileHandler SFDX_SCANNER_PATH with
     | Some message => throw (SystemError "" message)
     | None =>
         match writeFile fileHandler filePath fileContent with
         | Some message => throw (SystemError "" message)
         | None => setFile fileContent
         end
     end)
    (fun e =>
       throw (SfdxError "errors.writeCustomRulePathFileFailed"
                [Messages.messageOf e])).

Definition addPathsForLanguage (language : string) (paths : list string)
    : M (list string) :=
  initialize;;
  classpathEntries ← lift (expandPaths paths);
  forEach (addEntry language) classpathEntries;;
  saveCustomClasspaths;;
  mret classpathEntries.

(** The predicate of the [filter] of [getMatchingPaths]. *)
Definition isMatchingPath (map : RulePathMap) (language p : string) : bool :=
  let e := keyOf (determineEngineForPath p) in
  match mapGet e map with
  | None => false                                  (* !map.has(e) *)
  | Some byLanguage =>
      if negb (mapHas language byLanguage) then false
      else match mapGet language byLanguage with
           | None => false
           | Some paths => setHas p paths
           end
  end.

Definition getMatchingPaths (language : string) (paths : list string)
    : M (list string) :=
  initialize;;
  expandedPaths ← lift (expandPaths paths);
  st ← getState;
  mret (List.filter (isMatchingPath (pathsByLanguageByEngine st) language)
          expandedPaths).

(** The body of the [forEach] of [removePathsForLanguage]: the map and the
    deleted paths after the callback has run on [p]. *)
Definition removeEntry (language p : string)
    (acc : RulePathMap * list string) : RulePathMap * list string :=
  let '(map, deletedPaths) := acc in
  let e := keyOf (determineEngineForPath p) in
  match mapGet e map with
  | None => acc                                    (* !map.has(e) *)
  | Some byLanguage =>
      match mapGet language byLanguage with
      | None => acc                                (* !map.get(e).has(language) *)
      | Some paths =>
          let '(deleted, paths') := setDelete p paths in
          let map' := mapSet e (mapSet language paths' byLanguage) map in
          if deleted then (map', deletedPaths ++ [p]) else (map', deletedPaths)
      end
  end.

Definition removePathsForLanguage (language : string) (paths : list string)
    : M (list string) :=
  initialize;;
  expandedPaths ← lift (expandPaths paths);
  st ← getState;
  let '(map, deletedPaths) :=
    fold_left (fun acc p => removeEntry language p acc) expandedPaths
      (pathsByLanguageByEngine st, []) in
  setPaths map;;
  saveCustomClasspaths;;
  mret deletedPaths.

Definition getRulePathEntries (engine : string) : M RulePathEntry :=
  initialize;;
  st ← getState;
  match mapGet (KeyString engine) (pathsByLanguageByEngine st) with
  | None => mret []
  | Some entries => mret entries
  end.

End Manager.

End CustomRulePathManager.

(* ================================================================== *)
(** ** src/lib/eslint/BaseEslintEngine.ts *)
(* ================================================================== *)

Module BaseEslintEngine.

Import Constants.

Definition DEFAULT_ENV_VARS : LooseObject :=
  list_to_map
    [("es6", JsBoolean true); ("node", JsBoolean true);
     ("browser", JsBoolean true); ("webextensions", JsBoolean true);
     ("jasmine", JsBoolean true); ("jest", JsBoolean true);
     ("jquery", JsBoolean true); ("mocha", JsBoolean true)].

Definition ENV : string := "env".
Definition BASECONFIG : string := "baseConfig".

(** [config.baseConfig]: its [env] property, if it has one, and its other
    properties (as JSON text). *)
Record BaseConfig : Type := {
  env : option LooseObject;
  baseConfigRest : gmap string string;
}.

(** A [rules] object: its own properties, and its prototype when that is
    no longer [Object.prototype] but an array. *)
Record RulesObject : Type := {
  properties : gmap string ESRuleConfig;
  prototype : option (list ESRuleConfigValue);
}.

(** [{}] *)
Definition emptyObject : RulesObject :=
  {| properties := ∅; prototype := None |}.

(** [o[key] = value]: an own property takes the value; [__proto__], when
    it is not an own property, reaches the setter of [Object.prototype],
    which makes an array the prototype, ignores a string, and creates no
    property; any other key becomes an own property. *)
Definition setProperty (key : string) (value : ESRuleConfig) (o : RulesObject)
    : RulesObject :=
  match properties o !! key with
  | None =>
      if String.eqb key "__proto__" then
        match value with
        | ConfigArray items =>
            {| properties := properties o; prototype := Some items |}
        | ConfigString _ => o
        end
      else {| properties := <[key := value]> (properties o);
              prototype := prototype o |}
  | Some _ =>
      {| properties := <[key := value]> (properties o);
         prototype := prototype o |}
  end.

(** The configuration handed to the ESLint engine. *)
Record Config : Type := {
  cwd : string;
  rules : RulesObject;
  baseConfig : option BaseConfig;
  configRest : gmap string string;
}.

(** What [getRunConfig] resolves to: any of the properties above. *)
Record RunConfig : Type := {
  run_cwd : option string;
  run_rules : option RulesObject;
  run_baseConfig : option BaseConfig;
  run_rest : gmap string string;
}.

(** [Object.assign(config, deepCopy(runConfig))] *)
Definition assign (config : Config) (runConfig : RunConfig) : Config :=
  {| cwd := default (cwd config) (run_cwd runConfig);
     rules := default (rules config) (run_rules runConfig);
     baseConfig :=
       match run_baseConfig runConfig with
       | Some b => Some b
       | None => baseConfig config
       end;
     configRest := spread (configRest config) (run_rest runConfig) |}.

Record RuleGroup : Type := {
  group_name : string;
  group_engine : string;
  group_paths : list string;
}.

(** The methods of [EslintStrategy] that the modelled code calls. *)
Record EslintStrategy : Type := {
  getEngine : ENGINE;
  getRunConfig : gmap string string -> RunConfig;
  filterUnsupportedPaths : list string -> list string;
  processRuleViolation : string -> RuleViolation -> RuleViolation;
}.

(** The ESLint engine made for one configuration. *)
Record CLIEngine : Type := {
  executeOnFiles : list string -> Outcome (list ESResult);
  getRules : gmap string ESRuleMetadata;
}.

Record StaticDependencies : Type := {
  resolveTargetPath : string -> string;
  getCurrentWorkingDirectory : string;
  createCLIEngine : Config -> CLIEngine;
}.

(** One run of the underlying engine: the configuration it was created
    with and the files it was executed on. *)
Record Invocation : Type := {
  invokedWith : Config;
  invokedOn : list string;
}.

(** [a || b] for a rule configuration that may be [null]. *)
Definition orElse (a : option ESRuleConfig) (b : ESRuleConfig) : ESRuleConfig :=
  match a with
  | Some a => if truthy a then a else b
  | None => b
  end.

Definition matchPath (path : string) : bool := false.

Definition configureRules (rules : list Rule) : RulesObject :=
  fold_left
    (fun configuredRules rule =>
       setProperty (name rule)
         (orElse (defaultConfig rule) (ConfigString "error"))
         configuredRules)
    rules emptyObject.

Section Engine.

Variable strategy : EslintStrategy.
Variable baseDependencies : StaticDependencies.

(** [JSON.parse] on the [env] engine option: the own properties of the
    parsed value, which is all that object spread reads of it. *)
Variable JSON_parse : string -> Outcome LooseObject.

Definition getName : string := valueOf (getEngine strategy).

(** The engine as the registry of custom rule paths holds it. *)
Definition asRuleEngine (objectId : nat) : RuleEngine :=
  Build_RuleEngine objectId getName matchPath.

(** The statements of [run] that give [config.baseConfig.env] its value. *)
Definition mergeEnv (config : Config) (engineOptions : gmap string string)
    : Outcome Config :=
  let baseConfig' :=
    match baseConfig config with
    | Some b => b
    | None => {| env := Some ∅; baseConfigRest := ∅ |}
    end in
  let envOverride :=
    match engineOptions !! ENV with
    | Some text => JSON_parse text
    | None => Return ∅
    end in
  match envOverride with
  | Throw e => Throw e
  | Return envOverride =>
      let env' :=
        spread (spread (spread ∅ DEFAULT_ENV_VARS)
                  (default ∅ (env baseConfig')))
          envOverride in
      Return {| cwd := cwd config;
                rules := rules config;
                baseConfig :=
                  Some {| env := Some env';
                          baseConfigRest := baseConfigRest baseConfig' |};
                configRest := configRest config |}
  end.

(** [cli.executeOnFiles(paths)] for the engine created with [config]. *)
Definition invoke (config : Config) (paths : list string)
    : StateOutcome (list Invocation) (list ESResult) :=
  fun log =>
    (executeOnFiles (createCLIEngine baseDependencies config) paths,
     log ++ [{| invokedWith := config; invokedOn := paths |}]).

(** The loop of [run] over the targets. *)
Fixpoint runTargets (configuredRules : RulesObject)
    (engineOptions : gmap string string) (targets : list RuleTarget)
    (results : list RuleResult)
    : StateOutcome (list Invocation) (list RuleResult) :=
  match targets with
  | [] => mret results
  | tgt :: targets' =>
      let cwd :=
        if isDirectory tgt
        then resolveTargetPath baseDependencies (target tgt)
        else getCurrentWorkingDirectory baseDependencies in
      let config :=
        {| cwd := cwd; rules := configuredRules; baseConfig := None;
           configRest := ∅ |} in
      let paths := filterUnsupportedPaths strategy (paths tgt) in
      if (length paths =? 0)%nat
      then runTargets configuredRules engineOptions targets' results
      else
        let config := assign config (getRunConfig strategy engineOptions) in
        config ← lift (mergeEnv config engineOptions);
        report ← invoke config paths;
        let results :=
          EslintCommons.EslintProcessHelper.addRuleResultsFromReport
            (valueOf (getEngine strategy)) results report
            (getRules (createCLIEngine baseDependencies config))
            (processRuleViolation strategy) in
        runTargets configuredRules engineOptions targets' results
  end.

Definition run (ruleGroups : list RuleGroup) (rules : list Rule)
    (targets : list RuleTarget) (engineOptions : gmap string string)
    : StateOutcome (list Invocation) (list RuleResult) :=
  let configuredRules := configureRules rules in
  if (size (properties configuredRules) =? 0)%nat then mret []
  else
    tryCatch (runTargets configuredRules engineOptions targets [])
      (fun e => throw (SfdxErrorFrom e)).

End Engine.

(** A rule of the catalogue: the properties of [Rule] above and the others
    that [processRule] sets. *)
Record CatalogRule : Type := {
  rule : Rule;
  sourcepackage : string;
  description : string;
  categories : list string;
  rulesets : list string;
  defaultEnabled : bool;
  rule_url : string;
}.

Record Catalog : Type := {
  catalog_categories : list RuleGroup;
  catalog_rules : list CatalogRule;
  catalog_rulesets : list RuleGroup;
}.

Section Catalogue.

Variable strategy : EslintStrategy.

(** The methods of the strategy that the catalogue calls:
    [filterDisallowedRules], [getLanguages], [ruleDefaultEnabled] and
    [getDefaultConfig]. *)
Variable filterDisallowedRules : Map string ESRule -> Map string ESRule.
Variable getLanguages : list string.
Variable ruleDefaultEnabled : string -> bool.
Variable getDefaultConfig : string -> option ESRuleConfig.

Definition processRule (key : string) (docs : ESRuleDocs) : CatalogRule :=
  {| rule := {| engine := getName strategy;
                name := key;
                languages := getLanguages;
                defaultConfig := getDefaultConfig key |};
     sourcepackage := getName strategy;
     description := doc_description docs;
     categories := [doc_category docs];
     rulesets := [doc_category docs];
     defaultEnabled := ruleDefaultEnabled key;
     rule_url := doc_url docs |}.

(** The callback of the [forEach] of [getCatalog], on the map of the
    categories and the list of the rules. *)
Definition addToCatalog (acc : Map string RuleGroup * list CatalogRule)
    (entry : string * ESRule) : Map string RuleGroup * list CatalogRule :=
  let '(categoryMap, rules) := acc in
  let '(key, esRule) := entry in
  let docs := docs (meta esRule) in
  let rule := processRule key docs in
  let rules := rules ++ [rule] in
  let categoryName := doc_category docs in
  let category :=
    match mapGet categoryName categoryMap with
    | Some category => category
    | None =>
        {| group_name := categoryName; group_engine := getName strategy;
           group_paths := [] |}
    end in
  let category :=
    {| group_name := group_name category;
       group_engine := group_engine category;
       group_paths := group_paths category ++ [doc_url docs] |} in
  (mapSet categoryName category categoryMap, rules).

(** The catalogue built from the rules of the engine made for the
    catalogue configuration, [cli.getRules()]. *)
Definition buildCatalog (cliRules : Map string ESRule) : Catalog :=
  let allRules := filterDisallowedRules cliRules in
  let '(categoryMap, rules) := fold_left addToCatalog allRules ([], []) in
  {| catalog_categories := map snd categoryMap;
     catalog_rules := rules;
     catalog_rulesets := [] |}.

(** [getCatalog()] on the field [this.catalog]: what it resolves to and the
    field afterwards. *)
Definition getCatalog (cliRules : Map string ESRule)
    (catalog : option Catalog) : Catalog * option Catalog :=
  match catalog with
  | Some catalog => (catalog, Some catalog)
  | None => let catalog := buildCatalog cliRules in (catalog, Some catalog)
  end.

End Catalogue.

End BaseEslintEngine.

(* ================================================================== *)
(** ** The callbacks of the registry as functions of the map *)
(* ================================================================== *)

Module Registry.

Import CustomRulePathManager.

(** What the callback of [addPathsForLanguage] does to the map for an
    entry attributed to the engine called [name]. *)
Definition insertPath (name language entry : string) (m : RulePathMap)
    : RulePathMap :=
  let m1 :=
    if negb (mapHas (KeyString name) m) then mapSet (KeyString name) [] m
    else m in
  match mapGet (KeyString name) m1 with
  | None => m1
  | Some byLanguage =>
      if negb (mapHas language byLanguage)
      then mapSet (KeyString name)
             (mapSet language (setFrom [entry]) byLanguage) m1
      else match mapGet language byLanguage with
           | None => m1
           | Some paths =>
               mapSet (KeyString name)
                 (mapSet language (setAdd entry paths) byLanguage) m1
           end
  end.

(** [entry] is stored for the engine called [name] and [language]. *)
Definition stored (name language entry : string) (m : RulePathMap) : Prop :=
  exists byLanguage paths,
    mapGet (KeyString name) m = Some byLanguage
    /\ mapGet language byLanguage = Some paths
    /\ setHas entry paths = true.

(** Every key of the map is the name of an engine. *)
Definition keyedByName (m : RulePathMap) : Prop :=
  Forall (fun k => exists s, k = KeyString s) (mapKeys m).

(** The state with another map. *)
Definition withPaths (m : RulePathMap) (st : State) : State :=
  {| initialized := initialized st;
     pathsByLanguageByEngine := m;
     customRulePathFile := customRulePathFile st |}.

End Registry.

(* ================================================================== *)
(** ** ScannerCommand (the class after the engine in BaseEslintEngine.ts) *)
(* ================================================================== *)

Module ScannerCommand.

(** The flags that [buildRuleFilters] reads; an absent flag is [None]. *)
Record Flags : Type := {
  category : option (list string);
  ruleset : option (list string);
  language : option (list string);
  rulename : option string;
  engine : option (list string);
}.

(** [new CategoryFilter(values)] and the like. *)
Inductive RuleFilter : Type :=
| CategoryFilter (values : list string)
| RulesetFilter (values : list string)
| LanguageFilter (values : list string)
| RulenameFilter (values : list string)
| EngineFilter (values : list string).

(** [if (flag && flag.length) { filters.push(make(flag)) }] *)
Definition pushFilter (flag : option (list string))
    (make : list string -> RuleFilter) (filters : list RuleFilter)
    : list RuleFilter :=
  match flag with
  | Some values =>
      if (0 <? length values)%nat then filters ++ [make values] else filters
  | None => filters
  end.

Definition buildRuleFilters (flags : Flags) : list RuleFilter :=
  let filters := [] in
  let filters := pushFilter (category flags) CategoryFilter filters in
  let filters := pushFilter (ruleset flags) RulesetFilter filters in
  let filters := pushFilter (language flags) LanguageFilter filters in
  let filters :=
    match rulename flags with
    | Some rulename =>
        if negb (String.eqb rulename "")
        then filters ++ [RulenameFilter [rulename]]
        else filters
    | None => filters
    end in
  let filters := pushFilter (engine flags) EngineFilter filters in
  filters.

End ScannerCommand.

(* ================================================================== *)
(** ** src/commands/scanner/rule/add.ts *)
(* ================================================================== *)

Module Add.

Record Flags : Type := {
  language : string;
  path : list string;
}.

(** What [run] resolves to. *)
Record Result : Type := {
  success : bool;
  result_language : string;
  result_path : list string;
}.

Definition validateFlags (flags : Flags) : Outcome unit :=
  if (String.length (language flags) =? 0)%nat
  then Throw (SfdxError "validations.languageCannotBeEmpty" [])
  else if negb (0 <? length (path flags))%nat
          || existsb (String.eqb "") (path flags)
  then Throw (SfdxError "validations.pathCannotBeEmpty" [])
  else Return tt.

Section Command.

(** The manager that [Controller.createRulePathManager()] gives, with what
    it depends on. *)
Variable engines : list RuleEngine.
Variable fileHandler : CustomRulePathManager.FileHandler.
Variable JSON_parse : string -> Outcome CustomRulePathManager.RulePathJson.
Variable JSON_stringify : CustomRulePathManager.RulePathJson -> string.
Variable path_resolve : string -> string -> string.
Variable SFDX_SCANNER_PATH : string.
Variable filePath : string.

(** [untildify] and [path.resolve] with one argument. *)
Variable untildify : string -> string.
Variable resolve : string -> string.

Definition resolvePaths (flags : Flags) : list string :=
  map (fun p => resolve (untildify p)) (path flags).

Definition run (flags : Flags) : CustomRulePathManager.M Result :=
  lift (validateFlags flags);;
  let language := language flags in
  let paths := resolvePaths flags in
  classpathEntries ←
    CustomRulePathManager.addPathsForLanguage engines fileHandler JSON_parse
      JSON_stringify path_resolve SFDX_SCANNER_PATH filePath language paths;
  mret {| success := true; result_language := language;
          result_path := classpathEntries |}.

End Command.

End Add.

(* ================================================================== *)
(** ** Shapes of the registry and of a run *)
(* ================================================================== *)

Module Shape.

(** No key, no language and no path occurs twice. *)
Definition wellFormed (m : CustomRulePathManager.RulePathMap) : Prop :=
  NoDup (mapKeys m)
  /\ Forall
       (fun byEngine =>
          NoDup (mapKeys (snd byEngine))
          /\ Forall (fun byLanguage => NoDup (snd byLanguage)) (snd byEngine))
       m.

(** [key1] keeps its place before [key2] among the keys of an object: an
    array index before a greater one and before every other key, and
    another key before the keys that are no array index. *)
Definition keyBefore (key1 key2 : string) : bool :=
  match arrayIndex key1, arrayIndex key2 with
  | Some index1, Some index2 => (index1 <? index2)%N
  | Some _, None => true
  | None, Some _ => false
  | None, None => true
  end.

(** The keys of an object that assignments can have made: none twice, none
    [__proto__], and in the order of [Object.keys]. *)
Definition objectKeys (keys : list string) : Prop :=
  NoDup keys
  /\ ~ In "__proto__" keys
  /\ Sorted.StronglySorted (fun key1 key2 => keyBefore key1 key2 = true) keys.

(** A document of such objects, in which no array repeats a path. *)
Definition wellFormedJson (json : CustomRulePathManager.RulePathJson)
    : Prop :=
  objectKeys (mapKeys json)
  /\ Forall
       (fun byEngine =>
          objectKeys (mapKeys (snd byEngine))
          /\ Forall (fun byLanguage => NoDup (snd byLanguage)) (snd byEngine))
       json.

(** No engine and no language of the registry is called [__proto__]. *)
Definition noProto (m : CustomRulePathManager.RulePathMap) : Prop :=
  ~ In (CustomRulePathManager.KeyString "__proto__") (mapKeys m)
  /\ Forall (fun byEngine => ~ In "__proto__" (mapKeys (snd byEngine))) m.

(** Two registries have the same engines, and for each engine the same
    languages with the same paths, whatever the order of the keys. *)
Definition sameEntries (m m' : CustomRulePathManager.RulePathMap) : Prop :=
  forall k,
    match mapGet k m, mapGet k m' with
    | Some byLanguage, Some byLanguage' =>
        forall language, mapGet language byLanguage = mapGet language byLanguage'
    | None, None => True
    | _, _ => False
    end.

(** The map that has the properties of a document as its entries, each
    name of an engine made a key. *)
Definition keyed (json : CustomRulePathManager.RulePathJson)
    : CustomRulePathManager.RulePathMap :=
  map (fun byEngine =>
         (CustomRulePathManager.KeyString (fst byEngine), snd byEngine))
    json.

Section Reach.

Import CustomRulePathManager.

Variable engines : list RuleEngine.
Variable fileHandler : FileHandler.
Variable JSON_parse : string -> Outcome RulePathJson.
Variable JSON_stringify : RulePathJson -> string.
Variable path_resolve : string -> string -> string.
Variable SFDX_SCANNER_PATH : string.
Variable filePath : string.

(** The document that the first initialisation of a manager reads from
    the persisted file, when it does. *)
Definition loadedDocument (file : ReadResult) : option RulePathJson :=
  match file with
  | Rejected code _ =>
      if String.eqb code "ENOENT"
      then match JSON_parse EMPTY_JSON_FILE with
           | Return json => Some json
           | Throw _ => None
           end
      else None
  | Content data =>
      match JSON_parse (if String.eqb "" (trim data)
                        then EMPTY_JSON_FILE else data) with
      | Return json => Some json
      | Throw _ => None
      end
  end.

(** The states of a manager next to the persisted [file]: the one after
    [init()], and those that its public methods lead to. *)
Inductive Reachable (file : ReadResult) : State -> Prop :=
| reach_init : Reachable file (init file)
| reach_add (st : State) (language : string) (paths : list string) :
    Reachable file st ->
    Reachable file
      (snd (addPathsForLanguage engines fileHandler JSON_parse
              JSON_stringify path_resolve SFDX_SCANNER_PATH filePath
              language paths st))
| reach_matching (st : State) (language : string) (paths : list string) :
    Reachable file st ->
    Reachable file
      (snd (getMatchingPaths engines fileHandler JSON_parse path_resolve
              language paths st))
| reach_remove (st : State) (language : string) (paths : list string) :
    Reachable file st ->
    Reachable file
      (snd (removePathsForLanguage engines fileHandler JSON_parse
              JSON_stringify path_resolve SFDX_SCANNER_PATH filePath
              language paths st))
| reach_entries (st : State) (engine : string) :
    Reachable file st ->
    Reachable file (snd (getRulePathEntries JSON_parse engine st)).

End Reach.

Section RunShape.

Import BaseEslintEngine.

Variable strategy : EslintStrategy.
Variable baseDependencies : StaticDependencies.

(** The files of a target that the engine supports. *)
Definition supported (tgt : RuleTarget) : list string :=
  filterUnsupportedPaths strategy (paths tgt).

(** The targets that have such files. *)
Definition runnable (targets : list RuleTarget) : list RuleTarget :=
  List.filter (fun tgt => negb (length (supported tgt) =? 0)%nat) targets.

(** The working directory that [run] chooses for a target. *)
Definition cwdOf (tgt : RuleTarget) : string :=
  if isDirectory tgt then resolveTargetPath baseDependencies (target tgt)
  else getCurrentWorkingDirectory baseDependencies.

(** The invocation made for a target: its files, and the working
    directory, the rules and the other properties, each taken from the run
    configuration when it has it. *)
Definition invokedFor (rules : list Rule) (engineOptions : gmap string string)
    (tgt : RuleTarget) (inv : Invocation) : Prop :=
  let runConfig := getRunConfig strategy engineOptions in
  invokedOn inv = supported tgt
  /\ cwd (invokedWith inv) = default (cwdOf tgt) (run_cwd runConfig)
  /\ BaseEslintEngine.rules (invokedWith inv)
     = default (configureRules rules) (run_rules runConfig)
  /\ configRest (invokedWith inv) = run_rest runConfig.

(** The results that an invocation adds: one for each reported file that
    has messages. *)
Definition resultsOf (inv : Invocation) : list RuleResult :=
  let cli := createCLIEngine baseDependencies (invokedWith inv) in
  match executeOnFiles cli (invokedOn inv) with
  | Throw _ => []
  | Return report =>
      map (fun r =>
             EslintCommons.EslintProcessHelper.toRuleResult
               (Constants.valueOf (getEngine strategy)) (filePath r)
               (messages r) (getRules cli) (processRuleViolation strategy))
        (List.filter (fun r => (0 <? length (messages r))%nat) report)
  end.

End RunShape.

(** The position of the kind of a filter among the kinds. *)
Definition kindOf (filter : ScannerCommand.RuleFilter) : nat :=
  match filter with
  | ScannerCommand.CategoryFilter _ => 0
  | ScannerCommand.RulesetFilter _ => 1
  | ScannerCommand.LanguageFilter _ => 2
  | ScannerCommand.RulenameFilter _ => 3
  | ScannerCommand.EngineFilter _ => 4
  end.

Definition valuesOf (filter : ScannerCommand.RuleFilter) : list string :=
  match filter with
  | ScannerCommand.CategoryFilter values
  | ScannerCommand.RulesetFilter values
  | ScannerCommand.LanguageFilter values
  | ScannerCommand.RulenameFilter values
  | ScannerCommand.EngineFilter values => values
  end.

(** The addresses of the rules of a category, in the order of the rules. *)
Definition urlsIn (categoryName : string) (rules : Map string ESRule)
    : list string :=
  map (fun entry => doc_url (docs (meta (snd entry))))
    (List.filter
       (fun entry =>
          String.eqb (doc_category (docs (meta (snd entry)))) categoryName)
       rules).

End Shape.

(* ================================================================== *)
(** ** Reading the specification *)
(* ================================================================== *)

Module Spec.

(** A rule configuration begins with [search]: the string starts with it,
    or the array has it as its first element. *)
Definition beginsWith (search : string) (config : ESRuleConfig) : Prop :=
  match config with
  | ConfigString s => exists rest, s = search +:+ rest
  | ConfigArray items => exists rest, items = StringValue search :: rest
  end.


(** What one pattern contributes to the expansion, as the specification
    describes it: a file is kept when it has the recognised extension, a
    directory gives its listed entries that have it, each resolved against
    the directory, and nothing else contributes. *)
Definition contribution (fileHandler : CustomRulePathManager.FileHandler)
    (path_resolve : string -> string -> string) (p : string) : list string :=
  match CustomRulePathManager.stats fileHandler p with
  | None => []
  | Some st =>
      if CustomRulePathManager.isFile st then
        if endsWith p ".jar" then [p] else []
      else if CustomRulePathManager.isDirectory st then
        map (path_resolve p)
          (List.filter (fun file => endsWith file ".jar")
             (CustomRulePathManager.readDir fileHandler p))
      else []
  end.

(** The error that names a pattern at which there is nothing. *)
Definition InvalidPathError (p : string) : Error :=
  SfdxError "errors.invalidFilePath" [p].

(** Every character of the text is white space. *)
Definition blank (data : string) : Prop :=
  Forall (fun c => isWhiteSpace c = true) (list_ascii_of_string data).

(** The persisted file is missing, or holds nothing but white space. *)
Definition missingOrBlank (file : CustomRulePathManager.ReadResult) : Prop :=
  match file with
  | CustomRulePathManager.Rejected code _ => code = "ENOENT"
  | CustomRulePathManager.Content data => blank data
  end.

(** The manager initialised with the empty registry, next to the same
    persisted file. *)
Definition emptyRegistry (st : CustomRulePathManager.State)
    : CustomRulePathManager.State :=
  {| CustomRulePathManager.initialized := true;
     CustomRulePathManager.pathsByLanguageByEngine := [];
     CustomRulePathManager.customRulePathFile :=
       CustomRulePathManager.customRulePathFile st |}.

(** The value of [key] when [override] wins over [base], which wins over
    [defaults]. *)
Definition precedence (override base defaults : LooseObject) (key : string)
    : option JsValue :=
  match override !! key with
  | Some v => Some v
  | None =>
      match base !! key with
      | Some v => Some v
      | None => defaults !! key
      end
  end.

(** The override given with the [env] engine option: none without the
    option, what [JSON.parse] makes of its text with it. *)
Definition userOverride (JSON_parse : string -> Outcome LooseObject)
    (engineOptions : gmap string string) : Outcome LooseObject :=
  match engineOptions !! BaseEslintEngine.ENV with
  | Some text => JSON_parse text
  | None => Return ∅
  end.

(** The environment that the run configuration brings in its
    [baseConfig]. *)
Definition runConfigEnv (runConfig : BaseEslintEngine.RunConfig) : LooseObject :=
  match BaseEslintEngine.run_baseConfig runConfig with
  | Some b => default ∅ (BaseEslintEngine.env b)
  | None => ∅
  end.

(** The last rule of the list that is called [ruleName]. *)
Fixpoint lastNamed (ruleName : string) (rules : list Rule) : option Rule :=
  match rules with
  | [] => None
  | rule :: rules' =>
      match lastNamed ruleName rules' with
      | Some rule' => Some rule'
      | None => if String.eqb (name rule) ruleName then Some rule else None
      end
  end.

(** The configuration at which a rule runs: its default configuration
    when it has one that is not the empty string, 'error' otherwise. *)
Definition effectiveConfig (rule : Rule) : ESRuleConfig :=
  match defaultConfig rule with
  | Some c => if bool_decide (c = ConfigString "") then ConfigString "error" else c
  | None => ConfigString "error"
  end.

(** The configured rules as the specification words them: each rule at
    its default configuration when it has one, at 'error' when not. *)
Definition configuredAsStated (rules : list Rule) : Prop :=
  forall rule,
    In rule rules ->
    BaseEslintEngine.properties (BaseEslintEngine.configureRules rules)
      !! name rule
    = Some (default (ConfigString "error") (defaultConfig rule)).

Section Registry.

Import CustomRulePathManager.

Variable engines : list RuleEngine.
Variable fileHandler : FileHandler.
Variable JSON_parse : string -> Outcome RulePathJson.
Variable JSON_stringify : RulePathJson -> string.
Variable path_resolve : string -> string -> string.
Variable SFDX_SCANNER_PATH : string.
Variable filePath : string.

Local Abbreviation initialize := (initialize JSON_parse).
Local Abbreviation expandPaths := (expandPaths fileHandler path_resolve).
Local Abbreviation addPathsForLanguage :=
  (addPathsForLanguage engines fileHandler JSON_parse JSON_stringify
     path_resolve SFDX_SCANNER_PATH filePath).
Local Abbreviation getMatchingPaths :=
  (getMatchingPaths engines fileHandler JSON_parse path_resolve).
Local Abbreviation removePathsForLanguage :=
  (removePathsForLanguage engines fileHandler JSON_parse JSON_stringify
     path_resolve SFDX_SCANNER_PATH filePath).
Local Abbreviation getRulePathEntries := (getRulePathEntries JSON_parse).

(** Every operation of the registry behaves as on the empty registry. *)
Definition asEmpty (st : State) : Prop :=
  initialize st = (Return tt, emptyRegistry st)
  /\ (forall language paths,
        addPathsForLanguage language paths st
        = addPathsForLanguage language paths (emptyRegistry st))
  /\ (forall language paths,
        getMatchingPaths language paths st
        = getMatchingPaths language paths (emptyRegistry st)
        /\ getMatchingPaths language paths st
           = (match expandPaths paths with
              | Return _ => Return []
              | Throw e => Throw e
              end, emptyRegistry st))
  /\ (forall language paths,
        removePathsForLanguage language paths st
        = removePathsForLanguage language paths (emptyRegistry st))
  /\ (forall engine,
        getRulePathEntries engine st = (Return [], emptyRegistry st)).

(** Every operation of the registry throws [e] and changes nothing. *)
Definition fatal (st : State) (e : Error) : Prop :=
  initialize st = (Throw e, st)
  /\ (forall language paths,
        addPathsForLanguage language paths st = (Throw e, st))
  /\ (forall language paths,
        getMatchingPaths language paths st = (Throw e, st))
  /\ (forall language paths,
        removePathsForLanguage language paths st = (Throw e, st))
  /\ (forall engine, getRulePathEntries engine st = (Throw e, st)).

End Registry.

End Spec.

Export Spec.

(* ================================================================== *)
(** ** Inputs used in the examples *)
(* ================================================================== *)

Module Examples.

Import EslintCommons.

(** A recommended configuration whose entry for [no-eval] is the empty
    string. *)
Definition emptyEntryConfig : RecommendedConfig :=
  {| rules := {[ "no-eval" := ConfigString "" ]} |}.

Definition typicalConfig : RecommendedConfig :=
  {| rules :=
       <[ "no-eval" := ConfigString "error" ]>
         (<[ "no-console" := ConfigString "off" ]>
            {[ "indent" := ConfigArray [StringValue "warn"; OtherValue "4"] ]}) |}.

(** Two rules of one name with different default configurations. *)
Definition sameNameRules : list Rule :=
  [ {| engine := "eslint"; name := "no-eval"; languages := ["javascript"];
       defaultConfig := Some (ConfigString "warn") |};
    {| engine := "eslint"; name := "no-eval"; languages := ["javascript"];
       defaultConfig := Some (ConfigArray [StringValue "error"]) |} ].

(** A rule called [__proto__]. *)
Definition protoRules : list Rule :=
  [ {| engine := "eslint"; name := "__proto__"; languages := ["javascript"];
       defaultConfig := Some (ConfigArray [StringValue "warn"]) |} ].

(** A rule whose default configuration is the empty string. *)
Definition emptyConfigRules : list Rule :=
  [ {| engine := "eslint"; name := "no-eval"; languages := ["javascript"];
       defaultConfig := Some (ConfigString "") |} ].

Definition someRules : list Rule :=
  [ {| engine := "eslint"; name := "no-eval"; languages := ["javascript"];
       defaultConfig := Some (ConfigString "warn") |};
    {| engine := "eslint"; name := "semi"; languages := ["javascript"];
       defaultConfig := None |} ].

(** An engine that owns archives, under the name of the PMD engine. *)
Definition jarEngine : RuleEngine :=
  {| objectId := 1;
     getName := Constants.valueOf Constants.PMD;
     matchPath := fun path => endsWith path ".jar" |}.

Definition eslintStrategy : BaseEslintEngine.EslintStrategy :=
  {| BaseEslintEngine.getEngine := Constants.ESLINT;
     BaseEslintEngine.getRunConfig :=
       fun _ =>
         {| BaseEslintEngine.run_cwd := None;
            BaseEslintEngine.run_rules := None;
            BaseEslintEngine.run_baseConfig :=
              Some {| BaseEslintEngine.env :=
                        Some (<[ "node" := JsBoolean false ]>
                                {[ "es2020" := JsBoolean true ]});
                      BaseEslintEngine.baseConfigRest := 
                        {[ "parser" := "babel-eslint" ]} |};
            BaseEslintEngine.run_rest := {[ "useEslintrc" := "false" ]} |};
     BaseEslintEngine.filterUnsupportedPaths :=
       List.filter (fun p => endsWith p ".js");
     BaseEslintEngine.processRuleViolation := fun _ violation => violation |}.

(** The ESLint engine as the registry holds it. *)
Definition eslintEngine : RuleEngine :=
  BaseEslintEngine.asRuleEngine eslintStrategy 2.

(** A file system with the directory [/r], which holds one archive and one
    text file. *)
Definition disk : CustomRulePathManager.FileHandler :=
  {| CustomRulePathManager.stats := fun p =>
       if String.eqb p "/r"
       then Some {| CustomRulePathManager.isFile := false;
                    CustomRulePathManager.isDirectory := true |}
       else if String.eqb p "/r/MyRules.jar" || String.eqb p "/r/notes.txt"
       then Some {| CustomRulePathManager.isFile := true;
                    CustomRulePathManager.isDirectory := false |}
       else None;
     CustomRulePathManager.readDir := fun p =>
       if String.eqb p "/r" then ["MyRules.jar"; "notes.txt"] else [];
     CustomRulePathManager.mkdirIfNotExists := fun _ => None;
     CustomRulePathManager.writeFile := fun _ _ => None |}.

(** A parser that knows the empty document only. *)
Definition parseEmptyDocument (data : string)
    : Outcome CustomRulePathManager.RulePathJson :=
  if String.eqb data "{}" then Return []
  else Throw (SyntaxError "Unexpected token in JSON").

Definition quote (s : string) : string :=
  let mark := ascii_of_nat 34 in
  String mark s +:+ String mark EmptyString.

Definition join (items : list string) : string :=
  match items with
  | [] => ""
  | item :: items' => fold_left (fun acc x => acc +:+ "," +:+ x) items' item
  end.

(** The document on one line. *)
Definition render (json : CustomRulePathManager.RulePathJson) : string :=
  "{"
  +:+ join (map (fun '(engine, byLanguage) =>
                   quote engine +:+ ":{"
                   +:+ join (map (fun '(language, paths) =>
                                    quote language +:+ ":["
                                    +:+ join (map quote paths) +:+ "]")
                               (byLanguage : list (string * list string)))
                   +:+ "}")
              json)
  +:+ "}".

Definition resolve (directory file : string) : string :=
  directory +:+ "/" +:+ file.

Definition scannerPath : string := "/home/me/.sfdx-scanner".
Definition customPathsFile : string := "/home/me/.sfdx-scanner/CustomPaths.json".

(** The manager before its first use, the persisted file missing. *)
Definition fresh : CustomRulePathManager.State :=
  CustomRulePathManager.init
    (CustomRulePathManager.Rejected "ENOENT" "no such file or directory").

(** The manager before its first use, next to a file of two spaces and a
    line feed. *)
Definition blankFile : CustomRulePathManager.State :=
  CustomRulePathManager.init
    (CustomRulePathManager.Content
       (String " " (String " " (String (ascii_of_nat 10) EmptyString)))).

(** The operations of a manager over the given engines. *)
Definition add (engines : list RuleEngine) :=
  CustomRulePathManager.addPathsForLanguage engines disk parseEmptyDocument
    render resolve scannerPath customPathsFile.

Definition matching (engines : list RuleEngine) :=
  CustomRulePathManager.getMatchingPaths engines disk parseEmptyDocument
    resolve.

Definition remove (engines : list RuleEngine) :=
  CustomRulePathManager.removePathsForLanguage engines disk
    parseEmptyDocument render resolve scannerPath customPathsFile.

(** The dependencies of a run: an engine that reports nothing. *)
Definition dependencies : BaseEslintEngine.StaticDependencies :=
  {| BaseEslintEngine.resolveTargetPath := fun target => "/work/" +:+ target;
     BaseEslintEngine.getCurrentWorkingDirectory := "/work";
     BaseEslintEngine.createCLIEngine := fun _ =>
       {| BaseEslintEngine.executeOnFiles := fun files =>
            Return (map (fun file => {| filePath := file; messages := [] |})
                      files);
          BaseEslintEngine.getRules := ∅ |} |}.

(** The text of an [env] engine option that turns [jest] off. *)
Definition envOption : string := "{" +:+ quote "jest" +:+ ":false}".

Definition parseEnv (text : string) : Outcome LooseObject :=
  if String.eqb text envOption then Return {[ "jest" := JsBoolean false ]}
  else Throw (SyntaxError "Unexpected token in JSON").

Definition someTargets : list RuleTarget :=
  [ {| target := "docs"; isDirectory := true; paths := ["docs/readme.md"] |};
    {| target := "src"; isDirectory := true;
       paths := ["src/a.js"; "src/b.ts"] |} ].

(** The environment of the only invocation that a run makes. *)
Definition envOfRun (rules : list Rule) (engineOptions : gmap string string)
    : option LooseObject :=
  match snd (BaseEslintEngine.run eslintStrategy dependencies parseEnv []
               rules someTargets engineOptions []) with
  | [inv] =>
      match BaseEslintEngine.baseConfig (BaseEslintEngine.invokedWith inv) with
      | Some b => BaseEslintEngine.env b
      | None => None
      end
  | _ => None
  end.

(** ... and the value of a key in it. *)
Definition envOfRunAt (rules : list Rule) (engineOptions : gmap string string)
    (key : string) : option (option JsValue) :=
  (fun env : LooseObject => env !! key) <$> envOfRun rules engineOptions.



(** The document of a registry that holds the archive of [/r] for Apex
    under the PMD engine. *)
Definition savedDocument : CustomRulePathManager.RulePathJson :=
  [("pmd", [("apex", ["/r/MyRules.jar"])])].

(** A registry in which the language [b] was added before the language
    [1]. *)
Definition unorderedRegistry : CustomRulePathManager.RulePathMap :=
  [(CustomRulePathManager.KeyString "pmd",
    [("b", ["/r/MyRules.jar"]); ("1", ["/r/MyRules.jar"])])].

(** A parser that knows that document and the empty one. *)
Definition parseSaved (data : string)
    : Outcome CustomRulePathManager.RulePathJson :=
  if String.eqb data (render savedDocument) then Return savedDocument
  else parseEmptyDocument data.

(** The manager after the archives of [/r] have been added for Apex. *)
Definition afterAdd : CustomRulePathManager.State :=
  snd (CustomRulePathManager.addPathsForLanguage [jarEngine] disk parseSaved
         render resolve scannerPath customPathsFile "apex" ["/r"] fresh).


(** The rules of an engine, one of them deprecated. *)
Definition someEsRules : Map string ESRule :=
  [ ("no-eval",
     {| meta := {| docs := {| doc_description := "disallow eval()";
                              doc_category := "Best Practices";
                              doc_url := "https://eslint.org/docs/rules/no-eval" |};
                   deprecated := false |} |});
    ("no-spaced-func",
     {| meta := {| docs := {| doc_description := "disallow spacing";
                              doc_category := "Stylistic Issues";
                              doc_url :=
                                "https://eslint.org/docs/rules/no-spaced-func" |};
                   deprecated := true |} |});
    ("semi",
     {| meta := {| docs := {| doc_description := "require semicolons";
                              doc_category := "Stylistic Issues";
                              doc_url := "https://eslint.org/docs/rules/semi" |};
                   deprecated := false |} |}) ].

(** Engine options whose [env] is no JSON text. *)
Definition badEnvOptions : gmap string string := {[ "env" := "jest" ]}.

End Examples.

(* ================================================================== *)
(** ** Facts about strings *)
(* ================================================================== *)

Lemma append_String (c : ascii) (p rest : string) :
  String c p +:+ rest = String c (p +:+ rest).
Proof. reflexivity. Qed.

Lemma prefix_iff_app (p s : string) :
  String.prefix p s = true <-> exists rest, s = p +:+ rest.
Proof.
  revert s. induction p as [|c p IH]; intros s.
  - simpl. split; [intros _; exists s; reflexivity | destruct s; reflexivity].
  - destruct s as [|d s]; simpl.
    + split; [discriminate | intros [rest H]; discriminate].
    + setoid_rewrite append_String.
      destruct (ascii_dec c d) as [->|Hne].
      * rewrite IH. split; intros [rest H]; exists rest; congruence.
      * split; [discriminate | intros [rest H]; congruence].
Qed.

(** [endsWith] says that the string is the suffix after something. *)
Lemma length_append (s1 s2 : string) :
  String.length (s1 +:+ s2) = String.length s1 + String.length s2.
Proof. induction s1 as [|c s1 IH]; [reflexivity |].
  rewrite append_String. simpl. rewrite IH. reflexivity.
Qed.

Lemma substring_all (s : string) : substring 0 (String.length s) s = s.
Proof. induction s as [|c s IH]; simpl; [reflexivity | rewrite IH; reflexivity]. Qed.

Lemma substring_append (pre s : string) (n : nat) :
  substring (String.length pre) n (pre +:+ s) = substring 0 n s.
Proof.
  induction pre as [|c pre IH]; [reflexivity |].
  rewrite append_String. simpl. exact IH.
Qed.

Lemma substring_split (n : nat) (s : string) :
  n <= String.length s ->
  s = substring 0 n s +:+ substring n (String.length s - n) s.
Proof.
  revert s. induction n as [|n IH]; intros s Hn.
  - rewrite Nat.sub_0_r, substring_all. destruct s; reflexivity.
  - destruct s as [|c s]; simpl in *; [lia |].
    rewrite append_String. f_equal. apply IH. lia.
Qed.

Lemma endsWith_iff (s search : string) :
  endsWith s search = true <-> exists pre, s = pre +:+ search.
Proof.
  unfold endsWith. split.
  - destruct (Nat.leb_spec (String.length search) (String.length s)) as [Hle|Hlt];
      [| discriminate].
    rewrite String.eqb_eq. intros H.
    exists (substring 0 (String.length s - String.length search) s).
    etransitivity;
      [apply (substring_split (String.length s - String.length search) s); lia |].
    f_equal.
    replace (String.length s - (String.length s - String.length search))
      with (String.length search) by lia.
    exact H.
  - intros [pre ->]. rewrite length_append.
    destruct (Nat.leb_spec (String.length search)
                (String.length pre + String.length search)) as [_|Hlt]; [| lia].
    replace (String.length pre + String.length search - String.length search)
      with (String.length pre) by lia.
    rewrite substring_append, substring_all. apply String.eqb_refl.
Qed.

(** [trim] leaves nothing exactly of a text of white space. *)
Lemma blank_String (c : ascii) (s : string) :
  blank (String c s) <-> isWhiteSpace c = true /\ blank s.
Proof. unfold blank. simpl. apply List.Forall_cons_iff. Qed.

Lemma blank_rev_app (s1 s2 : string) :
  blank (String.rev_app s1 s2) <-> blank s1 /\ blank s2.
Proof.
  revert s2. induction s1 as [|c s1 IH]; intros s2; simpl.
  - split; [intros H; split; [constructor | exact H] | tauto].
  - rewrite IH, !blank_String. tauto.
Qed.

Lemma blank_rev (s : string) : blank (String.rev s) <-> blank s.
Proof.
  unfold String.rev. rewrite blank_rev_app.
  split; [tauto | intros H; split; [exact H | constructor]].
Qed.

Lemma rev_app_empty (s1 s2 : string) :
  String.rev_app s1 s2 = "" -> s1 = "" /\ s2 = "".
Proof.
  revert s2. induction s1 as [|c s1 IH]; intros s2; simpl; [auto |].
  intros H. apply IH in H. destruct H as [_ H]. discriminate.
Qed.

Lemma rev_empty (s : string) : String.rev s = "" -> s = "".
Proof. intros H. apply rev_app_empty in H. tauto. Qed.

Lemma trimStart_empty_iff (s : string) : trimStart s = "" <-> blank s.
Proof.
  induction s as [|c s IH]; simpl.
  - split; [constructor | reflexivity].
  - rewrite blank_String. destruct (isWhiteSpace c).
    + rewrite IH. tauto.
    + split; [discriminate | intros [H _]; discriminate].
Qed.

Lemma trimStart_blank (s : string) : blank (trimStart s) -> trimStart s = "".
Proof.
  induction s as [|c s IH]; simpl; [reflexivity |].
  destruct (isWhiteSpace c) eqn:E; [exact IH |].
  rewrite blank_String. intros [H _]. congruence.
Qed.

Lemma trim_empty_iff (s : string) : trim s = "" <-> blank s.
Proof.
  unfold trim, trimEnd. split.
  - intros H. apply rev_empty in H. apply trimStart_empty_iff in H.
    apply (proj1 (blank_rev _)) in H. apply trimStart_blank in H.
    apply trimStart_empty_iff. exact H.
  - intros H. apply trimStart_empty_iff in H. rewrite H. reflexivity.
Qed.

Lemma indexOfFrom_eq (from : Z) (s search : string) :
  indexOfFrom from s search =
  if String.prefix search s then from
  else match s with
       | EmptyString => (-1)%Z
       | String _ s' => indexOfFrom (from + 1)%Z s' search
       end.
Proof. destruct s; reflexivity. Qed.

Lemma indexOfFrom_range (from : Z) (s search : string) :
  indexOfFrom from s search = (-1)%Z \/ (from <= indexOfFrom from s search)%Z.
Proof.
  revert from. induction s as [|c s IH]; intros from;
    rewrite indexOfFrom_eq; destruct (String.prefix search _).
  - right; lia.
  - left; reflexivity.
  - right; lia.
  - destruct (IH (from + 1)%Z) as [H|H]; [left; exact H | right; lia].
Qed.

Lemma indexOf_zero_iff (s search : string) :
  indexOf s search = 0%Z <-> String.prefix search s = true.
Proof.
  unfold indexOf. rewrite indexOfFrom_eq.
  destruct (String.prefix search s); [tauto |].
  split; [| discriminate]. destruct s as [|c s]; [discriminate |].
  intros H. destruct (indexOfFrom_range (0 + 1) s search) as [H'|H']; lia.
Qed.

Lemma arrayIndexOfFrom_range (from : Z) (items : list ESRuleConfigValue)
    (search : string) :
  arrayIndexOfFrom from items search = (-1)%Z
  \/ (from <= arrayIndexOfFrom from items search)%Z.
Proof.
  revert from. induction items as [|[s|j] items IH]; intros from; simpl.
  - left; reflexivity.
  - destruct (String.eqb s search); [right; lia |].
    destruct (IH (from + 1)%Z) as [H|H]; [left; exact H | right; lia].
  - destruct (IH (from + 1)%Z) as [H|H]; [left; exact H | right; lia].
Qed.

Lemma arrayIndexOf_zero_iff (items : list ESRuleConfigValue) (search : string) :
  arrayIndexOfFrom 0 items search = 0%Z
  <-> exists rest, items = StringValue search :: rest.
Proof.
  destruct items as [|[s|j] items]; simpl.
  - split; [discriminate | intros [rest H]; discriminate].
  - destruct (String.eqb_spec s search) as [->|Hne].
    + split; [intros _; eexists; reflexivity | reflexivity].
    + split.
      * intros H.
        destruct (arrayIndexOfFrom_range (0 + 1) items search) as [H'|H']; lia.
      * intros [rest H]. congruence.
  - split.
    + intros H.
      destruct (arrayIndexOfFrom_range (0 + 1) items search) as [H'|H']; lia.
    + intros [rest H]. discriminate.
Qed.

(** [config.indexOf(search) === 0] says that [config] begins with
    [search]. *)
Lemma configIndexOf_zero_iff (config : ESRuleConfig) (search : string) :
  (configIndexOf config search =? 0)%Z = true <-> beginsWith search config.
Proof.
  rewrite Z.eqb_eq. destruct config as [s|items]; simpl.
  - rewrite indexOf_zero_iff. apply prefix_iff_app.
  - apply arrayIndexOf_zero_iff.
Qed.

Lemma truthy_false_iff (config : ESRuleConfig) :
  truthy config = false <-> config = ConfigString "".
Proof.
  destruct config as [s|items]; simpl.
  - rewrite negb_false_iff, String.eqb_eq. split; congruence.
  - split; discriminate.
Qed.

(* ================================================================== *)
(** ** EslintCommons: default status and configuration *)
(* ================================================================== *)

Section DefaultStatus.

Import EslintCommons EslintCommons.EslintStrategyHelper.

Variable recommendedConfig : RecommendedConfig.
Variable ruleName : string.

Local Abbreviation entry := (rules recommendedConfig !! ruleName).

Lemma getDefaultStatus_entry :
  getDefaultStatus recommendedConfig ruleName =
  match entry with
  | None => if inherited ruleName then Throw NOT_A_FUNCTION else Return None
  | Some c =>
      if negb (truthy c) then Return None
      else if (configIndexOf c "off" =? 0)%Z
           then Return (Some DISABLED) else Return (Some ENABLED)
  end.
Proof.
  unfold getDefaultStatus, getProperty.
  destruct entry; [| destruct (inherited ruleName)]; reflexivity.
Qed.

Lemma getDefaultConfig_entry :
  getDefaultConfig recommendedConfig ruleName =
  match entry with
  | None => if inherited ruleName then Throw NOT_A_FUNCTION else Return None
  | Some c =>
      if negb (truthy c) || (configIndexOf c "off" =? 0)%Z
      then Return None else Return (Some c)
  end.
Proof.
  unfold getDefaultConfig, getProperty.
  destruct entry; [| destruct (inherited ruleName)]; reflexivity.
Qed.


(** Outside these conditions the two methods depart from each other in
    nothing, and from the above as follows: an empty entry counts as no
    entry, and a name that every object inherits, without an entry of its
    own, makes both throw. *)
Lemma getDefaultStatus_getDefaultConfig_otherwise :
  (entry = Some (ConfigString "") ->
   getDefaultStatus recommendedConfig ruleName = Return None
   /\ getDefaultConfig recommendedConfig ruleName = Return None)
  /\ (entry = None -> inherited ruleName = true ->
      getDefaultStatus recommendedConfig ruleName = Throw NOT_A_FUNCTION
      /\ getDefaultConfig recommendedConfig ruleName = Throw NOT_A_FUNCTION).
Proof.
  rewrite getDefaultStatus_entry, getDefaultConfig_entry.
  split.
  - intros ->. split; reflexivity.
  - intros -> ->. split; reflexivity.
Qed.

(** What [getDefaultConfig] returns as a configuration is truthy and does
    not begin with 'off'. *)
Lemma getDefaultConfig_truthy (c : ESRuleConfig) :
  getDefaultConfig recommendedConfig ruleName = Return (Some c) ->
  entry = Some c /\ c <> ConfigString "" /\ ~ beginsWith "off" c.
Proof.
  rewrite getDefaultConfig_entry.
  destruct entry as [c'|]; [| destruct (inherited ruleName); discriminate].
  pose proof (truthy_false_iff c') as Ht.
  pose proof (configIndexOf_zero_iff c' "off") as Hoff.
  destruct (truthy c'); simpl; [| discriminate].
  destruct (configIndexOf c' "off" =? 0)%Z; [discriminate |].
  intros [= <-]. split; [reflexivity |]. split.
  - intros E. apply Ht in E. discriminate.
  - intros Hb. apply Hoff in Hb. discriminate.
Qed.

End DefaultStatus.


Example getDefaultStatus_typical :
  EslintCommons.EslintStrategyHelper.getDefaultStatus Examples.typicalConfig
    "no-eval" = Return (Some EslintCommons.ENABLED)
  /\ EslintCommons.EslintStrategyHelper.getDefaultStatus
       Examples.typicalConfig "no-console"
     = Return (Some EslintCommons.DISABLED)
  /\ EslintCommons.EslintStrategyHelper.getDefaultStatus
       Examples.typicalConfig "indent" = Return (Some EslintCommons.ENABLED)
  /\ EslintCommons.EslintStrategyHelper.getDefaultStatus
       Examples.typicalConfig "semi" = Return None
  /\ EslintCommons.EslintStrategyHelper.getDefaultStatus
       Examples.typicalConfig "constructor"
     = Throw EslintCommons.EslintStrategyHelper.NOT_A_FUNCTION
  /\ EslintCommons.EslintStrategyHelper.getDefaultConfig
       Examples.typicalConfig "indent"
     = Return (Some (ConfigArray [StringValue "warn"; OtherValue "4"]))
  /\ EslintCommons.EslintStrategyHelper.getDefaultConfig
       Examples.typicalConfig "no-console" = Return None
  /\ EslintCommons.EslintStrategyHelper.getDefaultConfig
       Examples.emptyEntryConfig "no-eval" = Return None.
Proof. vm_compute. repeat split. Qed.

(* ================================================================== *)
(** ** CustomRulePathManager: the expansion of patterns *)
(* ================================================================== *)

Section Expansion.

Import CustomRulePathManager.

Variable fileHandler : FileHandler.
Variable path_resolve : string -> string -> string.

Local Abbreviation expandPathsFrom := (expandPathsFrom fileHandler path_resolve).
Local Abbreviation expandPaths := (expandPaths fileHandler path_resolve).
Local Abbreviation contribution := (Spec.contribution fileHandler path_resolve).

(** The loop over the entries of a directory pushes the resolved archives,
    in the order of the listing. *)
Lemma directory_loop (p : string) (files classpathEntries : list string) :
  fold_left
    (fun classpathEntries file =>
       if endsWith file ".jar"
       then classpathEntries ++ [path_resolve p file]
       else classpathEntries)
    files classpathEntries
  = classpathEntries
    ++ map (path_resolve p) (List.filter (fun file => endsWith file ".jar") files).
Proof.
  revert classpathEntries.
  induction files as [|file files IH]; intros acc; simpl.
  - rewrite app_nil_r. reflexivity.
  - rewrite IH. destruct (endsWith file ".jar"); simpl.
    + rewrite <- app_assoc. reflexivity.
    + reflexivity.
Qed.

(** One step of the loop over the patterns. *)
Lemma expandPathsFrom_cons (acc : list string) (p : string) (paths : list string) :
  expandPathsFrom acc (p :: paths) =
  match stats fileHandler p with
  | None => Throw (InvalidPathError p)
  | Some _ => expandPathsFrom (acc ++ contribution p) paths
  end.
Proof.
  simpl. unfold Spec.contribution. destruct (stats fileHandler p) as [st|]; [| reflexivity].
  destruct (isFile st).
  - destruct (endsWith p ".jar"); [reflexivity | rewrite app_nil_r; reflexivity].
  - destruct (isDirectory st).
    + rewrite directory_loop. reflexivity.
    + rewrite app_nil_r. reflexivity.
Qed.

(** The entries pushed so far stay in front of the result. *)
Lemma expandPathsFrom_acc (acc paths : list string) :
  expandPathsFrom acc paths =
  match expandPathsFrom [] paths with
  | Return entries => Return (acc ++ entries)
  | Throw e => Throw e
  end.
Proof.
  revert acc. induction paths as [|p paths IH]; intros acc.
  - simpl. rewrite app_nil_r. reflexivity.
  - rewrite !expandPathsFrom_cons. destruct (stats fileHandler p); [| reflexivity].
    rewrite (IH (acc ++ contribution p)), (IH ([] ++ contribution p)).
    destruct (expandPathsFrom [] paths); [| reflexivity].
    simpl. rewrite app_assoc. reflexivity.
Qed.

Lemma expandPaths_cons (p : string) (paths : list string) :
  expandPaths (p :: paths) =
  match stats fileHandler p with
  | None => Throw (InvalidPathError p)
  | Some _ =>
      match expandPaths paths with
      | Return entries => Return (contribution p ++ entries)
      | Throw e => Throw e
      end
  end.
Proof.
  unfold CustomRulePathManager.expandPaths. rewrite expandPathsFrom_cons.
  destruct (stats fileHandler p); [| reflexivity].
  apply expandPathsFrom_acc.
Qed.

(** The outcome of the expansion, in full: it throws at the first pattern
    at which there is nothing, naming it; when every pattern exists it
    returns the contributions of the patterns, in order. *)
Lemma expandPaths_outcome (paths : list string) :
  match expandPaths paths with
  | Throw e =>
      exists before p after,
        paths = before ++ p :: after
        /\ Forall (fun q => stats fileHandler q <> None) before
        /\ stats fileHandler p = None
        /\ e = InvalidPathError p
  | Return entries =>
      Forall (fun q => stats fileHandler q <> None) paths
      /\ entries = concat (map contribution paths)
  end.
Proof.
  induction paths as [|p paths IH].
  - simpl. split; [constructor | reflexivity].
  - rewrite expandPaths_cons. destruct (stats fileHandler p) as [st|] eqn:Estats.
    + destruct (expandPaths paths) as [entries|e].
      * destruct IH as [Hall ->]. split; [| reflexivity].
        constructor; [congruence | exact Hall].
      * destruct IH as (before & q & after & -> & Hall & Hq & ->).
        exists (p :: before), q, after. repeat split; try assumption.
        constructor; [congruence | exact Hall].
    + exists [], p, paths. repeat split; [constructor | assumption].
Qed.

(** C5.  The expansion throws the invalid-path error if and only if there
    is nothing at some pattern, and the error names such a pattern; it
    throws nothing else; and otherwise it returns what the patterns
    contribute, in order: an existing file is kept only with the
    recognised extension and is dropped without an error otherwise, and a
    directory gives only its own listed entries with that extension, each
    resolved against the directory. *)
Theorem expandPaths_spec (paths : list string) :
  ((exists p, expandPaths paths = Throw (InvalidPathError p))
   <-> exists p, In p paths /\ stats fileHandler p = None)
  /\ match expandPaths paths with
     | Throw e =>
         exists p, e = InvalidPathError p /\ In p paths
                   /\ stats fileHandler p = None
     | Return entries => entries = concat (map contribution paths)
     end.
Proof.
  pose proof (expandPaths_outcome paths) as H.
  destruct (expandPaths paths) as [entries|e].
  - destruct H as [Hall ->]. split; [| reflexivity]. split.
    + intros [p Hp]. discriminate.
    + intros (p & Hin & Hp). rewrite List.Forall_forall in Hall.
      destruct (Hall p Hin Hp).
  - destruct H as (before & p & after & -> & Hall & Hp & ->).
    assert (Hin : In p (before ++ p :: after)).
    { apply in_or_app. right. left. reflexivity. }
    split; [split |]; eauto.
Qed.

(** An existing file without the recognised extension adds nothing, and an
    existing directory adds exactly its listed archives. *)
Lemma contribution_cases (p : string) (st : Stats) :
  stats fileHandler p = Some st ->
  (isFile st = true -> endsWith p ".jar" = false -> contribution p = [])
  /\ (isFile st = true -> endsWith p ".jar" = true -> contribution p = [p])
  /\ (isFile st = false -> isDirectory st = true ->
      contribution p =
      map (path_resolve p)
        (List.filter (fun file => endsWith file ".jar") (readDir fileHandler p))).
Proof.
  intros E. unfold Spec.contribution. rewrite E.
  repeat split; intros; repeat match goal with H : _ = _ |- _ => rewrite H end;
    reflexivity.
Qed.

End Expansion.

(* ================================================================== *)
(** ** CustomRulePathManager: loading the persisted registry *)
(* ================================================================== *)

Lemma bind_unfold {S A B} (c : StateOutcome S A) (k : A -> StateOutcome S B)
    (st : S) :
  (c ≫= k) st =
  match c st with
  | (Return a, st') => k a st'
  | (Throw e, st') => (Throw e, st')
  end.
Proof. reflexivity. Qed.

(** Unfolds the plumbing of the state monad. *)
Ltac monad_simpl :=
  cbv [mbind StateOutcome_bind mret StateOutcome_ret getState lift
       throw tryCatch CustomRulePathManager.setPaths
       CustomRulePathManager.setInitialized CustomRulePathManager.setFile];
  simpl.

Section Loading.

Import CustomRulePathManager.

Variable engines : list RuleEngine.
Variable fileHandler : FileHandler.
Variable JSON_parse : string -> Outcome RulePathJson.
Variable JSON_stringify : RulePathJson -> string.
Variable path_resolve : string -> string -> string.
Variable SFDX_SCANNER_PATH : string.
Variable filePath : string.

Local Abbreviation initialize := (initialize JSON_parse).
Local Abbreviation expandPaths := (expandPaths fileHandler path_resolve).
Local Abbreviation addPathsForLanguage :=
  (addPathsForLanguage engines fileHandler JSON_parse JSON_stringify
     path_resolve SFDX_SCANNER_PATH filePath).
Local Abbreviation getMatchingPaths :=
  (getMatchingPaths engines fileHandler JSON_parse path_resolve).
Local Abbreviation removePathsForLanguage :=
  (removePathsForLanguage engines fileHandler JSON_parse JSON_stringify
     path_resolve SFDX_SCANNER_PATH filePath).
Local Abbreviation getRulePathEntries := (getRulePathEntries JSON_parse).
Local Abbreviation asEmpty :=
  (Spec.asEmpty engines fileHandler JSON_parse JSON_stringify path_resolve
     SFDX_SCANNER_PATH filePath).
Local Abbreviation fatal :=
  (Spec.fatal engines fileHandler JSON_parse JSON_stringify path_resolve
     SFDX_SCANNER_PATH filePath).

(** Initialisation is guarded: it does nothing the second time. *)
Lemma initialize_again (st : State) :
  initialized st = true -> initialize st = (Return tt, st).
Proof.
  intros H. unfold CustomRulePathManager.initialize.
  rewrite bind_unfold. simpl. rewrite H. reflexivity.
Qed.

(** What the first initialisation does, by what reading the file gives. *)
Lemma initialize_first (st : State) :
  initialized st = false ->
  initialize st =
  match customRulePathFile st with
  | Rejected code message =>
      if String.eqb code "ENOENT"
      then match JSON_parse EMPTY_JSON_FILE with
           | Return json =>
               (Return tt,
                {| initialized := true;
                   pathsByLanguageByEngine := convertJsonDataToMap json;
                   customRulePathFile := customRulePathFile st |})
           | Throw e => (Throw e, st)
           end
      else (Throw (SfdxError "errors.readCustomRulePathFileFailed" [message]), st)
  | Content data =>
      match JSON_parse (if String.eqb "" (trim data)
                        then EMPTY_JSON_FILE else data) with
      | Return json =>
          (Return tt,
           {| initialized := true;
              pathsByLanguageByEngine := convertJsonDataToMap json;
              customRulePathFile := customRulePathFile st |})
      | Throw e => (Throw e, st)
      end
  end.
Proof.
  destruct st as [i m file]. simpl. intros ->.
  unfold CustomRulePathManager.initialize.
  rewrite bind_unfold. simpl.
  destruct file as [data|code message].
  - rewrite bind_unfold. simpl. unfold lift.
    rewrite bind_unfold.
    destruct (JSON_parse _); reflexivity.
  - destruct (String.eqb code "ENOENT"); [| reflexivity].
    rewrite bind_unfold. simpl. rewrite bind_unfold. unfold lift.
    change (String.eqb "" (trim EMPTY_JSON_FILE)) with false. cbv iota.
    destruct (JSON_parse EMPTY_JSON_FILE); reflexivity.
Qed.

(** An operation that starts by initialising. *)
Lemma after_initialize {A} (rest : M A) (st st' : State) :
  initialize st = (Return tt, st') ->
  initialized st' = true ->
  (initialize;; rest) st = rest st'
  /\ (initialize;; rest) st' = rest st'.
Proof.
  intros H H'. split.
  - change ((initialize;; rest) st) with ((initialize ≫= fun _ => rest) st).
    rewrite bind_unfold, H. reflexivity.
  - change ((initialize;; rest) st') with ((initialize ≫= fun _ => rest) st').
    rewrite bind_unfold, (initialize_again st' H'). reflexivity.
Qed.

Lemma initialize_fatal {A} (rest : M A) (st : State) (e : Error) :
  initialize st = (Throw e, st) -> (initialize;; rest) st = (Throw e, st).
Proof.
  intros H.
  change ((initialize;; rest) st) with ((initialize ≫= fun _ => rest) st).
  rewrite bind_unfold, H. reflexivity.
Qed.

Lemma isMatchingPath_empty (language p : string) :
  isMatchingPath engines [] language p = false.
Proof. reflexivity. Qed.

Lemma filter_false {A} (f : A -> bool) (l : list A) :
  (forall x, f x = false) -> List.filter f l = [].
Proof.
  intros H. induction l as [|x l IH]; simpl; [reflexivity |].
  rewrite H. exact IH.
Qed.

Lemma asEmpty_intro (st : State) :
  initialize st = (Return tt, emptyRegistry st) -> asEmpty st.
Proof.
  intros H. assert (H' : initialized (emptyRegistry st) = true) by reflexivity.
  split; [exact H |].
  split; [| split; [| split]].
  - intros language paths.
    destruct (after_initialize
                (classpathEntries ← lift (expandPaths paths);
                 forEach (addEntry engines language) classpathEntries;;
                 saveCustomClasspaths fileHandler JSON_parse JSON_stringify
                   SFDX_SCANNER_PATH filePath;;
                 mret classpathEntries) _ _ H H') as [E1 E2].
    unfold CustomRulePathManager.addPathsForLanguage.
    rewrite E1, E2. reflexivity.
  - intros language paths.
    destruct (after_initialize
                (expandedPaths ← lift (expandPaths paths);
                 st ← getState;
                 mret (List.filter
                         (isMatchingPath engines (pathsByLanguageByEngine st)
                            language) expandedPaths)) _ _ H H') as [E1 E2].
    unfold CustomRulePathManager.getMatchingPaths.
    rewrite E1, E2. split; [reflexivity |].
    rewrite bind_unfold. unfold lift.
    destruct (expandPaths paths) as [entries|e]; [| reflexivity].
    rewrite bind_unfold. simpl. unfold mret, StateOutcome_ret.
    rewrite filter_false; [reflexivity | intros; apply isMatchingPath_empty].
  - intros language paths.
    pose (rest :=
            (expandedPaths ← lift (expandPaths paths);
             st ← getState;
             let '(map, deletedPaths) :=
               fold_left (fun acc p => removeEntry engines language p acc)
                 expandedPaths (pathsByLanguageByEngine st, []) in
             setPaths map;;
             saveCustomClasspaths fileHandler JSON_parse JSON_stringify
               SFDX_SCANNER_PATH filePath;;
             mret deletedPaths) : M (list string)).
    destruct (after_initialize rest _ _ H H') as [E1 E2].
    unfold CustomRulePathManager.removePathsForLanguage.
    fold rest. rewrite E1, E2. reflexivity.
  - intros engine.
    pose (rest :=
            (st ← getState;
             match mapGet (KeyString engine) (pathsByLanguageByEngine st) with
             | None => mret []
             | Some entries => mret entries
             end) : M RulePathEntry).
    destruct (after_initialize rest _ _ H H') as [E1 E2].
    unfold CustomRulePathManager.getRulePathEntries.
    fold rest. rewrite E1. reflexivity.
Qed.

Lemma fatal_intro (st : State) (e : Error) :
  initialize st = (Throw e, st) -> fatal st e.
Proof.
  intros H. split; [exact H |].
  repeat split; intros; apply initialize_fatal; exact H.
Qed.

(** [JSON.parse('{}')] is the object without properties. *)
Hypothesis parse_empty : JSON_parse EMPTY_JSON_FILE = Return [].

(** C4.  On first use, when reading the persisted file fails with ENOENT or
    gives only white space, initialisation succeeds with the empty
    registry and every operation behaves as on the empty registry (so
    [getRulePathEntries] returns the empty mapping and [getMatchingPaths]
    the empty list whenever the patterns expand); any other failure to
    read is fatal, reported with the message of the failure; and when
    [JSON.parse] throws on the content, what it throws propagates. *)
Theorem initialize_spec (st : State) :
  initialized st = false ->
  (missingOrBlank (customRulePathFile st) -> asEmpty st)
  /\ (forall code message,
        customRulePathFile st = Rejected code message ->
        code <> "ENOENT" ->
        fatal st (SfdxError "errors.readCustomRulePathFileFailed" [message]))
  /\ (forall data e,
        customRulePathFile st = Content data ->
        ~ blank data ->
        JSON_parse data = Throw e ->
        fatal st e).
Proof.
  intros Hinit. pose proof (initialize_first st Hinit) as H.
  split; [| split].
  - intros Hfile. apply asEmpty_intro. rewrite H.
    unfold missingOrBlank in Hfile.
    destruct (customRulePathFile st) as [data|code message] eqn:E.
    + apply trim_empty_iff in Hfile. rewrite Hfile. simpl.
      rewrite parse_empty. simpl.
      unfold emptyRegistry. rewrite E. reflexivity.
    + subst code. simpl. rewrite parse_empty. simpl.
      unfold emptyRegistry. rewrite E. reflexivity.
  - intros code message E Hcode. apply fatal_intro. rewrite H, E.
    destruct (String.eqb_spec code "ENOENT"); [contradiction | reflexivity].
  - intros data e E Hblank Hparse. apply fatal_intro. rewrite H, E.
    destruct (String.eqb_spec "" (trim data)) as [Heq|_].
    { destruct Hblank. apply trim_empty_iff. congruence. }
    rewrite Hparse. reflexivity.
Qed.

End Loading.

(** At a missing file, and at a file of white space, the registry is the
    empty one. *)
Lemma initialize_spec_witness :
  Spec.asEmpty [Examples.jarEngine] Examples.disk Examples.parseEmptyDocument
    Examples.render Examples.resolve Examples.scannerPath
    Examples.customPathsFile Examples.fresh
  /\ Spec.asEmpty [Examples.jarEngine] Examples.disk
       Examples.parseEmptyDocument Examples.render Examples.resolve
       Examples.scannerPath Examples.customPathsFile Examples.blankFile.
Proof.
  split.
  - apply (initialize_spec [Examples.jarEngine] Examples.disk
             Examples.parseEmptyDocument Examples.render Examples.resolve
             Examples.scannerPath Examples.customPathsFile eq_refl
             Examples.fresh eq_refl).
    reflexivity.
  - apply (initialize_spec [Examples.jarEngine] Examples.disk
             Examples.parseEmptyDocument Examples.render Examples.resolve
             Examples.scannerPath Examples.customPathsFile eq_refl
             Examples.blankFile eq_refl).
    repeat constructor.
Defined.

(* ================================================================== *)
(** ** Facts about Map and Set *)
(* ================================================================== *)

Section MapFacts.

Context {K : Type} `{EqDecision K} {V : Type}.
Implicit Types (k : K) (v : V) (m : Map K V).

Lemma mapGet_mapSet_eq k v m : mapGet k (mapSet k v m) = Some v.
Proof.
  induction m as [|[k' v'] m IH]; simpl.
  - destruct (decide (k = k)); [reflexivity | contradiction].
  - destruct (decide (k' = k)) as [->|Hne]; simpl.
    + destruct (decide (k = k)); [reflexivity | contradiction].
    + destruct (decide (k' = k)); [contradiction | exact IH].
Qed.

Lemma mapGet_mapSet_ne k k' v m :
  k <> k' -> mapGet k' (mapSet k v m) = mapGet k' m.
Proof.
  intros Hne. induction m as [|[k0 v0] m IH]; simpl.
  - destruct (decide (k = k')); [contradiction | reflexivity].
  - destruct (decide (k0 = k)) as [->|Hne0]; simpl.
    + destruct (decide (k = k')); [contradiction | reflexivity].
    + destruct (decide (k0 = k')); [reflexivity | exact IH].
Qed.

(** Setting a key to the value it has changes nothing. *)
Lemma mapSet_same k v m : mapGet k m = Some v -> mapSet k v m = m.
Proof.
  induction m as [|[k' v'] m IH]; simpl; [discriminate |].
  destruct (decide (k' = k)) as [->|Hne].
  - intros [= ->]. reflexivity.
  - intros H. rewrite (IH H). reflexivity.
Qed.

Lemma mapHas_true k m : mapHas k m = true <-> exists v, mapGet k m = Some v.
Proof.
  unfold mapHas. destruct (mapGet k m) as [v|].
  - split; [eauto | reflexivity].
  - split; [discriminate | intros [v Hv]; discriminate].
Qed.

Lemma mapHas_false k m : mapHas k m = false <-> mapGet k m = None.
Proof.
  unfold mapHas. destruct (mapGet k m); split; congruence.
Qed.

Lemma mapGet_In k v m : mapGet k m = Some v -> In k (mapKeys m).
Proof.
  induction m as [|[k' v'] m IH]; simpl; [discriminate |].
  destruct (decide (k' = k)); [left; assumption | right; auto].
Qed.

Lemma mapGet_not_In k m : ~ In k (mapKeys m) -> mapGet k m = None.
Proof.
  intros Hn. destruct (mapGet k m) as [v|] eqn:E; [| reflexivity].
  destruct Hn. exact (mapGet_In _ _ _ E).
Qed.

(** [set] adds at most its own key. *)
Lemma mapKeys_mapSet k k' v m :
  In k' (mapKeys (mapSet k v m)) <-> k' = k \/ In k' (mapKeys m).
Proof.
  induction m as [|[k0 v0] m IH]; simpl.
  - intuition congruence.
  - destruct (decide (k0 = k)) as [->|Hne]; simpl.
    + intuition congruence.
    + rewrite IH. intuition congruence.
Qed.

End MapFacts.

Section SetFacts.

Context {A : Type} `{EqDecision A}.
Implicit Types (x y : A) (s : Set_ A).

Lemma setHas_In x s : setHas x s = true <-> In x s.
Proof.
  unfold setHas. rewrite existsb_exists. split.
  - intros (y & Hy & E). apply bool_decide_eq_true in E. subst. exact Hy.
  - intros Hx. exists x. split; [exact Hx | apply bool_decide_eq_true; reflexivity].
Qed.

(** Adding an element that is there changes nothing. *)
Lemma setAdd_present x s : setHas x s = true -> setAdd x s = s.
Proof. intros Hx. unfold setAdd. rewrite Hx. reflexivity. Qed.

Lemma setHas_setAdd x y s :
  setHas x (setAdd y s) = true <-> x = y \/ setHas x s = true.
Proof.
  unfold setAdd. destruct (setHas y s) eqn:Ey.
  - split; [auto |]. intros [->|Hx]; assumption.
  - rewrite !setHas_In, in_app_iff. simpl. intuition congruence.
Qed.

Lemma setFrom_singleton x : setFrom [x] = [x].
Proof. reflexivity. Qed.

End SetFacts.

(* ================================================================== *)
(** ** CustomRulePathManager: adding paths *)
(* ================================================================== *)

Section Insertion.

Import CustomRulePathManager Registry.

Implicit Types (m : RulePathMap) (name language entry : string).

(** After the callback the entry is stored. *)
Lemma insertPath_stored name language entry m :
  stored name language entry (insertPath name language entry m).
Proof.
  unfold insertPath, stored.
  set (m1 := if negb (mapHas (KeyString name) m)
             then mapSet (KeyString name) [] m else m).
  assert (Hm1 : exists byLanguage, mapGet (KeyString name) m1 = Some byLanguage).
  { subst m1. destruct (mapHas (KeyString name) m) eqn:Ehas; simpl.
    - apply mapHas_true. exact Ehas.
    - eexists. apply mapGet_mapSet_eq. }
  destruct Hm1 as [byLanguage Hby]. rewrite Hby.
  destruct (mapHas language byLanguage) eqn:Elang; simpl.
  - apply mapHas_true in Elang. destruct Elang as [paths Hpaths].
    rewrite Hpaths. do 2 eexists. rewrite !mapGet_mapSet_eq.
    repeat split. apply setHas_setAdd. left. reflexivity.
  - do 2 eexists. rewrite !mapGet_mapSet_eq. repeat split.
    rewrite setFrom_singleton. apply setHas_In. left. reflexivity.
Qed.

(** Inserting a path that is stored changes nothing. *)
Lemma insertPath_present name language entry m :
  stored name language entry m -> insertPath name language entry m = m.
Proof.
  intros (byLanguage & paths & Hby & Hpaths & Hentry). unfold insertPath.
  assert (Hhas : mapHas (KeyString name) m = true) by (apply mapHas_true; eauto).
  rewrite Hhas. simpl. rewrite Hby.
  assert (Hlang : mapHas language byLanguage = true) by (apply mapHas_true; eauto).
  rewrite Hlang. simpl. rewrite Hpaths.
  rewrite (setAdd_present _ _ Hentry).
  rewrite (mapSet_same _ _ _ Hpaths). apply mapSet_same. exact Hby.
Qed.

(** What is stored stays stored. *)
Lemma insertPath_keeps name language entry name' language' entry' m :
  stored name' language' entry' m ->
  stored name' language' entry' (insertPath name language entry m).
Proof.
  intros (byLanguage' & paths' & Hby' & Hpaths' & Hentry').
  destruct (decide (name = name')) as [<-|Hname].
  - assert (Hhas : mapHas (KeyString name) m = true) by (apply mapHas_true; eauto).
    unfold insertPath. rewrite Hhas. simpl. rewrite Hby'.
    destruct (decide (language = language')) as [<-|Hlang].
    + assert (Hl : mapHas language byLanguage' = true) by (apply mapHas_true; eauto).
      rewrite Hl. simpl. rewrite Hpaths'.
      do 2 eexists. rewrite !mapGet_mapSet_eq. repeat split.
      apply setHas_setAdd. right. exact Hentry'.
    + destruct (mapHas language byLanguage') eqn:El; simpl.
      * apply mapHas_true in El. destruct El as [paths Hpaths]. rewrite Hpaths.
        do 2 eexists. rewrite mapGet_mapSet_eq.
        rewrite mapGet_mapSet_ne by exact Hlang. eauto.
      * do 2 eexists. rewrite mapGet_mapSet_eq.
        rewrite mapGet_mapSet_ne by exact Hlang. eauto.
  - assert (Hk : KeyString name <> KeyString name') by congruence.
    unfold insertPath.
    set (m1 := if negb (mapHas (KeyString name) m)
               then mapSet (KeyString name) [] m else m).
    assert (Hm1 : mapGet (KeyString name') m1 = Some byLanguage').
    { subst m1. destruct (negb (mapHas (KeyString name) m)); [| exact Hby'].
      rewrite mapGet_mapSet_ne by exact Hk. exact Hby'. }
    destruct (mapGet (KeyString name) m1) as [byLanguage|];
      [| exists byLanguage', paths'; auto].
    destruct (negb (mapHas language byLanguage)).
    + exists byLanguage', paths'. rewrite mapGet_mapSet_ne by exact Hk. auto.
    + destruct (mapGet language byLanguage) as [paths|].
      * exists byLanguage', paths'. rewrite mapGet_mapSet_ne by exact Hk. auto.
      * exists byLanguage', paths'. auto.
Qed.

(** The callback adds no key but the name of the engine. *)
Lemma insertPath_keys name language entry m (k : Key) :
  In k (mapKeys (insertPath name language entry m)) ->
  k = KeyString name \/ In k (mapKeys m).
Proof.
  unfold insertPath.
  set (m1 := if negb (mapHas (KeyString name) m)
             then mapSet (KeyString name) [] m else m).
  assert (Hm1 : In k (mapKeys m1) -> k = KeyString name \/ In k (mapKeys m)).
  { subst m1. destruct (negb (mapHas (KeyString name) m)); [| auto].
    apply mapKeys_mapSet. }
  destruct (mapGet (KeyString name) m1) as [byLanguage|]; [| exact Hm1].
  destruct (negb (mapHas language byLanguage)).
  - rewrite mapKeys_mapSet. intuition.
  - destruct (mapGet language byLanguage); [| exact Hm1].
    rewrite mapKeys_mapSet. intuition.
Qed.

End Insertion.

Section AddPaths.

Import CustomRulePathManager Registry.

Variable engines : list RuleEngine.
Variable fileHandler : FileHandler.
Variable JSON_parse : string -> Outcome RulePathJson.
Variable JSON_stringify : RulePathJson -> string.
Variable path_resolve : string -> string -> string.
Variable SFDX_SCANNER_PATH : string.
Variable filePath : string.

Local Abbreviation determineEngineForPath := (determineEngineForPath engines).
Local Abbreviation addEntry := (addEntry engines).
Local Abbreviation initialize := (initialize JSON_parse).
Local Abbreviation expandPaths := (expandPaths fileHandler path_resolve).
Local Abbreviation saveCustomClasspaths :=
  (saveCustomClasspaths fileHandler JSON_parse JSON_stringify
     SFDX_SCANNER_PATH filePath).
Local Abbreviation addPathsForLanguage :=
  (addPathsForLanguage engines fileHandler JSON_parse JSON_stringify
     path_resolve SFDX_SCANNER_PATH filePath).

Implicit Types (st : State) (language entry : string).

(** With no engine for the entry the callback throws at [getName]. *)
Lemma addEntry_unattributed language entry st :
  determineEngineForPath entry = None ->
  addEntry language entry st
  = (Throw (TypeError "Cannot read properties of undefined (reading 'getName')"),
     st).
Proof.
  intros H. unfold CustomRulePathManager.addEntry.
  rewrite bind_unfold, H. reflexivity.
Qed.

(** With an engine for the entry the callback inserts the path under the
    name of that engine. *)
Lemma addEntry_attributed language entry st (e : RuleEngine) :
  determineEngineForPath entry = Some e ->
  addEntry language entry st
  = (Return tt,
     withPaths (insertPath (getName e) language entry
                  (pathsByLanguageByEngine st)) st).
Proof.
  intros H. destruct st as [i m file].
  unfold CustomRulePathManager.addEntry, insertPath, withPaths, getOrThrow.
  rewrite H. monad_simpl.
  destruct (mapHas (KeyString (getName e)) m) eqn:Ehas; simpl.
  - apply mapHas_true in Ehas. destruct Ehas as [byLanguage Hby].
    rewrite Hby.
    destruct (mapHas language byLanguage) eqn:Elang; simpl; [| reflexivity].
    apply mapHas_true in Elang. destruct Elang as [paths Hpaths].
    rewrite Hpaths. reflexivity.
  - rewrite !mapGet_mapSet_eq. reflexivity.
Qed.

(** The callback leaves the guard and the file alone. *)
Lemma addEntry_frame language entry st r st' :
  addEntry language entry st = (r, st') ->
  initialized st' = initialized st
  /\ customRulePathFile st' = customRulePathFile st.
Proof.
  destruct (determineEngineForPath entry) as [e|] eqn:E.
  - rewrite (addEntry_attributed _ _ _ _ E). intros [= <- <-]. auto.
  - rewrite (addEntry_unattributed _ _ _ E). intros [= <- <-]. auto.
Qed.

(** [entry] needs no insertion in [st]: it has no engine, or it is stored
    under the name of its engine. *)
Local Abbreviation settled language st entry :=
  (forall e, determineEngineForPath entry = Some e ->
             stored (getName e) language entry (pathsByLanguageByEngine st)).

Lemma addEntry_settles language entry st st' :
  addEntry language entry st = (Return tt, st') ->
  settled language st' entry
  /\ forall entry', settled language st entry' -> settled language st' entry'.
Proof.
  destruct (determineEngineForPath entry) as [e|] eqn:E.
  - rewrite (addEntry_attributed _ _ _ _ E). intros [= <-]. simpl. split.
    + intros e' [= <-]. apply insertPath_stored.
    + intros entry' H e' E'. apply insertPath_keeps. exact (H e' E').
  - rewrite (addEntry_unattributed _ _ _ E). discriminate.
Qed.

Lemma addEntry_settled language entry st (e : RuleEngine) :
  determineEngineForPath entry = Some e ->
  settled language st entry ->
  addEntry language entry st = (Return tt, st).
Proof.
  intros E H. rewrite (addEntry_attributed _ _ _ _ E).
  rewrite (insertPath_present _ _ _ _ (H e E)).
  destruct st; reflexivity.
Qed.

Lemma forEach_cons {A} (f : A -> M unit) (x : A) (l : list A) st :
  forEach f (x :: l) st =
  match f x st with
  | (Return _, st') => forEach f l st'
  | (Throw e, st') => (Throw e, st')
  end.
Proof. reflexivity. Qed.

(** What is settled stays settled through the loop. *)
Lemma forEach_addEntry_keeps language entries st r st' entry' :
  forEach (addEntry language) entries st = (r, st') ->
  settled language st entry' -> settled language st' entry'.
Proof.
  revert st. induction entries as [|entry entries IH]; intros st.
  - intros [= <- <-]. auto.
  - rewrite forEach_cons.
    destruct (addEntry language entry st) as [[[]|err] st1] eqn:E.
    + intros Hrun Hs. apply (IH st1 Hrun).
      apply (addEntry_settles _ _ _ _ E). exact Hs.
    + destruct (determineEngineForPath entry) as [e|] eqn:Ee.
      * rewrite (addEntry_attributed _ _ _ _ Ee) in E. discriminate.
      * rewrite (addEntry_unattributed _ _ _ Ee) in E.
        injection E as <- <-. intros [= <- <-]. auto.
Qed.

(** Running the loop again, from any state in which the entries that the
    first run settled are settled, gives the same outcome and changes
    nothing. *)
Lemma forEach_addEntry_again language entries st r st' (st2 : State) :
  forEach (addEntry language) entries st = (r, st') ->
  (forall entry, settled language st' entry -> settled language st2 entry) ->
  forEach (addEntry language) entries st2 = (r, st2).
Proof.
  revert st. induction entries as [|entry entries IH]; intros st.
  - intros [= <- <-] _. reflexivity.
  - rewrite !forEach_cons.
    destruct (determineEngineForPath entry) as [e|] eqn:Ee.
    + rewrite (addEntry_attributed _ _ _ _ Ee).
      intros Hrun Hsub.
      assert (Hs2 : settled language st2 entry).
      { apply Hsub. apply (forEach_addEntry_keeps _ _ _ _ _ _ Hrun).
        simpl. intros e' He'. rewrite Ee in He'. injection He' as <-.
        apply insertPath_stored. }
      rewrite (addEntry_settled _ _ _ _ Ee Hs2).
      exact (IH _ Hrun Hsub).
    + rewrite !(addEntry_unattributed _ _ _ Ee). intros [= <- <-] _. reflexivity.
Qed.

Lemma forEach_addEntry_frame language entries st r st' :
  forEach (addEntry language) entries st = (r, st') ->
  initialized st' = initialized st
  /\ customRulePathFile st' = customRulePathFile st.
Proof.
  revert st. induction entries as [|entry entries IH]; intros st.
  - intros [= <- <-]. auto.
  - rewrite forEach_cons.
    destruct (addEntry language entry st) as [[[]|err] st1] eqn:E;
      destruct (addEntry_frame _ _ _ _ _ E) as [Hi Hf].
    + intros Hrun. destruct (IH _ Hrun). split; congruence.
    + intros [= <- <-]. auto.
Qed.

(** The operation, step by step. *)
Lemma addPathsForLanguage_unfold language paths st :
  addPathsForLanguage language paths st =
  match initialize st with
  | (Throw e, st0) => (Throw e, st0)
  | (Return _, st0) =>
      match expandPaths paths with
      | Throw e => (Throw e, st0)
      | Return classpathEntries =>
          match forEach (addEntry language) classpathEntries st0 with
          | (Throw e, st1) => (Throw e, st1)
          | (Return _, st1) =>
              match saveCustomClasspaths st1 with
              | (Throw e, st2) => (Throw e, st2)
              | (Return _, st2) => (Return classpathEntries, st2)
              end
          end
      end
  end.
Proof.
  unfold CustomRulePathManager.addPathsForLanguage.
  rewrite bind_unfold. destruct (initialize st) as [[[]|e] st0]; [| reflexivity].
  rewrite bind_unfold. unfold lift.
  destruct (expandPaths paths) as [entries|e]; [| reflexivity].
  rewrite bind_unfold.
  destruct (forEach (addEntry language) entries st0) as [[[]|e] st1];
    [| reflexivity].
  rewrite bind_unfold.
  destruct (saveCustomClasspaths st1) as [[[]|e] st2]; reflexivity.
Qed.

(** Initialisation returns with the guard set, or throws and changes
    nothing. *)
Lemma initialize_cases st :
  (exists st0, initialize st = (Return tt, st0) /\ initialized st0 = true)
  \/ (exists e, initialize st = (Throw e, st)).
Proof.
  destruct (initialized st) eqn:Ei.
  - left. exists st. split; [apply initialize_again; exact Ei | exact Ei].
  - rewrite (initialize_first JSON_parse st Ei).
    destruct (customRulePathFile st) as [data|code message].
    + destruct (JSON_parse _); [left | right]; eauto.
    + destruct (String.eqb code "ENOENT"); [| right; eauto].
      destruct (JSON_parse _); [left | right]; eauto.
Qed.

(** Saving from an initialised manager: the outcome depends on the map
    alone, and the file is the only field that may change. *)
Lemma saveCustomClasspaths_initialized st :
  initialized st = true ->
  saveCustomClasspaths st =
  match convertMapToJson (pathsByLanguageByEngine st) with
  | Throw e =>
      (Throw (SfdxError "errors.writeCustomRulePathFileFailed"
                [Messages.messageOf e]), st)
  | Return json =>
      match mkdirIfNotExists fileHandler SFDX_SCANNER_PATH with
      | Some message =>
          (Throw (SfdxError "errors.writeCustomRulePathFileFailed" [message]),
           st)
      | None =>
          match writeFile fileHandler filePath (JSON_stringify json) with
          | Some message =>
              (Throw (SfdxError "errors.writeCustomRulePathFileFailed"
                        [message]), st)
          | None =>
              (Return tt,
               {| initialized := initialized st;
                  pathsByLanguageByEngine := pathsByLanguageByEngine st;
                  customRulePathFile := Content (JSON_stringify json) |})
          end
      end
  end.
Proof.
  intros Hi. unfold CustomRulePathManager.saveCustomClasspaths.
  rewrite bind_unfold, (initialize_again JSON_parse st Hi).
  monad_simpl.
  destruct (convertMapToJson (pathsByLanguageByEngine st)); [| reflexivity].
  destruct (mkdirIfNotExists fileHandler SFDX_SCANNER_PATH); [reflexivity |].
  destruct (writeFile fileHandler filePath _); reflexivity.
Qed.

(** Saving twice is saving once. *)
Lemma saveCustomClasspaths_again st r st' :
  initialized st = true ->
  saveCustomClasspaths st = (r, st') ->
  initialized st' = true
  /\ pathsByLanguageByEngine st' = pathsByLanguageByEngine st
  /\ saveCustomClasspaths st' = (r, st').
Proof.
  intros Hi. rewrite (saveCustomClasspaths_initialized st Hi).
  destruct (convertMapToJson (pathsByLanguageByEngine st)) as [json|e] eqn:Ej.
  2:{ intros [= <- <-]. repeat split; [exact Hi |].
      rewrite (saveCustomClasspaths_initialized st Hi), Ej. reflexivity. }
  destruct (mkdirIfNotExists fileHandler SFDX_SCANNER_PATH) eqn:Em.
  { intros [= <- <-]. repeat split; [exact Hi |].
    rewrite (saveCustomClasspaths_initialized st Hi), Ej, Em. reflexivity. }
  destruct (writeFile fileHandler filePath (JSON_stringify json)) eqn:Ew.
  { intros [= <- <-]. repeat split; [exact Hi |].
    rewrite (saveCustomClasspaths_initialized st Hi), Ej, Em, Ew. reflexivity. }
  intros [= <- <-]. simpl. repeat split; [exact Hi |].
  rewrite saveCustomClasspaths_initialized by exact Hi.
  simpl. rewrite Ej, Em, Ew. reflexivity.
Qed.

(** The operation run from where it stopped gives the same outcome and
    changes nothing. *)
Lemma addPathsForLanguage_again language paths st r st' :
  addPathsForLanguage language paths st = (r, st') ->
  addPathsForLanguage language paths st' = (r, st').
Proof.
  rewrite (addPathsForLanguage_unfold language paths st).
  destruct (initialize_cases st) as [(st0 & Hinit & Hi0)|(e & Hinit)];
    rewrite Hinit.
  2:{ intros [= <- <-]. rewrite addPathsForLanguage_unfold, Hinit. reflexivity. }
  destruct (expandPaths paths) as [entries|e] eqn:Eexp.
  2:{ intros [= <- <-]. rewrite addPathsForLanguage_unfold.
      rewrite (initialize_again JSON_parse st0 Hi0), Eexp. reflexivity. }
  destruct (forEach (addEntry language) entries st0) as [[[]|e] st1] eqn:Eloop.
  2:{ intros [= <- <-]. rewrite addPathsForLanguage_unfold.
      destruct (forEach_addEntry_frame _ _ _ _ _ Eloop) as [Hi1 _].
      rewrite initialize_again by congruence. rewrite Eexp.
      rewrite (forEach_addEntry_again _ _ _ _ _ st1 Eloop); auto. }
  destruct (forEach_addEntry_frame _ _ _ _ _ Eloop) as [Hi1 _].
  assert (Hi1' : initialized st1 = true) by congruence.
  destruct (saveCustomClasspaths st1) as [rs st2] eqn:Esave.
  destruct (saveCustomClasspaths_again _ _ _ Hi1' Esave) as (Hi2 & Hmap & Hsave).
  assert (Hloop2 : forEach (addEntry language) entries st2 = (Return tt, st2)).
  { apply (forEach_addEntry_again _ _ _ _ _ st2 Eloop).
    intros entry H. rewrite Hmap. exact H. }
  intros Hres.
  assert (Hst : st' = st2) by (destruct rs as [[]|e]; congruence). subst st'.
  rewrite addPathsForLanguage_unfold.
  rewrite (initialize_again JSON_parse st2 Hi2), Eexp, Hloop2, Hsave.
  destruct rs as [[]|e]; injection Hres as <-; reflexivity.
Qed.

(** C8.  Calling [addPathsForLanguage] a second time with the same
    arguments gives the same outcome and leaves the manager, its registry
    and the persisted file as the first call left them, so that the
    document derived from the registry is the same; and the callback run
    on a path that is stored under its engine and language changes
    nothing. *)
Theorem addPathsForLanguage_idempotent language paths st :
  let once := addPathsForLanguage language paths st in
  let twice := addPathsForLanguage language paths (snd once) in
  twice = once
  /\ pathsByLanguageByEngine (snd twice) = pathsByLanguageByEngine (snd once)
  /\ customRulePathFile (snd twice) = customRulePathFile (snd once)
  /\ convertMapToJson (pathsByLanguageByEngine (snd twice))
     = convertMapToJson (pathsByLanguageByEngine (snd once))
  /\ forall entry e st',
       determineEngineForPath entry = Some e ->
       stored (getName e) language entry (pathsByLanguageByEngine st') ->
       addEntry language entry st' = (Return tt, st').
Proof.
  cbv zeta.
  destruct (addPathsForLanguage language paths st) as [r st1] eqn:E. simpl.
  rewrite (addPathsForLanguage_again _ _ _ _ _ E). simpl.
  repeat split.
  intros entry e st' He Hstored. apply (addEntry_settled _ _ _ e He).
  intros e' He'. rewrite He in He'. injection He' as <-. exact Hstored.
Qed.

(** The engine found for a path is registered and owns the path. *)
Lemma determineEngineForPath_Some entry (e : RuleEngine) :
  determineEngineForPath entry = Some e ->
  In e engines /\ matchPath e entry = true.
Proof. apply find_some. Qed.

(** Every key that the loop adds is the name of the engine found for one
    of the entries. *)
Lemma forEach_addEntry_keys language entries st r st' (k : Key) :
  forEach (addEntry language) entries st = (r, st') ->
  In k (mapKeys (pathsByLanguageByEngine st')) ->
  In k (mapKeys (pathsByLanguageByEngine st))
  \/ exists e entry,
       In entry entries /\ determineEngineForPath entry = Some e
       /\ k = KeyString (getName e).
Proof.
  revert st. induction entries as [|entry entries IH]; intros st.
  - intros [= <- <-]. auto.
  - rewrite forEach_cons.
    destruct (determineEngineForPath entry) as [e|] eqn:Ee.
    + rewrite (addEntry_attributed _ _ _ _ Ee). intros Hrun Hk.
      destruct (IH _ Hrun Hk) as [Hin|(e' & entry' & Hin & He' & ->)].
      * simpl in Hin. apply insertPath_keys in Hin. destruct Hin as [->|Hin].
        -- right. exists e, entry. simpl. auto.
        -- left. exact Hin.
      * right. exists e', entry'. simpl. auto.
    + rewrite (addEntry_unattributed _ _ _ Ee). intros [= <- <-]. auto.
Qed.

(** The keys of the registry after [addPathsForLanguage]: those that
    initialisation loaded, and names of engines found for some path. *)
Lemma addPathsForLanguage_keys language paths st (k : Key) :
  In k (mapKeys (pathsByLanguageByEngine
                   (snd (addPathsForLanguage language paths st)))) ->
  In k (mapKeys (pathsByLanguageByEngine (snd (initialize st))))
  \/ exists e entry,
       determineEngineForPath entry = Some e /\ k = KeyString (getName e).
Proof.
  rewrite addPathsForLanguage_unfold.
  destruct (initialize_cases st) as [(st0 & Hinit & Hi0)|(e & Hinit)];
    rewrite Hinit; simpl; [| auto].
  destruct (expandPaths paths) as [entries|e]; simpl; [| auto].
  destruct (forEach (addEntry language) entries st0) as [r st1] eqn:Eloop.
  destruct (forEach_addEntry_frame _ _ _ _ _ Eloop) as [Hi1 _].
  assert (Hi1' : initialized st1 = true) by congruence.
  assert (Hkeys : In k (mapKeys (pathsByLanguageByEngine st1)) ->
                  In k (mapKeys (pathsByLanguageByEngine st0))
                  \/ exists e entry,
                       determineEngineForPath entry = Some e
                       /\ k = KeyString (getName e)).
  { intros Hk. destruct (forEach_addEntry_keys _ _ _ _ _ _ Eloop Hk)
      as [H|(e & entry & _ & He & ->)]; [auto | right; eauto]. }
  destruct r as [[]|e]; simpl; [| exact Hkeys].
  destruct (saveCustomClasspaths st1) as [rs st2] eqn:Esave.
  destruct (saveCustomClasspaths_again _ _ _ Hi1' Esave) as (_ & Hmap & _).
  destruct rs as [[]|e]; simpl; rewrite Hmap; exact Hkeys.
Qed.

End AddPaths.

(* ================================================================== *)
(** ** BaseEslintEngine: ownership of paths *)
(* ================================================================== *)

Section EslintOwnership.

Import CustomRulePathManager.

Variable strategy : BaseEslintEngine.EslintStrategy.

(** An engine of the ESLint family, as the registry holds it. *)
Local Abbreviation eslint id := (BaseEslintEngine.asRuleEngine strategy id).

(** C9.  [matchPath] of the ESLint base engine is false for every path; so
    [determineEngineForPath] never answers with an engine of the ESLint
    family, and every key that [addPathsForLanguage] adds to the registry is
    the name of an engine that owns some path, which no engine of the
    ESLint family is. *)
Theorem eslint_owns_no_path :
  (forall path, BaseEslintEngine.matchPath path = false)
  /\ (forall id path, matchPath (eslint id) path = false)
  /\ (forall engines path id,
        determineEngineForPath engines path <> Some (eslint id))
  /\ (forall engines fileHandler JSON_parse JSON_stringify path_resolve
             SFDX_SCANNER_PATH filePath language paths st k,
        In k (mapKeys
                (pathsByLanguageByEngine
                   (snd (addPathsForLanguage engines fileHandler JSON_parse
                           JSON_stringify path_resolve SFDX_SCANNER_PATH
                           filePath language paths st)))) ->
        In k (mapKeys (pathsByLanguageByEngine (snd (initialize JSON_parse st))))
        \/ exists e entry,
             In e engines /\ matchPath e entry = true
             /\ k = KeyString (getName e)
             /\ forall id, e <> eslint id).
Proof.
  split; [reflexivity |]. split; [reflexivity |]. split.
  - intros engines path id H.
    apply determineEngineForPath_Some in H. destruct H as [_ H]. discriminate.
  - intros engines fileHandler JSON_parse JSON_stringify path_resolve
      SFDX_SCANNER_PATH filePath language paths st k Hk.
    apply addPathsForLanguage_keys in Hk.
    destruct Hk as [Hk|(e & entry & He & ->)]; [left; exact Hk | right].
    apply determineEngineForPath_Some in He. destruct He as [Hin Hmatch].
    exists e, entry. repeat split; try assumption.
    intros id ->. discriminate.
Qed.

End EslintOwnership.

(* ================================================================== *)
(** ** BaseEslintEngine: the configured rules *)
(* ================================================================== *)

Section ConfiguredRules.

Import BaseEslintEngine.

Local Abbreviation step :=
  (fun (configuredRules : RulesObject) (rule : Rule) =>
     setProperty (name rule)
       (orElse (defaultConfig rule) (ConfigString "error")) configuredRules).

(** The own properties after an assignment, on an object that has no own
    property [__proto__]. *)
Lemma setProperty_lookup (key : string) (value : ESRuleConfig)
    (o : RulesObject) (ruleName : string) :
  properties o !! "__proto__" = None ->
  properties (setProperty key value o) !! ruleName =
  if String.eqb key "__proto__" then properties o !! ruleName
  else if String.eqb key ruleName then Some value
  else properties o !! ruleName.
Proof.
  intros Hproto. unfold setProperty.
  destruct (String.eqb_spec key "__proto__") as [->|Hkey].
  - rewrite Hproto. destruct value; reflexivity.
  - destruct (String.eqb_spec key ruleName) as [->|Hne].
    + destruct (properties o !! ruleName); simpl; apply lookup_insert_eq.
    + destruct (properties o !! key); simpl; apply lookup_insert_ne; exact Hne.
Qed.

Lemma configure_lookup (rules : list Rule) (configuredRules : RulesObject)
    (ruleName : string) :
  properties configuredRules !! "__proto__" = None ->
  properties (fold_left step rules configuredRules) !! ruleName =
  if String.eqb ruleName "__proto__" then None
  else match lastNamed ruleName rules with
       | Some rule => Some (orElse (defaultConfig rule) (ConfigString "error"))
       | None => properties configuredRules !! ruleName
       end.
Proof.
  revert configuredRules.
  induction rules as [|rule rules IH]; intros acc Hproto; simpl.
  - destruct (String.eqb_spec ruleName "__proto__") as [->|_];
      [exact Hproto | reflexivity].
  - rewrite IH.
    2:{ rewrite setProperty_lookup by exact Hproto.
        destruct (String.eqb_spec (name rule) "__proto__"); exact Hproto. }
    destruct (String.eqb_spec ruleName "__proto__") as [E|Hne];
      [reflexivity |].
    destruct (lastNamed ruleName rules) as [rule'|]; [reflexivity |].
    rewrite setProperty_lookup by exact Hproto.
    destruct (String.eqb_spec (name rule) ruleName) as [E|Hne'].
    + rewrite E. destruct (String.eqb_spec ruleName "__proto__");
        [contradiction | reflexivity].
    + destruct (String.eqb (name rule) "__proto__"); reflexivity.
Qed.

(** The value that [configureRules] gives a name: none to [__proto__],
    and to another name that of the last rule that bears it. *)
Lemma configureRules_lookup (rules : list Rule) (ruleName : string) :
  properties (configureRules rules) !! ruleName =
  if String.eqb ruleName "__proto__" then None
  else (fun rule => orElse (defaultConfig rule) (ConfigString "error"))
         <$> lastNamed ruleName rules.
Proof.
  unfold configureRules. rewrite configure_lookup by apply lookup_empty.
  destruct (String.eqb ruleName "__proto__"); [reflexivity |].
  destruct (lastNamed ruleName rules); [reflexivity | apply lookup_empty].
Qed.

Lemma lastNamed_In (rules : list Rule) (rule : Rule) :
  In rule rules -> exists rule', lastNamed (name rule) rules = Some rule'.
Proof.
  induction rules as [|r rules IH]; simpl; [tauto |].
  intros [->|Hin].
  - destruct (lastNamed (name rule) rules); [eauto |].
    rewrite String.eqb_refl. eauto.
  - destruct (IH Hin) as [rule' ->]. eauto.
Qed.

Lemma lastNamed_Some (rules : list Rule) (ruleName : string) (rule : Rule) :
  lastNamed ruleName rules = Some rule -> In rule rules /\ name rule = ruleName.
Proof.
  induction rules as [|r rules IH]; simpl; [discriminate |].
  destruct (lastNamed ruleName rules) as [rule'|].
  - intros [= <-]. destruct (IH eq_refl). auto.
  - destruct (String.eqb_spec (name r) ruleName); [| discriminate].
    intros [= <-]. auto.
Qed.


(** The configured rules are empty exactly when every rule, if there is
    one, is called [__proto__]. *)
Lemma configureRules_empty_iff (rules : list Rule) :
  size (properties (configureRules rules)) = 0
  <-> Forall (fun rule => name rule = "__proto__") rules.
Proof.
  rewrite map_size_empty_iff, map_empty. split.
  - intros H. apply List.Forall_forall. intros rule Hin.
    destruct (String.eqb_spec (name rule) "__proto__") as [E|Hne];
      [exact E |].
    specialize (H (name rule)). rewrite configureRules_lookup in H.
    rewrite (proj2 (String.eqb_neq _ _)) in H by exact Hne.
    destruct (lastNamed_In rules rule Hin) as [rule' E].
    rewrite E in H. discriminate.
  - intros H ruleName. rewrite configureRules_lookup.
    destruct (String.eqb ruleName "__proto__") eqn:E; [reflexivity |].
    destruct (lastNamed ruleName rules) as [rule|] eqn:El; [| reflexivity].
    apply lastNamed_Some in El. destruct El as [Hin Hname].
    rewrite List.Forall_forall in H. rewrite (H _ Hin) in Hname.
    subst ruleName. discriminate.
Qed.

Lemma configureRules_nonempty (rules : list Rule) :
  Exists (fun rule => name rule <> "__proto__") rules ->
  (size (properties (configureRules rules)) =? 0)%nat = false.
Proof.
  intros H. apply Nat.eqb_neq. intros E.
  apply configureRules_empty_iff in E.
  apply List.Exists_exists in H. destruct H as (rule & Hin & Hne).
  rewrite List.Forall_forall in E. exact (Hne (E _ Hin)).
Qed.

End ConfiguredRules.

Lemma orElse_effectiveConfig (rule : Rule) :
  BaseEslintEngine.orElse (defaultConfig rule) (ConfigString "error")
  = effectiveConfig rule.
Proof.
  unfold BaseEslintEngine.orElse, effectiveConfig.
  destruct (defaultConfig rule) as [c|]; [| reflexivity].
  pose proof (truthy_false_iff c) as H.
  destruct (truthy c); case_bool_decide; try reflexivity.
  - destruct H as [_ H]. specialize (H ltac:(assumption)). discriminate.
  - destruct H as [H _]. specialize (H eq_refl). contradiction.
Qed.

(* ================================================================== *)
(** ** BaseEslintEngine: run *)
(* ================================================================== *)

Lemma spread_lookup {V} (target source : gmap string V) (key : string) :
  spread target source !! key =
  match source !! key with
  | Some v => Some v
  | None => target !! key
  end.
Proof.
  unfold spread. rewrite lookup_union.
  destruct (source !! key), (target !! key); reflexivity.
Qed.

Section Run.

Import BaseEslintEngine.

Variable strategy : EslintStrategy.
Variable baseDependencies : StaticDependencies.
Variable JSON_parse : string -> Outcome LooseObject.

Local Abbreviation mergeEnv := (mergeEnv JSON_parse).
Local Abbreviation runTargets := (runTargets strategy baseDependencies JSON_parse).
Local Abbreviation run := (run strategy baseDependencies JSON_parse).
Local Abbreviation userOverride := (userOverride JSON_parse).

(** The environment that a configuration has before the merge. *)
Local Abbreviation envBefore config :=
  (match baseConfig config with
   | Some b => default ∅ (env b)
   | None => ∅
   end).

(** The merge throws what parsing the override throws, and otherwise sets
    [baseConfig.env] by precedence and nothing else. *)
Lemma mergeEnv_spec (config : Config) (engineOptions : gmap string string) :
  match mergeEnv config engineOptions with
  | Throw e => userOverride engineOptions = Throw e
  | Return config' =>
      exists envOverride merged rest,
        userOverride engineOptions = Return envOverride
        /\ baseConfig config' = Some {| env := Some merged; baseConfigRest := rest |}
        /\ (forall key,
              merged !! key
              = precedence envOverride (envBefore config) DEFAULT_ENV_VARS key)
        /\ cwd config' = cwd config
        /\ rules config' = rules config
        /\ configRest config' = configRest config
  end.
Proof.
  unfold BaseEslintEngine.mergeEnv, Spec.userOverride.
  destruct (match engineOptions !! ENV with
            | Some text => JSON_parse text
            | None => Return ∅
            end) as [envOverride|e]; [| reflexivity].
  do 3 eexists. split; [reflexivity |]. split; [reflexivity |].
  split; [| auto].
  intros key. unfold precedence. rewrite !spread_lookup, lookup_empty.
  destruct (DEFAULT_ENV_VARS !! key);
    destruct (baseConfig config) as [b|]; reflexivity.
Qed.

(** An invocation whose environment is the merge of the three sources. *)
Local Abbreviation merged engineOptions :=
  (fun inv : Invocation =>
     exists envOverride env' rest,
       userOverride engineOptions = Return envOverride
       /\ baseConfig (invokedWith inv)
          = Some {| env := Some env'; baseConfigRest := rest |}
       /\ forall key,
            env' !! key
            = precedence envOverride
                (runConfigEnv (getRunConfig strategy engineOptions))
                DEFAULT_ENV_VARS key).

Lemma runTargets_invocations (configuredRules : RulesObject)
    (engineOptions : gmap string string) (targets : list RuleTarget)
    (results : list RuleResult) (log : list Invocation) :
  exists invocations,
    snd (runTargets configuredRules engineOptions targets results log)
    = log ++ invocations
    /\ Forall (merged engineOptions) invocations.
Proof.
  revert results log. induction targets as [|tgt targets IH]; intros results log.
  - exists []. simpl. rewrite app_nil_r. auto.
  - simpl.
    destruct (length (filterUnsupportedPaths strategy (paths tgt)) =? 0)%nat;
      [apply IH |].
    rewrite bind_unfold. unfold lift.
    match goal with
    | |- context [mergeEnv ?c engineOptions] =>
        pose proof (mergeEnv_spec c engineOptions) as Hm;
        destruct (mergeEnv c engineOptions) as [config'|e]
    end.
    2:{ exists []. simpl. rewrite app_nil_r. auto. }
    destruct Hm as (envOverride & env' & rest & Ho & Hb & Henv & _).
    assert (Hinv : merged engineOptions
                     {| invokedWith := config';
                        invokedOn := filterUnsupportedPaths strategy (paths tgt) |}).
    { exists envOverride, env', rest. simpl. repeat split; try assumption.
      intros key. rewrite Henv. simpl. unfold runConfigEnv.
      destruct (run_baseConfig (getRunConfig strategy engineOptions));
        reflexivity. }
    rewrite bind_unfold. unfold invoke at 1.
    destruct (executeOnFiles (createCLIEngine baseDependencies config') _)
      as [report|e].
    + match goal with
      | |- context [runTargets _ _ _ ?r ?l] =>
          destruct (IH r l) as (invocations & Hlog & Hall)
      end.
      eexists (_ :: invocations). rewrite Hlog, <- app_assoc. simpl.
      split; [reflexivity |]. constructor; assumption.
    + eexists [_]. simpl. split; [reflexivity |]. constructor; auto.
Qed.

(** C6.  Every invocation of the underlying engine that [run] makes has a
    [baseConfig.env] in which, for every key, the override given with the
    [env] engine option wins over the value in the [env] of the run
    configuration's [baseConfig], which wins over the value of
    [DEFAULT_ENV_VARS]; a key that only one of the three has keeps the
    value it has there. *)
Theorem run_env_precedence (ruleGroups : list RuleGroup) (rules : list Rule)
    (targets : list RuleTarget) (engineOptions : gmap string string)
    (log : list Invocation) :
  exists invocations,
    snd (run ruleGroups rules targets engineOptions log) = log ++ invocations
    /\ Forall
         (fun inv =>
            exists envOverride env' rest,
              userOverride engineOptions = Return envOverride
              /\ baseConfig (invokedWith inv)
                 = Some {| env := Some env'; baseConfigRest := rest |}
              /\ forall key,
                   env' !! key
                   = precedence envOverride
                       (runConfigEnv (getRunConfig strategy engineOptions))
                       DEFAULT_ENV_VARS key)
         invocations.
Proof.
  unfold BaseEslintEngine.run.
  destruct (size (properties (configureRules rules)) =? 0)%nat.
  - exists []. simpl. rewrite app_nil_r. auto.
  - destruct (runTargets_invocations (configureRules rules) engineOptions
                targets [] log) as (invocations & Hlog & Hall).
    exists invocations. split; [| exact Hall].
    unfold tryCatch.
    destruct (runTargets (configureRules rules) engineOptions targets [] log)
      as [[results|e] log']; exact Hlog.
Qed.


End Run.


(** Each of the three conditions is needed: of two rules of one name only
    the last is configured at its default configuration, a rule called
    [__proto__] is not configured at all, and a rule whose default
    configuration is the empty string runs at 'error'. *)
Lemma configuredAsStated_fails :
  ~ configuredAsStated Examples.sameNameRules
  /\ ~ configuredAsStated Examples.protoRules
  /\ ~ configuredAsStated Examples.emptyConfigRules.
Proof.
  repeat split; intros H;
    specialize (H _ (or_introl eq_refl)); vm_compute in H; discriminate.
Qed.

(* ================================================================== *)
(** ** CustomRulePathManager: looking paths up and removing them *)
(* ================================================================== *)

Section Lookup.

Import CustomRulePathManager Registry.

Variable engines : list RuleEngine.
Variable fileHandler : FileHandler.
Variable JSON_parse : string -> Outcome RulePathJson.
Variable JSON_stringify : RulePathJson -> string.
Variable path_resolve : string -> string -> string.
Variable SFDX_SCANNER_PATH : string.
Variable filePath : string.

Local Abbreviation determineEngineForPath := (determineEngineForPath engines).
Local Abbreviation initialize := (initialize JSON_parse).
Local Abbreviation expandPaths := (expandPaths fileHandler path_resolve).
Local Abbreviation addPathsForLanguage :=
  (addPathsForLanguage engines fileHandler JSON_parse JSON_stringify
     path_resolve SFDX_SCANNER_PATH filePath).
Local Abbreviation getMatchingPaths :=
  (getMatchingPaths engines fileHandler JSON_parse path_resolve).
Local Abbreviation removePathsForLanguage :=
  (removePathsForLanguage engines fileHandler JSON_parse JSON_stringify
     path_resolve SFDX_SCANNER_PATH filePath).
Local Abbreviation saveCustomClasspaths :=
  (saveCustomClasspaths fileHandler JSON_parse JSON_stringify
     SFDX_SCANNER_PATH filePath).

Implicit Types (m : RulePathMap) (st : State) (language p : string).

(** A reference to an engine, or [undefined], is no key of a map whose
    keys are names. *)
Lemma keyedByName_keyOf m (e : option RuleEngine) :
  keyedByName m -> mapGet (keyOf e) m = None.
Proof.
  intros H. apply mapGet_not_In. intros Hin.
  unfold keyedByName in H. rewrite List.Forall_forall in H.
  destruct (H _ Hin) as [s Hs]. destruct e; discriminate.
Qed.

Lemma isMatchingPath_keyedByName m language p :
  keyedByName m -> isMatchingPath engines m language p = false.
Proof.
  intros H. unfold CustomRulePathManager.isMatchingPath.
  rewrite (keyedByName_keyOf _ _ H). reflexivity.
Qed.

Lemma removeEntry_keyedByName m language p (deletedPaths : list string) :
  keyedByName m ->
  removeEntry engines language p (m, deletedPaths) = (m, deletedPaths).
Proof.
  intros H. unfold CustomRulePathManager.removeEntry.
  rewrite (keyedByName_keyOf _ _ H). reflexivity.
Qed.

Lemma removeEntries_keyedByName m language (expandedPaths : list string) :
  keyedByName m ->
  fold_left (fun acc p => removeEntry engines language p acc) expandedPaths
    (m, [])
  = (m, []).
Proof.
  intros H. induction expandedPaths as [|p l IH]; cbn [fold_left];
    [reflexivity |].
  rewrite (removeEntry_keyedByName _ _ _ _ H). exact IH.
Qed.

(** The map read from a document is keyed by names. *)
Lemma convertJsonDataToMap_keyedByName (json : RulePathJson) :
  keyedByName (convertJsonDataToMap json).
Proof.
  unfold convertJsonDataToMap.
  generalize (mapKeys json) as keys.
  assert (H : keyedByName ([] : RulePathMap)) by constructor.
  revert H. generalize ([] : RulePathMap) as m.
  intros m H keys. revert m H.
  induction keys as [|key keys IH]; intros m H; simpl; [exact H |].
  apply IH. destruct (mapGet key json) as [val|]; [| exact H].
  unfold keyedByName. rewrite List.Forall_forall. intros k Hk.
  apply mapKeys_mapSet in Hk. destruct Hk as [->|Hk]; [eauto |].
  unfold keyedByName in H. rewrite List.Forall_forall in H. auto.
Qed.

(** Initialisation of a manager that has not been used gives a map keyed
    by names. *)
Lemma initialize_keyedByName (file : ReadResult) :
  keyedByName (pathsByLanguageByEngine (snd (initialize (init file)))).
Proof.
  rewrite (initialize_first JSON_parse (init file) eq_refl). simpl.
  destruct file as [data|code message].
  - destruct (JSON_parse _); simpl;
      [apply convertJsonDataToMap_keyedByName | constructor].
  - destruct (String.eqb code "ENOENT"); [| constructor].
    destruct (JSON_parse _); simpl;
      [apply convertJsonDataToMap_keyedByName | constructor].
Qed.

(** ... and so does [addPathsForLanguage] after it. *)
Lemma addPathsForLanguage_keyedByName (file : ReadResult) language
    (paths : list string) :
  keyedByName
    (pathsByLanguageByEngine
       (snd (addPathsForLanguage language paths (init file)))).
Proof.
  unfold keyedByName. rewrite List.Forall_forall. intros k Hk.
  apply addPathsForLanguage_keys in Hk.
  destruct Hk as [Hk|(e & entry & _ & ->)]; [| eauto].
  pose proof (initialize_keyedByName file) as H.
  unfold keyedByName in H. rewrite List.Forall_forall in H. auto.
Qed.

(** On a map keyed by names [getMatchingPaths] finds nothing. *)
Lemma getMatchingPaths_keyedByName language (paths : list string) st :
  initialized st = true ->
  keyedByName (pathsByLanguageByEngine st) ->
  getMatchingPaths language paths st
  = (match expandPaths paths with
     | Return _ => Return []
     | Throw e => Throw e
     end, st).
Proof.
  intros Hi Hk. unfold CustomRulePathManager.getMatchingPaths.
  rewrite bind_unfold, (initialize_again JSON_parse st Hi).
  rewrite bind_unfold. unfold lift.
  destruct (expandPaths paths) as [expandedPaths|e]; [| reflexivity].
  monad_simpl. rewrite filter_false; [reflexivity |].
  intros p. apply isMatchingPath_keyedByName. exact Hk.
Qed.

(** On a map keyed by names [removePathsForLanguage] deletes nothing: when
    it returns, it returns the empty list, and it leaves the map as it
    was. *)
(** On an initialised manager whose keys are names, the loop of
    [removePathsForLanguage] changes nothing. *)
Lemma removePathsForLanguage_keyed language (paths : list string) st :
  initialized st = true ->
  keyedByName (pathsByLanguageByEngine st) ->
  removePathsForLanguage language paths st =
  match expandPaths paths with
  | Throw e => (Throw e, st)
  | Return _ =>
      match saveCustomClasspaths
              {| initialized := initialized st;
                 pathsByLanguageByEngine := pathsByLanguageByEngine st;
                 customRulePathFile := customRulePathFile st |} with
      | (Return _, st2) => (Return [], st2)
      | (Throw e, st2) => (Throw e, st2)
      end
  end.
Proof.
  intros Hi Hk.
  set (st' := {| initialized := initialized st;
                 pathsByLanguageByEngine := pathsByLanguageByEngine st;
                 customRulePathFile := customRulePathFile st |}).
  unfold CustomRulePathManager.removePathsForLanguage.
  rewrite bind_unfold, (initialize_again JSON_parse st Hi).
  rewrite bind_unfold. unfold lift.
  destruct (expandPaths paths) as [expandedPaths|e]; [| reflexivity].
  rewrite bind_unfold. unfold getState at 1.
  rewrite (removeEntries_keyedByName _ _ _ Hk).
  rewrite bind_unfold. unfold setPaths at 1. fold st'.
  rewrite bind_unfold.
  destruct (saveCustomClasspaths st') as [[[]|e] st2]; reflexivity.
Qed.

Lemma removePathsForLanguage_keyedByName language (paths : list string) st :
  initialized st = true ->
  keyedByName (pathsByLanguageByEngine st) ->
  pathsByLanguageByEngine (snd (removePathsForLanguage language paths st))
  = pathsByLanguageByEngine st
  /\ match fst (removePathsForLanguage language paths st) with
     | Return deletedPaths => deletedPaths = []
     | Throw _ => True
     end.
Proof.
  intros Hi Hk. rewrite (removePathsForLanguage_keyed _ _ _ Hi Hk).
  set (st' := {| initialized := initialized st;
                 pathsByLanguageByEngine := pathsByLanguageByEngine st;
                 customRulePathFile := customRulePathFile st |}).
  destruct (expandPaths paths) as [expandedPaths|e]; [| simpl; auto].
  assert (Hi' : initialized st' = true) by exact Hi.
  destruct (saveCustomClasspaths st') as [rs st2] eqn:Esave.
  destruct (saveCustomClasspaths_again _ _ _ _ _ _ _ _ Hi' Esave)
    as (_ & Hmap & _).
  destruct rs as [[]|e]; simpl; auto.
Qed.

Lemma removePathsForLanguage_initialized language (paths : list string) st :
  initialized st = true ->
  keyedByName (pathsByLanguageByEngine st) ->
  initialized (snd (removePathsForLanguage language paths st)) = true.
Proof.
  intros Hi Hk. rewrite (removePathsForLanguage_keyed _ _ _ Hi Hk).
  set (st' := {| initialized := initialized st;
                 pathsByLanguageByEngine := pathsByLanguageByEngine st;
                 customRulePathFile := customRulePathFile st |}).
  destruct (expandPaths paths) as [expandedPaths|e]; [| exact Hi].
  assert (Hi' : initialized st' = true) by exact Hi.
  destruct (saveCustomClasspaths st') as [rs st2] eqn:Esave.
  destruct (saveCustomClasspaths_again _ _ _ _ _ _ _ _ Hi' Esave)
    as (Hi2 & _).
  destruct rs as [[]|e]; exact Hi2.
Qed.

End Lookup.

(* ================================================================== *)
(** ** CustomRulePathManager: where the code departs from the
       specification *)
(* ================================================================== *)

Section Departures.

Import CustomRulePathManager Registry.

Variable engines : list RuleEngine.
Variable fileHandler : FileHandler.
Variable JSON_parse : string -> Outcome RulePathJson.
Variable JSON_stringify : RulePathJson -> string.
Variable path_resolve : string -> string -> string.
Variable SFDX_SCANNER_PATH : string.
Variable filePath : string.

Local Abbreviation determineEngineForPath := (determineEngineForPath engines).
Local Abbreviation addEntry := (addEntry engines).
Local Abbreviation initialize := (initialize JSON_parse).
Local Abbreviation expandPaths := (expandPaths fileHandler path_resolve).
Local Abbreviation addPathsForLanguage :=
  (addPathsForLanguage engines fileHandler JSON_parse JSON_stringify
     path_resolve SFDX_SCANNER_PATH filePath).
Local Abbreviation getMatchingPaths :=
  (getMatchingPaths engines fileHandler JSON_parse path_resolve).
Local Abbreviation removePathsForLanguage :=
  (removePathsForLanguage engines fileHandler JSON_parse JSON_stringify
     path_resolve SFDX_SCANNER_PATH filePath).
Local Abbreviation saveCustomClasspaths :=
  (saveCustomClasspaths fileHandler JSON_parse JSON_stringify
     SFDX_SCANNER_PATH filePath).

Implicit Types (st : State) (language : string) (paths : list string).

(** After [addPathsForLanguage] the manager is initialised if
    initialisation returned. *)
Lemma addPathsForLanguage_initialized language paths st st0 :
  initialize st = (Return tt, st0) ->
  initialized st0 = true ->
  initialized (snd (addPathsForLanguage language paths st)) = true.
Proof.
  intros Hinit Hi0.
  rewrite (addPathsForLanguage_unfold engines fileHandler JSON_parse
             JSON_stringify path_resolve SFDX_SCANNER_PATH filePath).
  rewrite Hinit.
  destruct (expandPaths paths) as [entries|e]; [| exact Hi0].
  destruct (forEach (addEntry language) entries st0) as [r st1] eqn:Eloop.
  destruct (forEach_addEntry_frame _ _ _ _ _ _ Eloop) as [Hi1 _].
  assert (Hi1' : initialized st1 = true) by congruence.
  destruct r as [[]|e]; [| exact Hi1'].
  destruct (saveCustomClasspaths st1) as [rs st2] eqn:Esave.
  destruct (saveCustomClasspaths_again _ _ _ _ _ _ _ _ Hi1' Esave)
    as (Hi2 & _ & _).
  destruct rs as [[]|e]; exact Hi2.
Qed.

(** On a manager that [addPathsForLanguage] has been called on once,
    [getMatchingPaths] returns no path, whatever was added. *)
Lemma getMatchingPaths_after_add (file : ReadResult) language paths
    language' paths' :
  match fst (getMatchingPaths language' paths'
               (snd (addPathsForLanguage language paths (init file)))) with
  | Return matched => matched = []
  | Throw _ => True
  end.
Proof.
  pose proof (addPathsForLanguage_keyedByName engines fileHandler JSON_parse
                JSON_stringify path_resolve SFDX_SCANNER_PATH filePath
                file language paths) as Hk.
  destruct (initialize_cases JSON_parse (init file))
    as [(st0 & Hinit & Hi0)|(e & Hinit)].
  - pose proof (addPathsForLanguage_initialized language paths _ _ Hinit Hi0)
      as Hi.
    rewrite (getMatchingPaths_keyedByName engines fileHandler JSON_parse
               path_resolve _ _ _ Hi Hk).
    simpl. destruct (expandPaths paths'); auto.
  - rewrite (addPathsForLanguage_unfold engines fileHandler JSON_parse
               JSON_stringify path_resolve SFDX_SCANNER_PATH filePath).
    rewrite Hinit. simpl.
    unfold CustomRulePathManager.getMatchingPaths.
    rewrite (initialize_fatal JSON_parse _ _ _ Hinit). exact I.
Qed.

(** ... and [removePathsForLanguage] deletes none, and leaves the registry
    as it is. *)
Lemma removePathsForLanguage_after_add (file : ReadResult) language paths
    language' paths' :
  let st := snd (addPathsForLanguage language paths (init file)) in
  pathsByLanguageByEngine (snd (removePathsForLanguage language' paths' st))
  = pathsByLanguageByEngine st
  /\ match fst (removePathsForLanguage language' paths' st) with
     | Return deletedPaths => deletedPaths = []
     | Throw _ => True
     end.
Proof.
  cbv zeta.
  pose proof (addPathsForLanguage_keyedByName engines fileHandler JSON_parse
                JSON_stringify path_resolve SFDX_SCANNER_PATH filePath
                file language paths) as Hk.
  destruct (initialize_cases JSON_parse (init file))
    as [(st0 & Hinit & Hi0)|(e & Hinit)].
  - pose proof (addPathsForLanguage_initialized language paths _ _ Hinit Hi0)
      as Hi.
    apply removePathsForLanguage_keyedByName; assumption.
  - rewrite (addPathsForLanguage_unfold engines fileHandler JSON_parse
               JSON_stringify path_resolve SFDX_SCANNER_PATH filePath).
    rewrite Hinit. simpl.
    unfold CustomRulePathManager.removePathsForLanguage.
    rewrite (initialize_fatal JSON_parse _ _ _ Hinit). simpl. auto.
Qed.

(** The loop of [addPathsForLanguage] throws as soon as an entry has no
    engine. *)
Lemma forEach_addEntry_unattributed language (entries : list string) st :
  (exists entry, In entry entries /\ determineEngineForPath entry = None) ->
  fst (forEach (addEntry language) entries st)
  = Throw (TypeError "Cannot read properties of undefined (reading 'getName')").
Proof.
  revert st. induction entries as [|entry entries IH]; intros st (x & Hin & Hx).
  - destruct Hin.
  - rewrite forEach_cons.
    destruct (determineEngineForPath entry) as [e|] eqn:Ee.
    + rewrite (addEntry_attributed _ _ _ _ _ Ee). apply IH.
      destruct Hin as [->|Hin]; [congruence | eauto].
    + rewrite (addEntry_unattributed _ _ _ _ Ee). reflexivity.
Qed.

(** [addPathsForLanguage] throws a TypeError when a path of the expansion
    has no engine. *)
Lemma addPathsForLanguage_unattributed language paths st
    (entries : list string) :
  initialized st = true ->
  expandPaths paths = Return entries ->
  (exists entry, In entry entries /\ determineEngineForPath entry = None) ->
  fst (addPathsForLanguage language paths st)
  = Throw (TypeError "Cannot read properties of undefined (reading 'getName')").
Proof.
  intros Hi Hexp Hex.
  rewrite (addPathsForLanguage_unfold engines fileHandler JSON_parse
             JSON_stringify path_resolve SFDX_SCANNER_PATH filePath).
  rewrite (initialize_again JSON_parse st Hi), Hexp.
  pose proof (forEach_addEntry_unattributed language entries st Hex) as H.
  destruct (forEach (addEntry language) entries st) as [[[]|e] st1];
    simpl in H; [discriminate | injection H as ->; reflexivity].
Qed.

End Departures.

(** C1.  The code does not give the round trip.  On a manager used for the
    first time, [getMatchingPaths] after [addPathsForLanguage] never
    returns a path, for any engines, file system, language and patterns:
    it looks the registry up under the engine itself where
    [addPathsForLanguage] stored under the name of the engine.  With an
    engine that owns archives and the pattern [/r/MyRules.jar], the path
    is added and stored, and the list of matching paths is empty. *)
Theorem getMatchingPaths_after_add_is_empty :
  (forall engines fileHandler JSON_parse JSON_stringify path_resolve
          SFDX_SCANNER_PATH filePath file language paths,
     match fst (CustomRulePathManager.getMatchingPaths engines fileHandler
                  JSON_parse path_resolve language paths
                  (snd (CustomRulePathManager.addPathsForLanguage engines
                          fileHandler JSON_parse JSON_stringify path_resolve
                          SFDX_SCANNER_PATH filePath language paths
                          (CustomRulePathManager.init file)))) with
     | Return matched => matched = []
     | Throw _ => True
     end)
  /\ (let added :=
        Examples.add [Examples.jarEngine] "apex" ["/r/MyRules.jar"]
          Examples.fresh in
      fst added = Return ["/r/MyRules.jar"]
      /\ Registry.stored "pmd" "apex" "/r/MyRules.jar"
           (CustomRulePathManager.pathsByLanguageByEngine (snd added))
      /\ fst (Examples.matching [Examples.jarEngine] "apex" ["/r/MyRules.jar"]
                (snd added))
         = Return []).
Proof.
  split.
  - intros. apply getMatchingPaths_after_add.
  - cbv zeta. split; [reflexivity |]. split; [| reflexivity].
    exists [("apex", ["/r/MyRules.jar"])], ["/r/MyRules.jar"].
    repeat split.
Qed.

(** C2.  The code does not report what it should delete.  On a manager
    used for the first time, [removePathsForLanguage] after
    [addPathsForLanguage] returns no path and leaves the registry as it
    is, for any engines, file system, languages and patterns: it looks the
    registry up under the engine itself.  With an engine that owns
    archives, the path [/r/MyRules.jar] that was added is not in the
    returned list and is still stored. *)
Theorem removePathsForLanguage_after_add_is_empty :
  (forall engines fileHandler JSON_parse JSON_stringify path_resolve
          SFDX_SCANNER_PATH filePath file language paths language' paths',
     let st :=
       snd (CustomRulePathManager.addPathsForLanguage engines fileHandler
              JSON_parse JSON_stringify path_resolve SFDX_SCANNER_PATH
              filePath language paths (CustomRulePathManager.init file)) in
     let removed :=
       CustomRulePathManager.removePathsForLanguage engines fileHandler
         JSON_parse JSON_stringify path_resolve SFDX_SCANNER_PATH filePath
         language' paths' st in
     CustomRulePathManager.pathsByLanguageByEngine (snd removed)
     = CustomRulePathManager.pathsByLanguageByEngine st
     /\ match fst removed with
        | Return deletedPaths => deletedPaths = []
        | Throw _ => True
        end)
  /\ (let added :=
        Examples.add [Examples.jarEngine] "apex" ["/r/MyRules.jar"]
          Examples.fresh in
      let removed :=
        Examples.remove [Examples.jarEngine] "apex" ["/r/MyRules.jar"]
          (snd added) in
      Registry.stored "pmd" "apex" "/r/MyRules.jar"
        (CustomRulePathManager.pathsByLanguageByEngine (snd added))
      /\ fst removed = Return []
      /\ Registry.stored "pmd" "apex" "/r/MyRules.jar"
           (CustomRulePathManager.pathsByLanguageByEngine (snd removed))).
Proof.
  split.
  - intros. apply removePathsForLanguage_after_add.
  - cbv zeta. split; [| split; [reflexivity |]];
      exists [("apex", ["/r/MyRules.jar"])], ["/r/MyRules.jar"];
      repeat split.
Qed.

(** C3.  The code does not drop a path that no engine owns: it throws.
    Whenever a path of the expansion has no engine, [addPathsForLanguage]
    on an initialised manager throws a TypeError at [engine.getName()].
    With the ESLint engine as the only engine, whose [matchPath] is false
    for every path, [addPathsForLanguage] on the existing archive
    [/r/MyRules.jar] throws it, stores nothing and writes no file. *)
Theorem addPathsForLanguage_unattributed_throws :
  (forall engines fileHandler JSON_parse JSON_stringify path_resolve
          SFDX_SCANNER_PATH filePath language paths st entries,
     CustomRulePathManager.initialized st = true ->
     CustomRulePathManager.expandPaths fileHandler path_resolve paths
     = Return entries ->
     (exists entry,
        In entry entries
        /\ CustomRulePathManager.determineEngineForPath engines entry = None) ->
     fst (CustomRulePathManager.addPathsForLanguage engines fileHandler
            JSON_parse JSON_stringify path_resolve SFDX_SCANNER_PATH filePath
            language paths st)
     = Throw (TypeError "Cannot read properties of undefined (reading 'getName')"))
  /\ CustomRulePathManager.determineEngineForPath [Examples.eslintEngine]
       "/r/MyRules.jar" = None
  /\ Examples.add [Examples.eslintEngine] "apex" ["/r/MyRules.jar"]
       Examples.fresh
     = (Throw (TypeError "Cannot read properties of undefined (reading 'getName')"),
        {| CustomRulePathManager.initialized := true;
           CustomRulePathManager.pathsByLanguageByEngine := [];
           CustomRulePathManager.customRulePathFile :=
             CustomRulePathManager.customRulePathFile Examples.fresh |}).
Proof.
  split; [| split; reflexivity].
  intros engines fileHandler JSON_parse JSON_stringify path_resolve
    SFDX_SCANNER_PATH filePath language paths st entries Hi Hexp Hex.
  exact (addPathsForLanguage_unattributed engines fileHandler JSON_parse
           JSON_stringify path_resolve SFDX_SCANNER_PATH filePath language
           paths st entries Hi Hexp Hex).
Qed.

(** The scenarios of the specification that the code does give: a text
    file among the patterns is dropped, a directory gives its archives,
    and the document is written. *)
Example add_scenarios :
  fst (Examples.add [Examples.jarEngine] "apex"
         ["/r/MyRules.jar"; "/r/notes.txt"] Examples.fresh)
  = Return ["/r/MyRules.jar"]
  /\ fst (Examples.add [Examples.jarEngine] "apex" ["/r"] Examples.fresh)
     = Return ["/r/MyRules.jar"]
  /\ CustomRulePathManager.customRulePathFile
       (snd (Examples.add [Examples.jarEngine] "apex" ["/r"] Examples.fresh))
     = CustomRulePathManager.Content
         (Examples.render [("pmd", [("apex", ["/r/MyRules.jar"])])])
  /\ fst (Examples.add [Examples.jarEngine] "apex" ["/nowhere"] Examples.fresh)
     = Throw (InvalidPathError "/nowhere").
Proof. repeat split. Qed.

(** A run over two targets, of which one has no supported file: one
    invocation, in whose environment the override turns [jest] off, the
    run configuration turns [node] off and brings [es2020], and the
    defaults give the rest.  Without rules nothing is invoked. *)
Example run_scenarios :
  let options : gmap string string := {[ "env" := Examples.envOption ]} in
  Examples.envOfRunAt Examples.someRules options "jest"
  = Some (Some (JsBoolean false))
  /\ Examples.envOfRunAt Examples.someRules options "node"
     = Some (Some (JsBoolean false))
  /\ Examples.envOfRunAt Examples.someRules options "es2020"
     = Some (Some (JsBoolean true))
  /\ Examples.envOfRunAt Examples.someRules options "es6"
     = Some (Some (JsBoolean true))
  /\ Examples.envOfRunAt Examples.someRules options "amd" = Some None
  /\ BaseEslintEngine.run Examples.eslintStrategy Examples.dependencies
       Examples.parseEnv [] [] Examples.someTargets options []
     = (Return [], [])
  /\ BaseEslintEngine.properties
       (BaseEslintEngine.configureRules Examples.someRules) !! "semi"
     = Some (ConfigString "error")
  /\ BaseEslintEngine.properties
       (BaseEslintEngine.configureRules Examples.someRules) !! "no-eval"
     = Some (ConfigString "warn")
  /\ BaseEslintEngine.run Examples.eslintStrategy Examples.dependencies
       Examples.parseEnv [] Examples.protoRules Examples.someTargets options []
     = (Return [], []).
Proof. cbv zeta. repeat split; vm_compute; reflexivity. Qed.

(* ================================================================== *)
(** ** CustomRulePathManager: what the operations do to the registry *)
(* ================================================================== *)

Section RegistryOperations.

Import CustomRulePathManager Registry Shape.

Variable engines : list RuleEngine.
Variable fileHandler : FileHandler.
Variable JSON_parse : string -> Outcome RulePathJson.
Variable JSON_stringify : RulePathJson -> string.
Variable path_resolve : string -> string -> string.
Variable SFDX_SCANNER_PATH : string.
Variable filePath : string.

Local Abbreviation determineEngineForPath := (determineEngineForPath engines).
Local Abbreviation addEntry := (addEntry engines).
Local Abbreviation initialize := (initialize JSON_parse).
Local Abbreviation expandPaths := (expandPaths fileHandler path_resolve).
Local Abbreviation saveCustomClasspaths :=
  (saveCustomClasspaths fileHandler JSON_parse JSON_stringify
     SFDX_SCANNER_PATH filePath).
Local Abbreviation addPathsForLanguage :=
  (addPathsForLanguage engines fileHandler JSON_parse JSON_stringify
     path_resolve SFDX_SCANNER_PATH filePath).
Local Abbreviation getMatchingPaths :=
  (getMatchingPaths engines fileHandler JSON_parse path_resolve).
Local Abbreviation removePathsForLanguage :=
  (removePathsForLanguage engines fileHandler JSON_parse JSON_stringify
     path_resolve SFDX_SCANNER_PATH filePath).
Local Abbreviation getRulePathEntries := (getRulePathEntries JSON_parse).

Implicit Types (st : State) (language entry : string) (paths : list string).

(** What is stored stays stored through the loop of
    [addPathsForLanguage]. *)
Lemma forEach_addEntry_stored language (entries : list string) st r st'
    (name' language' entry' : string) :
  forEach (addEntry language) entries st = (r, st') ->
  stored name' language' entry' (pathsByLanguageByEngine st) ->
  stored name' language' entry' (pathsByLanguageByEngine st').
Proof.
  revert st. induction entries as [|entry entries IH]; intros st.
  - intros [= <- <-]. auto.
  - rewrite forEach_cons.
    destruct (determineEngineForPath entry) as [e|] eqn:Ee.
    + rewrite (addEntry_attributed _ _ _ _ _ Ee). intros Hrun Hs.
      apply (IH _ Hrun). simpl. apply insertPath_keeps. exact Hs.
    + rewrite (addEntry_unattributed _ _ _ _ Ee). intros [= <- <-]. auto.
Qed.

(** When the loop returns, every entry has an engine and is stored under
    its name. *)
Lemma forEach_addEntry_returns language (entries : list string) st st' :
  forEach (addEntry language) entries st = (Return tt, st') ->
  forall entry,
    In entry entries ->
    exists e,
      determineEngineForPath entry = Some e
      /\ stored (getName e) language entry (pathsByLanguageByEngine st').
Proof.
  revert st. induction entries as [|x entries IH]; intros st Hrun entry Hin.
  - destruct Hin.
  - rewrite forEach_cons in Hrun.
    destruct (determineEngineForPath x) as [e|] eqn:Ee.
    + rewrite (addEntry_attributed _ _ _ _ _ Ee) in Hrun.
      destruct Hin as [<-|Hin]; [| exact (IH _ Hrun entry Hin)].
      exists e. split; [exact Ee |].
      apply (forEach_addEntry_stored _ _ _ _ _ _ _ _ Hrun).
      simpl. apply insertPath_stored.
    + rewrite (addEntry_unattributed _ _ _ _ Ee) in Hrun. discriminate.
Qed.


Lemma forEach_app {A} (f : A -> M unit) (l1 l2 : list A) st :
  forEach f (l1 ++ l2) st =
  match forEach f l1 st with
  | (Return _, st') => forEach f l2 st'
  | (Throw e, st') => (Throw e, st')
  end.
Proof.
  revert st. induction l1 as [|x l1 IH]; intros st; [reflexivity |].
  rewrite <- app_comm_cons, !forEach_cons.
  destruct (f x st) as [[[]|e] st1]; [apply IH | reflexivity].
Qed.

(** The course of [addPathsForLanguage]: where it stops, and in which
    state. *)
Lemma addPathsForLanguage_cases language paths st :
  (exists e,
     initialize st = (Throw e, st)
     /\ addPathsForLanguage language paths st = (Throw e, st))
  \/ exists st0,
       initialize st = (Return tt, st0) /\ initialized st0 = true
       /\ ((exists e,
              expandPaths paths = Throw e
              /\ addPathsForLanguage language paths st = (Throw e, st0))
           \/ exists entries r st1,
                expandPaths paths = Return entries
                /\ forEach (addEntry language) entries st0 = (r, st1)
                /\ initialized st1 = true
                /\ customRulePathFile st1 = customRulePathFile st0
                /\ ((exists e,
                       r = Throw e
                       /\ addPathsForLanguage language paths st = (Throw e, st1))
                    \/ (r = Return tt
                        /\ exists rs st2,
                             saveCustomClasspaths st1 = (rs, st2)
                             /\ initialized st2 = true
                             /\ pathsByLanguageByEngine st2
                                = pathsByLanguageByEngine st1
                             /\ addPathsForLanguage language paths st
                                = (match rs with
                                   | Return _ => Return entries
                                   | Throw e => Throw e
                                   end, st2)))).
Proof.
  rewrite (addPathsForLanguage_unfold engines fileHandler JSON_parse
             JSON_stringify path_resolve SFDX_SCANNER_PATH filePath).
  destruct (initialize_cases JSON_parse st) as [(st0 & Hinit & Hi0)|(e & Hinit)];
    rewrite Hinit; [right | left; eauto].
  exists st0. split; [reflexivity |]. split; [exact Hi0 |].
  destruct (expandPaths paths) as [entries|e]; [right | left; eauto].
  destruct (forEach (addEntry language) entries st0) as [r st1] eqn:Eloop.
  destruct (forEach_addEntry_frame _ _ _ _ _ _ Eloop) as [Hi1 Hf1].
  assert (Hi1' : initialized st1 = true) by congruence.
  exists entries, r, st1. repeat split; try assumption.
  destruct r as [[]|e]; [right | left; eauto].
  split; [reflexivity |].
  destruct (saveCustomClasspaths st1) as [rs st2] eqn:Esave.
  destruct (saveCustomClasspaths_again _ _ _ _ _ _ _ _ Hi1' Esave)
    as (Hi2 & Hmap & _).
  exists rs, st2. repeat split; try assumption.
  destruct rs as [[]|e]; reflexivity.
Qed.

Lemma getRulePathEntries_initialized (engine : string) st :
  initialized st = true ->
  getRulePathEntries engine st
  = (Return (default [] (mapGet (KeyString engine) (pathsByLanguageByEngine st))),
     st).
Proof.
  intros Hi. unfold CustomRulePathManager.getRulePathEntries.
  rewrite bind_unfold, (initialize_again JSON_parse st Hi).
  monad_simpl.
  destruct (mapGet (KeyString engine) (pathsByLanguageByEngine st));
    reflexivity.
Qed.

(** X1.  When [addPathsForLanguage] returns, it returns the whole
    expansion of the patterns, and every path of it is then found by
    [getRulePathEntries] under the name of its engine and the language. *)
Theorem addPathsForLanguage_then_getRulePathEntries language paths st
    (entries : list string) st' :
  addPathsForLanguage language paths st = (Return entries, st') ->
  expandPaths paths = Return entries
  /\ forall entry,
       In entry entries ->
       exists e byLanguage set,
         determineEngineForPath entry = Some e
         /\ getRulePathEntries (getName e) st' = (Return byLanguage, st')
         /\ mapGet language byLanguage = Some set
         /\ In entry set.
Proof.
  intros Hadd.
  destruct (addPathsForLanguage_cases language paths st)
    as [(e & _ & H)|(st0 & _ & _ & [(e & _ & H)|
         (l & r & st1 & Hexp & Hloop & _ & _ & [(e & _ & H)|
           (-> & rs & st2 & Hsave & Hi2 & Hmap & H)])])];
    rewrite H in Hadd; try discriminate.
  destruct rs as [[]|e]; [| discriminate].
  injection Hadd as <- <-. split; [exact Hexp |].
  intros entry Hin.
  destruct (forEach_addEntry_returns _ _ _ _ Hloop entry Hin)
    as (e & He & byLanguage & set & Hby & Hstored & Hhas).
  exists e, byLanguage, set. split; [exact He |].
  rewrite (getRulePathEntries_initialized _ _ Hi2), Hmap, Hby.
  repeat split; [exact Hstored | apply setHas_In; exact Hhas].
Qed.

(** X2.  [addPathsForLanguage] on an initialised manager removes nothing:
    a path stored before the call is stored after it, however the call
    ends. *)
Theorem addPathsForLanguage_keeps_stored language paths st
    (name' language' entry' : string) :
  initialized st = true ->
  stored name' language' entry' (pathsByLanguageByEngine st) ->
  stored name' language' entry'
    (pathsByLanguageByEngine (snd (addPathsForLanguage language paths st))).
Proof.
  intros Hi Hs.
  destruct (addPathsForLanguage_cases language paths st)
    as [(e & _ & H)|(st0 & Hinit & _ & [(e & _ & H)|
         (l & r & st1 & _ & Hloop & _ & _ & [(e & _ & H)|
           (_ & rs & st2 & _ & _ & Hmap & H)])])];
    rewrite H; simpl; try exact Hs;
    rewrite (initialize_again JSON_parse st Hi) in Hinit;
    injection Hinit as <-; try exact Hs.
  - exact (forEach_addEntry_stored _ _ _ _ _ _ _ _ Hloop Hs).
  - rewrite Hmap. exact (forEach_addEntry_stored _ _ _ _ _ _ _ _ Hloop Hs).
Qed.

(** X3.  When [addPathsForLanguage] returns, the persisted file holds the
    document of the registry that is in memory. *)
Theorem addPathsForLanguage_persists language paths st
    (entries : list string) st' :
  addPathsForLanguage language paths st = (Return entries, st') ->
  exists json,
    convertMapToJson (pathsByLanguageByEngine st') = Return json
    /\ customRulePathFile st' = Content (JSON_stringify json).
Proof.
  intros Hadd.
  destruct (addPathsForLanguage_cases language paths st)
    as [(e & _ & H)|(st0 & _ & _ & [(e & _ & H)|
         (l & r & st1 & _ & _ & Hi1 & _ & [(e & _ & H)|
           (_ & rs & st2 & Hsave & _ & _ & H)])])];
    rewrite H in Hadd; try discriminate.
  destruct rs as [[]|e]; [| discriminate]. injection Hadd as _ <-.
  rewrite (saveCustomClasspaths_initialized fileHandler JSON_parse
             JSON_stringify SFDX_SCANNER_PATH filePath st1 Hi1) in Hsave.
  destruct (convertMapToJson (pathsByLanguageByEngine st1)) as [json|e] eqn:Ej;
    [| discriminate].
  destruct (mkdirIfNotExists fileHandler SFDX_SCANNER_PATH); [discriminate |].
  destruct (writeFile fileHandler filePath (JSON_stringify json));
    [discriminate |].
  injection Hsave as <-. exists json. simpl. auto.
Qed.


(** X5.  [getMatchingPaths] and [getRulePathEntries] change nothing: they
    leave the manager and the persisted file as initialisation leaves
    them. *)
Theorem queries_change_nothing language paths (engine : string) st :
  snd (getMatchingPaths language paths st) = snd (initialize st)
  /\ snd (getRulePathEntries engine st) = snd (initialize st).
Proof.
  unfold CustomRulePathManager.getMatchingPaths,
    CustomRulePathManager.getRulePathEntries.
  rewrite !bind_unfold.
  destruct (initialize st) as [[[]|e] st0]; [| auto]. split.
  - rewrite bind_unfold. unfold lift.
    destruct (expandPaths paths); reflexivity.
  - monad_simpl.
    destruct (mapGet (KeyString engine) (pathsByLanguageByEngine st0));
      reflexivity.
Qed.

(** X6.  A pattern at which there is nothing stops every operation before
    it touches the registry or the file, also when valid patterns come
    before it. *)
Theorem invalid_pattern_changes_nothing language paths st (e : Error) :
  initialized st = true ->
  expandPaths paths = Throw e ->
  addPathsForLanguage language paths st = (Throw e, st)
  /\ getMatchingPaths language paths st = (Throw e, st)
  /\ removePathsForLanguage language paths st = (Throw e, st).
Proof.
  intros Hi Hexp.
  unfold CustomRulePathManager.addPathsForLanguage,
    CustomRulePathManager.getMatchingPaths,
    CustomRulePathManager.removePathsForLanguage.
  rewrite !bind_unfold, (initialize_again JSON_parse st Hi).
  rewrite !bind_unfold. unfold lift. rewrite Hexp. auto.
Qed.

End RegistryOperations.

(** Adding the directory [/r] for Apex to a manager without a file returns
    the archive of the directory, which is then listed for Apex under the
    PMD engine. *)
Lemma addPathsForLanguage_then_getRulePathEntries_witness :
  CustomRulePathManager.expandPaths Examples.disk Examples.resolve ["/r"]
  = Return ["/r/MyRules.jar"]
  /\ forall entry,
       In entry ["/r/MyRules.jar"] ->
       exists e byLanguage set,
         CustomRulePathManager.determineEngineForPath [Examples.jarEngine]
           entry = Some e
         /\ CustomRulePathManager.getRulePathEntries
              Examples.parseSaved (getName e) Examples.afterAdd
            = (Return byLanguage, Examples.afterAdd)
         /\ mapGet "apex" byLanguage = Some set
         /\ In entry set.
Proof.
  apply (addPathsForLanguage_then_getRulePathEntries [Examples.jarEngine]
           Examples.disk Examples.parseSaved Examples.render Examples.resolve
           Examples.scannerPath Examples.customPathsFile "apex" ["/r"]
           Examples.fresh ["/r/MyRules.jar"] Examples.afterAdd).
  vm_compute. reflexivity.
Defined.

(** A path stored for Apex stays stored when the same archive is added for
    Java. *)
Lemma addPathsForLanguage_keeps_stored_witness :
  Registry.stored "pmd" "apex" "/r/MyRules.jar"
    (CustomRulePathManager.pathsByLanguageByEngine
       (snd (CustomRulePathManager.addPathsForLanguage [Examples.jarEngine]
               Examples.disk Examples.parseSaved Examples.render
               Examples.resolve Examples.scannerPath Examples.customPathsFile
               "java" ["/r/MyRules.jar"] Examples.afterAdd))).
Proof.
  apply (addPathsForLanguage_keeps_stored [Examples.jarEngine] Examples.disk
           Examples.parseSaved Examples.render Examples.resolve
           Examples.scannerPath Examples.customPathsFile "java"
           ["/r/MyRules.jar"] Examples.afterAdd "pmd" "apex" "/r/MyRules.jar").
  - vm_compute. reflexivity.
  - exists [("apex", ["/r/MyRules.jar"])], ["/r/MyRules.jar"].
    repeat split; vm_compute; reflexivity.
Defined.

(** After the archives of [/r] have been added, the file holds the
    document of the registry. *)
Lemma addPathsForLanguage_persists_witness :
  exists json,
    CustomRulePathManager.convertMapToJson
      (CustomRulePathManager.pathsByLanguageByEngine Examples.afterAdd)
    = Return json
    /\ CustomRulePathManager.customRulePathFile Examples.afterAdd
       = CustomRulePathManager.Content (Examples.render json).
Proof.
  apply (addPathsForLanguage_persists [Examples.jarEngine] Examples.disk
           Examples.parseSaved Examples.render Examples.resolve
           Examples.scannerPath Examples.customPathsFile "apex" ["/r"]
           Examples.fresh ["/r/MyRules.jar"] Examples.afterAdd).
  vm_compute. reflexivity.
Defined.


(** A pattern at which there is nothing, after a valid one. *)
Lemma invalid_pattern_changes_nothing_witness :
  CustomRulePathManager.addPathsForLanguage [Examples.jarEngine]
    Examples.disk Examples.parseSaved Examples.render Examples.resolve
    Examples.scannerPath Examples.customPathsFile "apex" ["/r"; "/nowhere"]
    Examples.afterAdd
  = (Throw (Spec.InvalidPathError "/nowhere"), Examples.afterAdd)
  /\ CustomRulePathManager.getMatchingPaths [Examples.jarEngine]
       Examples.disk Examples.parseSaved Examples.resolve "apex"
       ["/r"; "/nowhere"] Examples.afterAdd
     = (Throw (Spec.InvalidPathError "/nowhere"), Examples.afterAdd)
  /\ CustomRulePathManager.removePathsForLanguage [Examples.jarEngine]
       Examples.disk Examples.parseSaved Examples.render Examples.resolve
       Examples.scannerPath Examples.customPathsFile "apex"
       ["/r"; "/nowhere"] Examples.afterAdd
     = (Throw (Spec.InvalidPathError "/nowhere"), Examples.afterAdd).
Proof.
  apply (invalid_pattern_changes_nothing [Examples.jarEngine] Examples.disk
           Examples.parseSaved Examples.render Examples.resolve
           Examples.scannerPath Examples.customPathsFile "apex"
           ["/r"; "/nowhere"] Examples.afterAdd
           (Spec.InvalidPathError "/nowhere")).
  - vm_compute. reflexivity.
  - vm_compute. reflexivity.
Defined.

(* ================================================================== *)
(** ** Map and Set: no duplicates *)
(* ================================================================== *)

Section MapShape.

Context {K : Type} `{EqDecision K} {V : Type}.
Implicit Types (k : K) (v : V) (m : Map K V).

(** Setting a key that is not there appends it. *)
Lemma mapSet_fresh k v m : ~ In k (mapKeys m) -> mapSet k v m = m ++ [(k, v)].
Proof.
  induction m as [|[k' v'] m IH]; simpl; [reflexivity |].
  intros Hn. destruct (decide (k' = k)) as [->|Hne]; [tauto |].
  rewrite IH by tauto. reflexivity.
Qed.

(** Setting a key that is there keeps the keys. *)
Lemma mapKeys_mapSet_present k v m :
  In k (mapKeys m) -> mapKeys (mapSet k v m) = mapKeys m.
Proof.
  induction m as [|[k' v'] m IH]; simpl; [tauto |].
  intros Hin. destruct (decide (k' = k)) as [->|Hne]; simpl; [reflexivity |].
  rewrite IH; [reflexivity |]. destruct Hin; [contradiction | assumption].
Qed.

Lemma mapSet_NoDup k v m : NoDup (mapKeys m) -> NoDup (mapKeys (mapSet k v m)).
Proof.
  intros Hm. destruct (in_dec (fun x y => decide (x = y)) k (mapKeys m)) as [Hin|Hn].
  - rewrite mapKeys_mapSet_present by exact Hin. exact Hm.
  - rewrite mapSet_fresh by exact Hn. unfold mapKeys. rewrite map_app. simpl.
    apply NoDup_app. repeat split; [exact Hm | | apply NoDup_singleton].
    intros x Hx Hx'. apply list_elem_of_In in Hx, Hx'.
    destruct Hx' as [<-|[]]. exact (Hn Hx).
Qed.

Lemma mapSet_Forall (P : K * V -> Prop) k v m :
  Forall P m -> P (k, v) -> Forall P (mapSet k v m).
Proof.
  intros Hm Hkv. induction m as [|[k' v'] m IH]; simpl.
  - constructor; [exact Hkv | constructor].
  - inversion Hm; subst. destruct (decide (k' = k)); constructor; auto.
Qed.

Lemma mapGet_Forall (P : K * V -> Prop) k v m :
  Forall P m -> mapGet k m = Some v -> P (k, v).
Proof.
  intros Hm. induction m as [|[k' v'] m IH]; simpl; [discriminate |].
  inversion Hm; subst. destruct (decide (k' = k)) as [->|Hne]; [| auto].
  intros [= <-]. assumption.
Qed.

(** The value of the first key of a list without double keys. *)
Lemma mapGet_middle k v (before after : Map K V) :
  ~ In k (mapKeys before) -> mapGet k (before ++ (k, v) :: after) = Some v.
Proof.
  induction before as [|[k' v'] before IH]; simpl; intros Hn.
  - destruct (decide (k = k)); [reflexivity | contradiction].
  - destruct (decide (k' = k)) as [->|Hne]; [tauto | apply IH; tauto].
Qed.

End MapShape.

Section SetShape.

Context {A : Type} `{EqDecision A}.
Implicit Types (x : A) (s : Set_ A).

Lemma setAdd_NoDup x s : NoDup s -> NoDup (setAdd x s).
Proof.
  intros Hs. unfold setAdd. destruct (setHas x s) eqn:E; [exact Hs |].
  apply NoDup_app. repeat split; [exact Hs | | apply NoDup_singleton].
  intros y Hy Hy'. apply list_elem_of_In in Hy, Hy'. destruct Hy' as [<-|[]].
  apply setHas_In in Hy. congruence.
Qed.

Lemma setAdd_fresh x s : ~ In x s -> setAdd x s = s ++ [x].
Proof.
  intros Hn. unfold setAdd. destruct (setHas x s) eqn:E; [| reflexivity].
  apply setHas_In in E. contradiction.
Qed.

Lemma fold_setAdd_NoDup (l : list A) s :
  NoDup s -> NoDup (fold_left (fun s x => setAdd x s) l s).
Proof.
  revert s. induction l as [|x l IH]; intros s Hs; simpl; [exact Hs |].
  apply IH. apply setAdd_NoDup. exact Hs.
Qed.

(** A set made from a list has no double element. *)
Lemma setFrom_NoDup (l : list A) : NoDup (setFrom l).
Proof. apply fold_setAdd_NoDup. constructor. Qed.

Lemma fold_setAdd_fresh (l : list A) s :
  NoDup (s ++ l) -> fold_left (fun s x => setAdd x s) l s = s ++ l.
Proof.
  revert s. induction l as [|x l IH]; intros s Hs; simpl.
  - rewrite app_nil_r. reflexivity.
  - apply NoDup_app in Hs. destruct Hs as (Hs & Hdisj & Hl).
    rewrite setAdd_fresh.
    + rewrite IH; [rewrite <- app_assoc; reflexivity |].
      rewrite <- app_assoc. simpl. apply NoDup_app. auto.
    + intros Hin. apply list_elem_of_In in Hin.
      apply (Hdisj x Hin). left.
Qed.

(** ... and is the list itself when the list has none. *)
Lemma setFrom_id (l : list A) : NoDup l -> setFrom l = l.
Proof. intros Hl. unfold setFrom. rewrite fold_setAdd_fresh; auto. Qed.

End SetShape.

(* ================================================================== *)
(** ** CustomRulePathManager: the shape of the registry *)
(* ================================================================== *)

Section RegistryShape.

Import CustomRulePathManager Registry Shape.

Implicit Types (m : RulePathMap) (json : RulePathJson).

(** The callback of [addPathsForLanguage] keeps the registry free of
    doubles. *)
Lemma insertPath_wellFormed (name language entry : string) m :
  wellFormed m -> wellFormed (insertPath name language entry m).
Proof.
  intros [Hkeys Hall]. unfold insertPath.
  set (m1 := if negb (mapHas (KeyString name) m)
             then mapSet (KeyString name) [] m else m).
  assert (H1 : wellFormed m1).
  { subst m1. destruct (negb (mapHas (KeyString name) m)); [| split; assumption].
    split; [apply mapSet_NoDup; exact Hkeys |].
    apply mapSet_Forall; [exact Hall |]. simpl. split; constructor. }
  destruct H1 as [Hkeys1 Hall1].
  destruct (mapGet (KeyString name) m1) as [byLanguage|] eqn:Eby;
    [| split; assumption].
  pose proof (mapGet_Forall _ _ _ _ Hall1 Eby) as [Hlangs Hsets]. simpl in *.
  destruct (negb (mapHas language byLanguage)).
  - split; [apply mapSet_NoDup; exact Hkeys1 |].
    apply mapSet_Forall; [exact Hall1 |]. simpl.
    split; [apply mapSet_NoDup; exact Hlangs |].
    apply mapSet_Forall; [exact Hsets |]. simpl. apply setFrom_NoDup.
  - destruct (mapGet language byLanguage) as [paths|] eqn:Epaths;
      [| split; assumption].
    pose proof (mapGet_Forall _ _ _ _ Hsets Epaths) as Hpaths. simpl in Hpaths.
    split; [apply mapSet_NoDup; exact Hkeys1 |].
    apply mapSet_Forall; [exact Hall1 |]. simpl.
    split; [apply mapSet_NoDup; exact Hlangs |].
    apply mapSet_Forall; [exact Hsets |]. simpl.
    apply setAdd_NoDup. exact Hpaths.
Qed.

Lemma insertPath_keyedByName (name language entry : string) m :
  keyedByName m -> keyedByName (insertPath name language entry m).
Proof.
  unfold keyedByName. rewrite !List.Forall_forall. intros H k Hk.
  apply insertPath_keys in Hk. destruct Hk as [->|Hk]; eauto.
Qed.

(** The map read from a document is free of doubles, whatever the
    document repeats. *)
Lemma convertJsonDataToMap_wellFormed json :
  wellFormed (convertJsonDataToMap json).
Proof.
  unfold convertJsonDataToMap.
  generalize (mapKeys json) as keys.
  assert (H : wellFormed ([] : RulePathMap)) by (split; constructor).
  revert H. generalize ([] : RulePathMap) as m.
  intros m H keys. revert m H.
  induction keys as [|key keys IH]; intros m H; simpl; [exact H |].
  apply IH. destruct (mapGet key json) as [val|]; [| exact H].
  destruct H as [Hkeys Hall].
  split; [apply mapSet_NoDup; exact Hkeys |].
  apply mapSet_Forall; [exact Hall |]. simpl.
  generalize (mapKeys val) as langs.
  assert (Hi : NoDup (mapKeys ([] : RulePathEntry))
               /\ Forall (fun byLanguage : string * Set_ string =>
                            NoDup (snd byLanguage)) ([] : RulePathEntry))
    by (split; constructor).
  revert Hi. generalize ([] : RulePathEntry) as inner.
  intros inner Hi langs. revert inner Hi.
  induction langs as [|lang langs IHl]; intros inner Hi; simpl; [exact Hi |].
  apply IHl. destruct (mapGet lang val) as [paths|]; [| exact Hi].
  destruct Hi as [Hk Hs].
  split; [apply mapSet_NoDup; exact Hk |].
  apply mapSet_Forall; [exact Hs |]. simpl. apply setFrom_NoDup.
Qed.

(** Looking the keys of a list without double keys up, one after the
    other, and setting each under an image of the key, rebuilds the list
    under the images. *)
Lemma fold_lookup_rebuild {K V K' V'} `{EqDecision K} `{EqDecision K'}
    (kf : K -> K') (vf : V -> V') (l : Map K V) :
  (forall a b, kf a = kf b -> a = b) ->
  NoDup (mapKeys l) ->
  fold_left
    (fun (acc : Map K' V') k =>
       match mapGet k l with
       | None => acc
       | Some v => mapSet (kf k) (vf v) acc
       end)
    (mapKeys l) []
  = map (fun e => (kf (fst e), vf (snd e))) l.
Proof.
  intros Hinj Hn.
  assert (Hgen : forall after before,
             l = before ++ after ->
             fold_left
               (fun (acc : Map K' V') k =>
                  match mapGet k l with
                  | None => acc
                  | Some v => mapSet (kf k) (vf v) acc
                  end)
               (mapKeys after) (map (fun e => (kf (fst e), vf (snd e))) before)
             = map (fun e => (kf (fst e), vf (snd e))) l).
  { induction after as [|[k v] after IH]; intros before Hl.
    - simpl. rewrite Hl, app_nil_r. reflexivity.
    - assert (Hk : ~ In k (mapKeys before)).
      { rewrite Hl in Hn. unfold mapKeys in Hn. rewrite map_app in Hn.
        simpl in Hn. apply NoDup_app in Hn. destruct Hn as (_ & Hdisj & _).
        intros Hin. apply list_elem_of_In in Hin. apply (Hdisj _ Hin). left. }
      simpl. rewrite Hl at 1. rewrite (mapGet_middle _ _ _ _ Hk).
      rewrite mapSet_fresh.
      + specialize (IH (before ++ [(k, v)])).
        rewrite map_app in IH. simpl in IH. apply IH.
        rewrite <- app_assoc. exact Hl.
      + unfold mapKeys. rewrite map_map. simpl. rewrite in_map_iff.
        intros ([k0 v0] & E & Hin). simpl in E. apply Hinj in E. subst k0.
        apply Hk. unfold mapKeys. apply in_map_iff. exists (k, v0). auto. }
  exact (Hgen l [] eq_refl).
Qed.

(** *** Assignment to the properties of a plain object *)

Lemma mapGet_app {V} (k : string) (o1 o2 : list (string * V)) :
  mapGet k (o1 ++ o2) =
  match mapGet k o1 with
  | Some v => Some v
  | None => mapGet k o2
  end.
Proof.
  induction o1 as [|[k' v'] o1 IH]; simpl; [reflexivity |].
  destruct (decide (k' = k)); [reflexivity | exact IH].
Qed.

(** A new property whose key is an array index goes between the
    properties that are there. *)
Lemma insertIndex_split {V} (index : N) (key : string) (value : V)
    (o : list (string * V)) :
  exists o1 o2,
    o = o1 ++ o2 /\ insertIndex index key value o = o1 ++ (key, value) :: o2.
Proof.
  induction o as [|[key' value'] o IH]; simpl.
  - exists [], []. auto.
  - destruct (arrayIndex key') as [index'|].
    + destruct (index' <? index)%N.
      * destruct IH as (o1 & o2 & Ho & ->).
        exists ((key', value') :: o1), o2. rewrite Ho at 1. auto.
      * exists [], ((key', value') :: o). auto.
    + exists [], ((key', value') :: o). auto.
Qed.

(** The properties after an assignment to a key other than [__proto__]. *)
Lemma objectSet_lookup {V} (key : string) (value : V) (o : list (string * V))
    (k : string) :
  key <> "__proto__" ->
  mapGet k (objectSet key value o)
  = if decide (key = k) then Some value else mapGet k o.
Proof.
  intros Hkey. unfold objectSet.
  destruct (mapHas key o) eqn:Ehas.
  { destruct (decide (key = k)) as [<-|Hne];
      [apply mapGet_mapSet_eq | apply mapGet_mapSet_ne; exact Hne]. }
  destruct (String.eqb_spec key "__proto__") as [|_]; [contradiction |].
  apply mapHas_false in Ehas.
  assert (Hmid : forall o1 o2,
             o = o1 ++ o2 ->
             mapGet k (o1 ++ (key, value) :: o2)
             = if decide (key = k) then Some value else mapGet k o).
  { intros o1 o2 Ho. rewrite Ho in Ehas |- *. rewrite mapGet_app in Ehas.
    rewrite !mapGet_app. simpl.
    destruct (decide (key = k)) as [<-|Hne]; [| reflexivity].
    destruct (mapGet key o1); [discriminate | reflexivity]. }
  destruct (arrayIndex key) as [index|].
  - destruct (insertIndex_split index key value o) as (o1 & o2 & Ho & ->).
    apply Hmid. exact Ho.
  - apply (Hmid o []). rewrite app_nil_r. reflexivity.
Qed.

(** The properties of an object after each entry of a list has been
    assigned to it, no key twice and none [__proto__]. *)
Lemma fold_objectSet_lookup {V} (entries acc : list (string * V))
    (k : string) :
  NoDup (mapKeys entries) -> ~ In "__proto__" (mapKeys entries) ->
  mapGet k
    (fold_left (fun acc '(key, value) => objectSet key value acc) entries acc)
  = match mapGet k entries with
    | Some v => Some v
    | None => mapGet k acc
    end.
Proof.
  revert acc.
  induction entries as [|[key value] entries IH]; intros acc Hn Hp; simpl;
    [reflexivity |].
  inversion Hn as [|? ? Hnotin Hn']; subst. simpl in Hp.
  rewrite IH by tauto. rewrite objectSet_lookup by tauto.
  destruct (decide (key = k)) as [<-|Hne]; [| reflexivity].
  rewrite mapGet_not_In; [reflexivity |].
  intros Hin. apply Hnotin. apply list_elem_of_In. exact Hin.
Qed.

Lemma StronglySorted_before {A} (R : A -> A -> Prop) (l1 l2 : list A) (x : A) :
  Sorted.StronglySorted R (l1 ++ x :: l2) -> Forall (fun y => R y x) l1.
Proof.
  induction l1 as [|a l1 IH]; simpl; intros Hs; [constructor |].
  apply Sorted.StronglySorted_inv in Hs. destruct Hs as [Hs Ha].
  constructor; [| exact (IH Hs)].
  rewrite List.Forall_forall in Ha. apply Ha. apply in_or_app. right. left.
  reflexivity.
Qed.

(** A key that keeps its place after every key of the object becomes its
    last property. *)
Lemma insertIndex_last {V} (index : N) (key : string) (value : V)
    (o : list (string * V)) :
  arrayIndex key = Some index ->
  Forall (fun key' => keyBefore key' key = true) (mapKeys o) ->
  insertIndex index key value o = o ++ [(key, value)].
Proof.
  intros Hindex. induction o as [|[key' value'] o IH]; simpl; intros Hall;
    [reflexivity |].
  inversion Hall as [|? ? Hhead Hall']; subst.
  unfold keyBefore in Hhead. rewrite Hindex in Hhead.
  destruct (arrayIndex key') as [index'|]; [| discriminate].
  rewrite Hhead, (IH Hall'). reflexivity.
Qed.

Lemma objectSet_last {V} (key : string) (value : V) (o : list (string * V)) :
  ~ In key (mapKeys o) -> key <> "__proto__" ->
  Forall (fun key' => keyBefore key' key = true) (mapKeys o) ->
  objectSet key value o = o ++ [(key, value)].
Proof.
  intros Hnotin Hkey Hall. unfold objectSet.
  rewrite (proj2 (mapHas_false key o)) by (apply mapGet_not_In; exact Hnotin).
  destruct (String.eqb_spec key "__proto__") as [|_]; [contradiction |].
  destruct (arrayIndex key) as [index|] eqn:Eindex; [| reflexivity].
  apply insertIndex_last; assumption.
Qed.

Lemma objectKeys_split {V} (before : list (string * V)) (key : string)
    (value : V) (after : list (string * V)) :
  objectKeys (mapKeys (before ++ (key, value) :: after)) ->
  ~ In key (mapKeys before)
  /\ key <> "__proto__"
  /\ Forall (fun key' => keyBefore key' key = true) (mapKeys before).
Proof.
  unfold objectKeys, mapKeys. rewrite map_app. simpl.
  intros (Hn & Hp & Hs). split; [| split].
  - apply NoDup_app in Hn. destruct Hn as (_ & Hdisj & _).
    intros Hin. apply list_elem_of_In in Hin. apply (Hdisj _ Hin). left.
  - intros ->. apply Hp. apply in_or_app. right. left. reflexivity.
  - exact (StronglySorted_before _ _ _ _ Hs).
Qed.

(** Assigning the properties of an object, in their order, to an empty
    object rebuilds the object. *)
Lemma fold_objectSet_rebuild {V} (entries before : list (string * V)) :
  objectKeys (mapKeys (before ++ entries)) ->
  fold_left (fun acc '(key, value) => objectSet key value acc) entries before
  = before ++ entries.
Proof.
  revert before. induction entries as [|[key value] entries IH];
    intros before Hk.
  - simpl. rewrite app_nil_r. reflexivity.
  - simpl. destruct (objectKeys_split _ _ _ _ Hk) as (Hnotin & Hkey & Hall).
    rewrite objectSet_last by assumption.
    rewrite IH; rewrite <- app_assoc; [reflexivity | exact Hk].
Qed.

(** *** Reading and writing the document *)

(** The [Map] read for an engine of the document. *)
Local Abbreviation innerMap val :=
  (fold_left
     (fun (innerMap : RulePathEntry) lang =>
        match mapGet lang val with
        | None => innerMap
        | Some paths => mapSet lang (setFrom paths) innerMap
        end)
     (mapKeys val) []).

(** The object written for an engine of the registry. *)
Local Abbreviation innerObj pathsByLang :=
  (fold_left
     (fun innerObj '(lang, paths) => objectSet lang paths innerObj)
     (pathsByLang : RulePathEntry) ([] : list (string * list string))).

(** Reading a document free of doubles gives the map of its entries. *)
Lemma convertJsonDataToMap_keyed json :
  NoDup (mapKeys json) ->
  Forall
    (fun byEngine =>
       NoDup (mapKeys (snd byEngine))
       /\ Forall (fun byLanguage => NoDup (snd byLanguage)) (snd byEngine))
    json ->
  convertJsonDataToMap json = keyed json.
Proof.
  intros Hkeys Hall. unfold convertJsonDataToMap, keyed.
  rewrite (fold_lookup_rebuild KeyString
             (fun val : list (string * list string) => innerMap val)
             json); [| congruence | exact Hkeys].
  apply map_ext_in. intros [name val] Hin. simpl. f_equal.
  rewrite List.Forall_forall in Hall. destruct (Hall _ Hin) as [Hlangs Hsets].
  simpl in *.
  rewrite (fold_lookup_rebuild (fun lang : string => lang) setFrom val);
    [| auto | exact Hlangs].
  rewrite <- (map_id val) at 2. apply map_ext_in. intros [lang paths] Hin'.
  simpl. f_equal. apply setFrom_id.
  rewrite List.Forall_forall in Hsets. exact (Hsets _ Hin').
Qed.

(** Reading a well-formed document gives the map of its entries, and
    writing that map gives the document. *)
Lemma json_read_write json :
  wellFormedJson json ->
  convertJsonDataToMap json = keyed json
  /\ convertMapToJson (keyed json) = Return json.
Proof.
  intros [Hkeys Hall]. split.
  { apply convertJsonDataToMap_keyed; [exact (proj1 Hkeys) |].
    eapply List.Forall_impl; [| exact Hall]. intros byEngine [[Hn _] Hs].
    auto. }
  unfold convertMapToJson, keyed.
  assert (Hgen : forall after before,
             json = before ++ after ->
             fold_left
               (fun (acc : Outcome RulePathJson) '(engine, pathsByLang) =>
                  match acc with
                  | Throw e => Throw e
                  | Return acc =>
                      match toString engine with
                      | Throw e => Throw e
                      | Return engine =>
                          Return (objectSet engine (innerObj pathsByLang) acc)
                      end
                  end)
               (map (fun byEngine => (KeyString (fst byEngine), snd byEngine))
                  after)
               (Return before)
             = Return json).
  { induction after as [|[name val] after IH]; intros before Hl.
    - simpl. rewrite Hl, app_nil_r. reflexivity.
    - simpl.
      assert (Hin : In (name, val) json).
      { rewrite Hl. apply in_or_app. right. left. reflexivity. }
      rewrite List.Forall_forall in Hall. destruct (Hall _ Hin) as [Hlangs _].
      simpl in Hlangs.
      rewrite (fold_objectSet_rebuild val []) by exact Hlangs. simpl.
      rewrite Hl in Hkeys.
      destruct (objectKeys_split _ _ _ _ Hkeys) as (Hnotin & Hkey & Hbefore).
      rewrite objectSet_last by assumption.
      apply IH. rewrite <- app_assoc. exact Hl. }
  exact (Hgen json [] eq_refl).
Qed.

(** X7.  A document whose objects have their keys in the order of
    [Object.keys], none of them [__proto__], and whose arrays repeat no
    path is read into the map that has its entries, in their order, and
    that map is written back as the same document. *)
Theorem document_round_trip json :
  wellFormedJson json ->
  convertJsonDataToMap json = keyed json
  /\ convertMapToJson (convertJsonDataToMap json) = Return json.
Proof.
  intros Hj. destruct (json_read_write json Hj) as [Hread Hwrite].
  rewrite Hread. auto.
Qed.

(** The properties of the document written for a registry keyed by names,
    in which no key occurs twice and none is [__proto__]. *)
Lemma convertMapToJson_lookup m :
  keyedByName m -> NoDup (mapKeys m) ->
  ~ In (KeyString "__proto__") (mapKeys m) ->
  exists json,
    convertMapToJson m = Return json
    /\ forall name,
         mapGet name json
         = (fun pathsByLang => innerObj pathsByLang)
             <$> mapGet (KeyString name) m.
Proof.
  intros Hk Hn Hp. unfold convertMapToJson.
  assert (Hgen : forall (acc : RulePathJson),
             exists json,
               fold_left
                 (fun (acc : Outcome RulePathJson) '(engine, pathsByLang) =>
                    match acc with
                    | Throw e => Throw e
                    | Return acc =>
                        match toString engine with
                        | Throw e => Throw e
                        | Return engine =>
                            Return (objectSet engine (innerObj pathsByLang) acc)
                        end
                    end)
                 m (Return acc)
               = Return json
               /\ forall name,
                    mapGet name json
                    = match mapGet (KeyString name) m with
                      | Some pathsByLang => Some (innerObj pathsByLang)
                      | None => mapGet name acc
                      end).
  { induction m as [|[k pathsByLang] m IH]; intros acc.
    - exists acc. auto.
    - inversion Hk as [|? ? [engine ->] Hk']; subst.
      inversion Hn as [|? ? Hnotin Hn']; subst.
      simpl in Hp. simpl.
      destruct (IH Hk' Hn' ltac:(tauto)
                  (objectSet engine (innerObj pathsByLang) acc))
        as (json & -> & Hget).
      exists json. split; [reflexivity |]. intros name. rewrite Hget.
      destruct (decide (KeyString engine = KeyString name)) as [[= ->]|Hne].
      + rewrite mapGet_not_In.
        * rewrite objectSet_lookup by (intros ->; tauto).
          destruct (decide (name = name)); [reflexivity | contradiction].
        * intros Hin. apply Hnotin. apply list_elem_of_In. exact Hin.
      + destruct (mapGet (KeyString name) m); [reflexivity |].
        rewrite objectSet_lookup by (intros ->; tauto).
        destruct (decide (engine = name)) as [->|_];
          [contradiction | reflexivity]. }
  destruct (Hgen []) as (json & Hjson & Hget). exists json.
  split; [exact Hjson |]. intros name. rewrite Hget.
  destruct (mapGet (KeyString name) m); reflexivity.
Qed.

Lemma mapGet_key_In {K V} `{EqDecision K} (key : K) (o : Map K V) :
  In key (mapKeys o) -> mapGet key o <> None.
Proof.
  induction o as [|[k' v'] o IH]; simpl; [tauto |].
  destruct (decide (k' = key)) as [|Hne]; [discriminate |].
  intros [E|Hin]; [contradiction | auto].
Qed.

(** The paths that the [Map] read for an engine has for a language. *)
Lemma innerMap_lookup (val : list (string * list string)) (lang : string) :
  mapGet lang (innerMap val) = setFrom <$> mapGet lang val.
Proof.
  assert (Hgen : forall langs (acc : RulePathEntry),
             (forall l, In l langs -> mapGet l val <> None) ->
             mapGet lang
               (fold_left
                  (fun (innerMap : RulePathEntry) lang =>
                     match mapGet lang val with
                     | None => innerMap
                     | Some paths => mapSet lang (setFrom paths) innerMap
                     end)
                  langs acc)
             = if in_dec string_dec lang langs
               then setFrom <$> mapGet lang val
               else mapGet lang acc).
  { induction langs as [|l langs IH]; intros acc Hin; cbn [fold_left].
    - destruct (in_dec string_dec lang []) as [[]|_]. reflexivity.
    - rewrite IH by (intros; apply Hin; right; assumption).
      destruct (mapGet l val) as [paths|] eqn:El;
        [| destruct (Hin l (or_introl eq_refl) El)].
      destruct (in_dec string_dec lang langs) as [Hl|Hl];
        destruct (in_dec string_dec lang (l :: langs)) as [Hl'|Hl'];
        try reflexivity.
      + destruct Hl'. right. exact Hl.
      + destruct Hl' as [->|Hl']; [| contradiction].
        rewrite mapGet_mapSet_eq, El. reflexivity.
      + apply mapGet_mapSet_ne. intros ->. apply Hl'. left. reflexivity. }
  rewrite Hgen by (intros l; apply mapGet_key_In).
  destruct (in_dec string_dec lang (mapKeys val)) as [Hin|Hn];
    [reflexivity |].
  rewrite (mapGet_not_In _ _ Hn). reflexivity.
Qed.

(** The [Map] that is read for an engine of a document. *)
Lemma convertJsonDataToMap_lookup json (k : Key) :
  mapGet k (convertJsonDataToMap json)
  = match k with
    | KeyString name =>
        (fun val : list (string * list string) => innerMap val)
          <$> mapGet name json
    | _ => None
    end.
Proof.
  unfold convertJsonDataToMap.
  assert (Hgen : forall keys (acc : RulePathMap),
             (forall key, In key keys -> mapGet key json <> None) ->
             mapGet k
               (fold_left
                  (fun (map : RulePathMap) key =>
                     match mapGet key json with
                     | None => map
                     | Some val => mapSet (KeyString key) (innerMap val) map
                     end)
                  keys acc)
             = match k with
               | KeyString name =>
                   if in_dec string_dec name keys
                   then (fun val : list (string * list string) => innerMap val)
                          <$> mapGet name json
                   else mapGet k acc
               | _ => mapGet k acc
               end).
  { induction keys as [|key keys IH]; intros acc Hin; cbn [fold_left].
    - destruct k; reflexivity.
    - rewrite IH by (intros; apply Hin; right; assumption).
      destruct (mapGet key json) as [val|] eqn:Ekey;
        [| destruct (Hin key (or_introl eq_refl) Ekey)].
      destruct k as [name| |];
        [| apply mapGet_mapSet_ne; discriminate
         | apply mapGet_mapSet_ne; discriminate].
      destruct (in_dec string_dec name keys) as [Hl|Hl];
        destruct (in_dec string_dec name (key :: keys)) as [Hl'|Hl'];
        try reflexivity.
      + destruct Hl'. right. exact Hl.
      + destruct Hl' as [->|Hl']; [| contradiction].
        rewrite mapGet_mapSet_eq, Ekey. reflexivity.
      + apply mapGet_mapSet_ne. intros [= ->]. apply Hl'. left. reflexivity. }
  rewrite Hgen by (intros key; apply mapGet_key_In).
  destruct k as [name| |]; try reflexivity.
  destruct (in_dec string_dec name (mapKeys json)) as [Hin|Hn];
    [reflexivity |].
  rewrite (mapGet_not_In _ _ Hn). reflexivity.
Qed.

Lemma keyedByName_lookup m (k : Key) :
  keyedByName m -> (forall name, k <> KeyString name) -> mapGet k m = None.
Proof.
  intros Hk Hne. apply mapGet_not_In. intros Hin.
  unfold keyedByName in Hk. rewrite List.Forall_forall in Hk.
  destruct (Hk _ Hin) as [name ->]. exact (Hne name eq_refl).
Qed.

(** Writing a registry and reading the document gives a registry with the
    same entries. *)
Lemma map_write_read m :
  keyedByName m -> wellFormed m -> noProto m ->
  exists json,
    convertMapToJson m = Return json
    /\ sameEntries m (convertJsonDataToMap json).
Proof.
  intros Hk [Hn Hall] [Hp Hpall].
  destruct (convertMapToJson_lookup m Hk Hn Hp) as (json & Hjson & Hget).
  exists json. split; [exact Hjson |].
  intros k. rewrite convertJsonDataToMap_lookup.
  destruct k as [name| |].
  2,3: rewrite (keyedByName_lookup m _ Hk) by discriminate; exact I.
  rewrite Hget.
  destruct (mapGet (KeyString name) m) as [pathsByLang|] eqn:Em; simpl;
    [| exact I].
  intros language. rewrite innerMap_lookup.
  pose proof (mapGet_Forall _ _ _ _ Hall Em) as [Hlangs Hsets].
  assert (Hproto : ~ In "__proto__" (mapKeys pathsByLang))
    by exact (mapGet_Forall _ _ _ _ Hpall Em).
  simpl in *.
  rewrite fold_objectSet_lookup by assumption. simpl.
  destruct (mapGet language pathsByLang) as [paths|] eqn:El; simpl;
    [| reflexivity].
  f_equal. symmetry. apply setFrom_id.
  exact (mapGet_Forall _ _ _ _ Hsets El).
Qed.

(** X8.  A registry keyed by names, in which no engine, language or path
    occurs twice and no engine or language is called [__proto__], is
    written as a document from which a registry with the same engines,
    languages and paths is read; it is the same registry, in the same
    order, when the keys of the registry are in the order of
    [Object.keys]. *)
Theorem registry_round_trip m :
  keyedByName m -> wellFormed m -> noProto m ->
  exists json,
    convertMapToJson m = Return json
    /\ sameEntries m (convertJsonDataToMap json)
    /\ (forall json',
          m = keyed json' -> wellFormedJson json' ->
          json = json' /\ convertJsonDataToMap json = m).
Proof.
  intros Hk Hw Hp. destruct (map_write_read m Hk Hw Hp) as (json & Hj & Hs).
  exists json. split; [exact Hj |]. split; [exact Hs |].
  intros json' -> Hj'. destruct (json_read_write json' Hj') as [Hr Hwr].
  rewrite Hwr in Hj. injection Hj as <-. auto.
Qed.

End RegistryShape.

(** Keys that are array indices, and keys that are not. *)
Example arrayIndex_scenarios :
  arrayIndex "0" = Some 0%N
  /\ arrayIndex "17" = Some 17%N
  /\ arrayIndex "4294967294" = Some 4294967294%N
  /\ arrayIndex "4294967295" = None
  /\ arrayIndex "017" = None
  /\ arrayIndex "1.5" = None
  /\ arrayIndex "-1" = None
  /\ arrayIndex "" = None
  /\ arrayIndex "apex" = None.
Proof. repeat split. Qed.

(** A registry whose languages were added as [b] and then [1] is written
    with [1] first, and a language called [__proto__] is not written. *)
Example convertMapToJson_scenarios :
  CustomRulePathManager.convertMapToJson Examples.unorderedRegistry
  = Return [("pmd", [("1", ["/r/MyRules.jar"]); ("b", ["/r/MyRules.jar"])])]
  /\ CustomRulePathManager.convertMapToJson
       [(CustomRulePathManager.KeyString "pmd",
         [("__proto__", ["/r/MyRules.jar"])])]
     = Return [("pmd", [])].
Proof. split; reflexivity. Qed.

(** The shape of a given document or registry. *)
Ltac shape :=
  repeat match goal with
         | |- _ /\ _ => split
         | |- NoDup _ => apply (bool_decide_unpack _); vm_compute; exact I
         | |- ~ In _ _ => simpl; intuition discriminate
         | |- Sorted.StronglySorted _ _ => repeat constructor
         | |- Forall _ [] => constructor
         | |- Forall _ (_ :: _) => constructor
         | |- _ => progress cbn beta iota delta [snd fst]
         end.

(** The document of one archive, read and written back. *)
Lemma document_round_trip_witness :
  CustomRulePathManager.convertJsonDataToMap Examples.savedDocument
  = Shape.keyed Examples.savedDocument
  /\ CustomRulePathManager.convertMapToJson
       (CustomRulePathManager.convertJsonDataToMap Examples.savedDocument)
     = Return Examples.savedDocument.
Proof.
  apply (document_round_trip Examples.savedDocument).
  unfold Shape.wellFormedJson, Shape.objectKeys, Examples.savedDocument.
  shape.
Defined.

(** A registry whose languages are [b] and then [1] is written with [1]
    first, and read back with the same paths. *)
Lemma registry_round_trip_witness :
  exists json,
    CustomRulePathManager.convertMapToJson Examples.unorderedRegistry
    = Return json
    /\ Shape.sameEntries Examples.unorderedRegistry
         (CustomRulePathManager.convertJsonDataToMap json)
    /\ (forall json',
          Examples.unorderedRegistry = Shape.keyed json' ->
          Shape.wellFormedJson json' ->
          json = json'
          /\ CustomRulePathManager.convertJsonDataToMap json
             = Examples.unorderedRegistry).
Proof.
  apply (registry_round_trip Examples.unorderedRegistry).
  - unfold Registry.keyedByName. simpl. repeat constructor. eexists. reflexivity.
  - unfold Shape.wellFormed, Examples.unorderedRegistry. shape.
  - unfold Shape.noProto, Examples.unorderedRegistry. shape.
Defined.

(* ================================================================== *)
(** ** CustomRulePathManager: what holds in every state of a manager *)
(* ================================================================== *)

Section Invariant.

Import CustomRulePathManager Registry Shape.

Variable engines : list RuleEngine.
Variable fileHandler : FileHandler.
Variable JSON_parse : string -> Outcome RulePathJson.
Variable JSON_stringify : RulePathJson -> string.
Variable path_resolve : string -> string -> string.
Variable SFDX_SCANNER_PATH : string.
Variable filePath : string.

Local Abbreviation determineEngineForPath := (determineEngineForPath engines).
Local Abbreviation addEntry := (addEntry engines).
Local Abbreviation initialize := (initialize JSON_parse).
Local Abbreviation expandPaths := (expandPaths fileHandler path_resolve).
Local Abbreviation saveCustomClasspaths :=
  (saveCustomClasspaths fileHandler JSON_parse JSON_stringify
     SFDX_SCANNER_PATH filePath).
Local Abbreviation addPathsForLanguage :=
  (addPathsForLanguage engines fileHandler JSON_parse JSON_stringify
     path_resolve SFDX_SCANNER_PATH filePath).
Local Abbreviation getMatchingPaths :=
  (getMatchingPaths engines fileHandler JSON_parse path_resolve).
Local Abbreviation removePathsForLanguage :=
  (removePathsForLanguage engines fileHandler JSON_parse JSON_stringify
     path_resolve SFDX_SCANNER_PATH filePath).
Local Abbreviation getRulePathEntries := (getRulePathEntries JSON_parse).
Local Abbreviation Reachable :=
  (Reachable engines fileHandler JSON_parse JSON_stringify path_resolve
     SFDX_SCANNER_PATH filePath).

Implicit Types (st : State) (language : string) (paths : list string).

(** The registry is keyed by names and free of doubles. *)
Local Abbreviation sound st :=
  (keyedByName (pathsByLanguageByEngine st)
   /\ wellFormed (pathsByLanguageByEngine st)).

Lemma initialize_sound st : sound st -> sound (snd (initialize st)).
Proof.
  intros Hs. destruct (initialized st) eqn:Ei.
  - rewrite (initialize_again JSON_parse st Ei). exact Hs.
  - rewrite (initialize_first JSON_parse st Ei).
    destruct (customRulePathFile st) as [data|code message].
    + destruct (JSON_parse _); simpl; [| exact Hs].
      split; [apply convertJsonDataToMap_keyedByName
             | apply convertJsonDataToMap_wellFormed].
    + destruct (String.eqb code "ENOENT"); [| exact Hs].
      destruct (JSON_parse _); simpl; [| exact Hs].
      split; [apply convertJsonDataToMap_keyedByName
             | apply convertJsonDataToMap_wellFormed].
Qed.

Lemma forEach_addEntry_sound language (entries : list string) st r st' :
  forEach (addEntry language) entries st = (r, st') -> sound st -> sound st'.
Proof.
  revert st. induction entries as [|entry entries IH]; intros st.
  - intros [= <- <-]. auto.
  - rewrite forEach_cons.
    destruct (determineEngineForPath entry) as [e|] eqn:Ee.
    + rewrite (addEntry_attributed _ _ _ _ _ Ee). intros Hrun [Hk Hw].
      apply (IH _ Hrun). simpl.
      split; [apply insertPath_keyedByName | apply insertPath_wellFormed];
        assumption.
    + rewrite (addEntry_unattributed _ _ _ _ Ee). intros [= <- <-]. auto.
Qed.

Lemma addPathsForLanguage_sound language paths st :
  sound st -> sound (snd (addPathsForLanguage language paths st)).
Proof.
  intros Hs. pose proof (initialize_sound st Hs) as Hs0.
  destruct (addPathsForLanguage_cases engines fileHandler JSON_parse
              JSON_stringify path_resolve SFDX_SCANNER_PATH filePath
              language paths st)
    as [(e & _ & H)|(st0 & Hinit & _ & [(e & _ & H)|
         (l & r & st1 & _ & Hloop & _ & _ & [(e & _ & H)|
           (_ & rs & st2 & _ & _ & Hmap & H)])])];
    rewrite H; simpl; try exact Hs; rewrite Hinit in Hs0; simpl in Hs0;
    try exact Hs0.
  - exact (forEach_addEntry_sound _ _ _ _ _ Hloop Hs0).
  - rewrite Hmap. exact (forEach_addEntry_sound _ _ _ _ _ Hloop Hs0).
Qed.

Lemma removePathsForLanguage_sound language paths st :
  sound st -> sound (snd (removePathsForLanguage language paths st)).
Proof.
  intros Hs. pose proof (initialize_sound st Hs) as Hs0.
  destruct (initialize_cases JSON_parse st) as [(st0 & Hinit & Hi0)|(e & Hinit)].
  - rewrite Hinit in Hs0. simpl in Hs0.
    assert (E : removePathsForLanguage language paths st
                = removePathsForLanguage language paths st0).
    { unfold CustomRulePathManager.removePathsForLanguage.
      match goal with
      | |- (initialize;; ?rest) st = _ =>
          destruct (after_initialize JSON_parse rest st st0 Hinit Hi0)
            as [E1 E2]; rewrite E1, E2
      end. reflexivity. }
    rewrite E.
    destruct (removePathsForLanguage_keyedByName engines fileHandler
                JSON_parse JSON_stringify path_resolve SFDX_SCANNER_PATH
                filePath language paths st0 Hi0 (proj1 Hs0)) as [Hmap _].
    rewrite Hmap. exact Hs0.
  - unfold CustomRulePathManager.removePathsForLanguage.
    rewrite (initialize_fatal JSON_parse _ _ _ Hinit). exact Hs.
Qed.

Lemma queries_sound language paths (engine : string) st :
  sound st ->
  sound (snd (getMatchingPaths language paths st))
  /\ sound (snd (getRulePathEntries engine st)).
Proof.
  intros Hs. pose proof (initialize_sound st Hs) as Hs0.
  unfold CustomRulePathManager.getMatchingPaths,
    CustomRulePathManager.getRulePathEntries.
  rewrite !bind_unfold.
  destruct (initialize st) as [[[]|e] st0]; [| auto]. simpl in Hs0. split.
  - rewrite bind_unfold. unfold lift.
    destruct (expandPaths paths); exact Hs0.
  - monad_simpl.
    destruct (mapGet (KeyString engine) (pathsByLanguageByEngine st0));
      exact Hs0.
Qed.

Lemma Reachable_sound file st : Reachable file st -> sound st.
Proof.
  induction 1 as [|st language paths _ IH|st language paths _ IH
                 |st language paths _ IH|st engine _ IH].
  - split; [constructor | split; constructor].
  - apply addPathsForLanguage_sound. exact IH.
  - apply (queries_sound language paths "" st IH).
  - apply removePathsForLanguage_sound. exact IH.
  - apply (queries_sound "" [] engine st IH).
Qed.

(** Where a key of the registry comes from: it is the name of an engine
    of the manager that owns a path, or a key of the document that the
    first initialisation read. *)
Local Abbreviation known file :=
  (fun k : Key =>
     exists name,
       k = KeyString name
       /\ ((exists e entry,
              determineEngineForPath entry = Some e /\ name = getName e)
           \/ exists json,
                loadedDocument JSON_parse file = Some json
                /\ In name (mapKeys json))).

(** Every key of the registry is known, and a manager that has not been
    initialised is still next to the file it started with. *)
Local Abbreviation traced file st :=
  (Forall (known file) (mapKeys (pathsByLanguageByEngine st))
   /\ (initialized st = false -> customRulePathFile st = file)).

Lemma convertJsonDataToMap_keys (json : RulePathJson) (k : Key) :
  In k (mapKeys (convertJsonDataToMap json)) ->
  exists name, k = KeyString name /\ In name (mapKeys json).
Proof.
  intros Hin. apply mapGet_key_In in Hin.
  rewrite convertJsonDataToMap_lookup in Hin.
  destruct k as [name| |]; try contradiction.
  exists name. split; [reflexivity |].
  destruct (mapGet name json) as [val|] eqn:E; [| contradiction].
  exact (mapGet_In _ _ _ E).
Qed.

Lemma traced_keyedByName file st :
  traced file st -> keyedByName (pathsByLanguageByEngine st).
Proof.
  intros [Hk _]. unfold keyedByName. eapply List.Forall_impl; [| exact Hk].
  intros k (name & -> & _). eauto.
Qed.

Lemma initialize_traced file st :
  traced file st ->
  traced file (snd (initialize st))
  /\ (forall st0, initialize st = (Return tt, st0) -> initialized st0 = true).
Proof.
  intros Ht.
  assert (Hi : initialized st = true \/ initialized st = false)
    by (destruct (initialized st); auto).
  destruct Hi as [Ei|Ei].
  { rewrite (initialize_again JSON_parse st Ei). split; [exact Ht |].
    intros st0 [= <-]. exact Ei. }
  destruct Ht as [Hk Hf]. specialize (Hf Ei).
  assert (Hload : forall json,
             loadedDocument JSON_parse file = Some json ->
             traced file
               {| initialized := true;
                  pathsByLanguageByEngine := convertJsonDataToMap json;
                  customRulePathFile := file |}).
  { intros json Hjson. simpl. split; [| discriminate].
    apply List.Forall_forall. intros k Hin.
    apply convertJsonDataToMap_keys in Hin.
    destruct Hin as (name & -> & Hin). exists name. eauto. }
  assert (Hsame : traced file st) by (split; [exact Hk | auto]).
  rewrite (initialize_first JSON_parse st Ei), Hf.
  destruct file as [data|code message].
  - destruct (JSON_parse _) as [json|e] eqn:Ep; simpl.
    + split; [| intros st0 [= <-]; reflexivity].
      apply Hload. unfold loadedDocument. rewrite Ep. reflexivity.
    + split; [exact Hsame | discriminate].
  - destruct (String.eqb code "ENOENT") eqn:Ec.
    + destruct (JSON_parse _) as [json|e] eqn:Ep; simpl.
      * split; [| intros st0 [= <-]; reflexivity].
        apply Hload. unfold loadedDocument. rewrite Ec, Ep. reflexivity.
      * split; [exact Hsame | discriminate].
    + split; [exact Hsame | discriminate].
Qed.

Lemma forEach_addEntry_traced file language (entries : list string) st r st' :
  forEach (addEntry language) entries st = (r, st') ->
  initialized st = true ->
  traced file st -> traced file st'.
Proof.
  intros Hloop Hi [Hk _].
  destruct (forEach_addEntry_frame _ _ _ _ _ _ Hloop) as [Hi' _].
  split; [| congruence].
  apply List.Forall_forall. intros k Hin.
  destruct (forEach_addEntry_keys _ _ _ _ _ _ _ Hloop Hin)
    as [Hold|(e & entry & _ & He & ->)].
  - rewrite List.Forall_forall in Hk. exact (Hk _ Hold).
  - exists (getName e). split; [reflexivity |]. left. eauto.
Qed.

Lemma addPathsForLanguage_traced file language paths st :
  traced file st -> traced file (snd (addPathsForLanguage language paths st)).
Proof.
  intros Ht. destruct (initialize_traced file st Ht) as [Ht0 _].
  destruct (addPathsForLanguage_cases engines fileHandler JSON_parse
              JSON_stringify path_resolve SFDX_SCANNER_PATH filePath
              language paths st)
    as [(e & _ & H)|(st0 & Hinit & Hi0 & [(e & _ & H)|
         (l & r & st1 & _ & Hloop & _ & _ & [(e & _ & H)|
           (_ & rs & st2 & _ & Hi2 & Hmap & H)])])];
    rewrite H; simpl; try exact Ht; rewrite Hinit in Ht0; simpl in Ht0;
    try exact Ht0.
  - exact (forEach_addEntry_traced _ _ _ _ _ _ Hloop Hi0 Ht0).
  - pose proof (forEach_addEntry_traced _ _ _ _ _ _ Hloop Hi0 Ht0) as [Hk1 _].
    split; [rewrite Hmap; exact Hk1 | congruence].
Qed.

Lemma removePathsForLanguage_traced file language paths st :
  traced file st ->
  traced file (snd (removePathsForLanguage language paths st)).
Proof.
  intros Ht. destruct (initialize_traced file st Ht) as [Ht0 _].
  destruct (initialize_cases JSON_parse st) as [(st0 & Hinit & Hi0)|(e & Hinit)].
  - rewrite Hinit in Ht0. simpl in Ht0.
    assert (E : removePathsForLanguage language paths st
                = removePathsForLanguage language paths st0).
    { unfold CustomRulePathManager.removePathsForLanguage.
      match goal with
      | |- (initialize;; ?rest) st = _ =>
          destruct (after_initialize JSON_parse rest st st0 Hinit Hi0)
            as [E1 E2]; rewrite E1, E2
      end. reflexivity. }
    rewrite E.
    pose proof (traced_keyedByName _ _ Ht0) as Hk0.
    destruct (removePathsForLanguage_keyedByName engines fileHandler
                JSON_parse JSON_stringify path_resolve SFDX_SCANNER_PATH
                filePath language paths st0 Hi0 Hk0) as [Hmap _].
    pose proof (removePathsForLanguage_initialized engines fileHandler
                  JSON_parse JSON_stringify path_resolve SFDX_SCANNER_PATH
                  filePath language paths st0 Hi0 Hk0) as Hi.
    split; [rewrite Hmap; exact (proj1 Ht0) | congruence].
  - unfold CustomRulePathManager.removePathsForLanguage.
    rewrite (initialize_fatal JSON_parse _ _ _ Hinit). exact Ht.
Qed.

Lemma queries_traced file language paths (engine : string) st :
  traced file st ->
  traced file (snd (getMatchingPaths language paths st))
  /\ traced file (snd (getRulePathEntries engine st)).
Proof.
  intros Ht. destruct (initialize_traced file st Ht) as [Ht0 _].
  unfold CustomRulePathManager.getMatchingPaths,
    CustomRulePathManager.getRulePathEntries.
  rewrite !bind_unfold.
  destruct (initialize st) as [[[]|e] st0]; [| auto]. simpl in Ht0. split.
  - rewrite bind_unfold. unfold lift.
    destruct (expandPaths paths); exact Ht0.
  - monad_simpl.
    destruct (mapGet (KeyString engine) (pathsByLanguageByEngine st0));
      exact Ht0.
Qed.

Lemma Reachable_traced file st : Reachable file st -> traced file st.
Proof.
  induction 1 as [|st language paths _ IH|st language paths _ IH
                 |st language paths _ IH|st engine _ IH].
  - split; [constructor | reflexivity].
  - apply addPathsForLanguage_traced. exact IH.
  - apply (queries_traced file language paths "" st IH).
  - apply removePathsForLanguage_traced. exact IH.
  - apply (queries_traced file "" [] engine st IH).
Qed.

(** X9.  In every state that the public methods lead a manager to, every
    key of the registry is a string and never an engine: it is the name
    of an engine of the manager that owns some path, or a key of the
    document that the first initialisation read from the persisted
    file. *)
Theorem registry_invariant file st :
  Reachable file st ->
  Forall
    (fun k : Key =>
       exists name,
         k = KeyString name
         /\ ((exists e entry,
                determineEngineForPath entry = Some e /\ name = getName e)
             \/ exists json,
                  loadedDocument JSON_parse file = Some json
                  /\ In name (mapKeys json)))
    (mapKeys (pathsByLanguageByEngine st)).
Proof. intros Hreach. exact (proj1 (Reachable_traced file st Hreach)). Qed.

(** X10.  What [addPathsForLanguage] has written, a manager that starts
    afterwards reads back: when no engine or language of the registry is
    called [__proto__], [JSON.parse] gives back the document that
    [JSON.stringify] was given, and the text is not blank, the first
    initialisation of a manager next to the written file gives a registry
    with the engines, languages and paths that the writing manager had in
    memory; it is the same registry, in the same order, when the keys of
    that registry are in the order of [Object.keys]. *)
Theorem reload_after_add file language paths st (entries : list string) st' :
  Reachable file st ->
  addPathsForLanguage language paths st = (Return entries, st') ->
  noProto (pathsByLanguageByEngine st') ->
  (forall json,
     convertMapToJson (pathsByLanguageByEngine st') = Return json ->
     JSON_parse (JSON_stringify json) = Return json
     /\ ~ blank (JSON_stringify json)) ->
  exists m',
    initialize (init (customRulePathFile st'))
    = (Return tt,
       {| initialized := true;
          pathsByLanguageByEngine := m';
          customRulePathFile := customRulePathFile st' |})
    /\ sameEntries (pathsByLanguageByEngine st') m'
    /\ (forall json,
          pathsByLanguageByEngine st' = keyed json -> wellFormedJson json ->
          m' = pathsByLanguageByEngine st').
Proof.
  intros Hreach Hadd Hproto Hparse.
  assert (Hs : sound st').
  { replace st' with (snd (addPathsForLanguage language paths st))
      by (rewrite Hadd; reflexivity).
    apply addPathsForLanguage_sound, (Reachable_sound file), Hreach. }
  destruct Hs as [Hk Hw].
  destruct (map_write_read _ Hk Hw Hproto) as (json & Hwrite & Hread).
  destruct (Hparse json Hwrite) as [Hp Hnb].
  exists (convertJsonDataToMap json).
  split; [| split; [exact Hread |]].
  - destruct (addPathsForLanguage_cases engines fileHandler JSON_parse
                JSON_stringify path_resolve SFDX_SCANNER_PATH filePath
                language paths st)
      as [(e & _ & H)|(st0 & _ & _ & [(e & _ & H)|
           (l & r & st1 & _ & _ & Hi1 & _ & [(e & _ & H)|
             (_ & rs & st2 & Hsave & _ & Hmap & H)])])];
      rewrite H in Hadd; try discriminate.
    destruct rs as [[]|e]; [| discriminate]. injection Hadd as _ <-.
    rewrite (saveCustomClasspaths_initialized fileHandler JSON_parse
               JSON_stringify SFDX_SCANNER_PATH filePath st1 Hi1) in Hsave.
    rewrite Hmap in Hwrite. rewrite Hwrite in Hsave.
    destruct (mkdirIfNotExists fileHandler SFDX_SCANNER_PATH);
      [discriminate |].
    destruct (writeFile fileHandler filePath (JSON_stringify json));
      [discriminate |].
    injection Hsave as <-. simpl in *.
    rewrite (initialize_first JSON_parse
               (init (Content (JSON_stringify json))) eq_refl). simpl.
    destruct (trim (JSON_stringify json)) eqn:Et.
    { destruct Hnb. apply trim_empty_iff. exact Et. }
    rewrite Hp. reflexivity.
  - intros json' Hkeyed Hj'.
    destruct (json_read_write json' Hj') as [Hr Hwr].
    rewrite Hkeyed, Hwr in Hwrite. injection Hwrite as <-.
    rewrite Hkeyed. exact Hr.
Qed.

End Invariant.

(** The registry after an addition next to no file: its one key is the
    name of the engine that owns the archive. *)
Lemma registry_invariant_witness :
  Forall
    (fun k : CustomRulePathManager.Key =>
       exists name,
         k = CustomRulePathManager.KeyString name
         /\ ((exists e entry,
                CustomRulePathManager.determineEngineForPath
                  [Examples.jarEngine] entry = Some e
                /\ name = getName e)
             \/ exists json,
                  Shape.loadedDocument Examples.parseSaved
                    (CustomRulePathManager.Rejected "ENOENT"
                       "no such file or directory") = Some json
                  /\ In name (mapKeys json)))
    (mapKeys (CustomRulePathManager.pathsByLanguageByEngine Examples.afterAdd)).
Proof.
  apply (registry_invariant [Examples.jarEngine] Examples.disk
           Examples.parseSaved Examples.render Examples.resolve
           Examples.scannerPath Examples.customPathsFile
           (CustomRulePathManager.Rejected "ENOENT"
              "no such file or directory")
           Examples.afterAdd).
  apply (Shape.reach_add [Examples.jarEngine] Examples.disk
           Examples.parseSaved Examples.render Examples.resolve
           Examples.scannerPath Examples.customPathsFile _ Examples.fresh
           "apex" ["/r"]).
  apply Shape.reach_init.
Defined.

(** A manager that starts next to the file written by the addition has
    the registry of the manager that wrote it. *)
Lemma reload_after_add_witness :
  exists m',
    CustomRulePathManager.initialize Examples.parseSaved
      (CustomRulePathManager.init
         (CustomRulePathManager.customRulePathFile Examples.afterAdd))
    = (Return tt,
       {| CustomRulePathManager.initialized := true;
          CustomRulePathManager.pathsByLanguageByEngine := m';
          CustomRulePathManager.customRulePathFile :=
            CustomRulePathManager.customRulePathFile Examples.afterAdd |})
    /\ Shape.sameEntries
         (CustomRulePathManager.pathsByLanguageByEngine Examples.afterAdd) m'
    /\ (forall json,
          CustomRulePathManager.pathsByLanguageByEngine Examples.afterAdd
          = Shape.keyed json ->
          Shape.wellFormedJson json ->
          m' = CustomRulePathManager.pathsByLanguageByEngine Examples.afterAdd).
Proof.
  apply (reload_after_add [Examples.jarEngine] Examples.disk
           Examples.parseSaved Examples.render Examples.resolve
           Examples.scannerPath Examples.customPathsFile
           (CustomRulePathManager.Rejected "ENOENT"
              "no such file or directory")
           "apex" ["/r"] Examples.fresh ["/r/MyRules.jar"] Examples.afterAdd).
  - apply Shape.reach_init.
  - vm_compute. reflexivity.
  - unfold Shape.noProto. vm_compute. split; [intuition discriminate |].
    repeat constructor. intuition discriminate.
  - intros json Hjson. vm_compute in Hjson. injection Hjson as <-.
    split; [vm_compute; reflexivity |].
    intros Hblank. vm_compute in Hblank. inversion Hblank as [|? ? Hc _].
    discriminate Hc.
Defined.

Section ExpansionMore.

Import CustomRulePathManager.

Variable fileHandler : FileHandler.
Variable path_resolve : string -> string -> string.

Local Abbreviation expandPaths := (expandPaths fileHandler path_resolve).

Lemma expandPaths_append (paths1 paths2 : list string) :
  expandPaths (paths1 ++ paths2) =
  match expandPaths paths1 with
  | Throw e => Throw e
  | Return entries1 =>
      match expandPaths paths2 with
      | Throw e => Throw e
      | Return entries2 => Return (entries1 ++ entries2)
      end
  end.
Proof.
  induction paths1 as [|p paths1 IH].
  - simpl. change (expandPaths []) with (Return ([] : list string)).
    destruct (expandPaths paths2); reflexivity.
  - rewrite <- app_comm_cons, !expandPaths_cons, IH.
    destruct (stats fileHandler p); [| reflexivity].
    destruct (expandPaths paths1); [| reflexivity].
    destruct (expandPaths paths2); [| reflexivity].
    rewrite app_assoc. reflexivity.
Qed.

(** X11.  The expansion of two lists of patterns, one after the other, is
    the expansion of the first followed by that of the second, and fails
    as the first of them that fails; a path that two patterns give is
    given twice. *)
Theorem expandPaths_concatenation (paths1 paths2 : list string) :
  expandPaths (paths1 ++ paths2) =
  match expandPaths paths1 with
  | Throw e => Throw e
  | Return entries1 =>
      match expandPaths paths2 with
      | Throw e => Throw e
      | Return entries2 => Return (entries1 ++ entries2)
      end
  end.
Proof. apply expandPaths_append. Qed.

End ExpansionMore.

Section RepeatedPatterns.

Import CustomRulePathManager.

Variable engines : list RuleEngine.
Variable fileHandler : FileHandler.
Variable JSON_parse : string -> Outcome RulePathJson.
Variable JSON_stringify : RulePathJson -> string.
Variable path_resolve : string -> string -> string.
Variable SFDX_SCANNER_PATH : string.
Variable filePath : string.

Local Abbreviation addEntry := (addEntry engines).
Local Abbreviation initialize := (initialize JSON_parse).
Local Abbreviation expandPaths := (expandPaths fileHandler path_resolve).
Local Abbreviation saveCustomClasspaths :=
  (saveCustomClasspaths fileHandler JSON_parse JSON_stringify
     SFDX_SCANNER_PATH filePath).
Local Abbreviation addPathsForLanguage :=
  (addPathsForLanguage engines fileHandler JSON_parse JSON_stringify
     path_resolve SFDX_SCANNER_PATH filePath).

(** X12.  Patterns given twice in one call are returned twice and stored
    once: [addPathsForLanguage] on a list of patterns followed by itself
    leaves the manager and the file as on the list alone, and returns the
    expansion twice over. *)
Theorem addPathsForLanguage_repeated_patterns (language : string)
    (paths : list string) (st : State) :
  let once := addPathsForLanguage language paths st in
  let doubled := addPathsForLanguage language (paths ++ paths) st in
  snd doubled = snd once
  /\ fst doubled = match fst once with
                   | Return entries => Return (entries ++ entries)
                   | Throw e => Throw e
                   end.
Proof.
  cbv zeta.
  rewrite !(addPathsForLanguage_unfold engines fileHandler JSON_parse
              JSON_stringify path_resolve SFDX_SCANNER_PATH filePath).
  destruct (initialize st) as [[[]|e] st0]; [| auto].
  rewrite expandPaths_append.
  destruct (expandPaths paths) as [entries|e]; [| auto].
  rewrite forEach_app.
  destruct (forEach (addEntry language) entries st0) as [[[]|e] st1] eqn:Eloop;
    [| auto].
  rewrite (forEach_addEntry_again engines language entries st0 (Return tt)
             st1 st1 Eloop) by auto.
  destruct (saveCustomClasspaths st1) as [[[]|e] st2]; auto.
Qed.

End RepeatedPatterns.

(* ================================================================== *)
(** ** EslintCommons: the rules that are allowed, and the results *)
(* ================================================================== *)

Section AllowedRules.

Import EslintCommons.EslintStrategyHelper.

Implicit Types (rulesByName : Map string ESRule).

Local Abbreviation allowed :=
  (fun entry : string * ESRule => negb (deprecated (meta (snd entry)))).

(** Of a map, which has no key twice, the filter keeps the entries that
    are not deprecated, in their order. *)
Lemma filterDisallowedRules_filter rulesByName :
  NoDup (mapKeys rulesByName) ->
  filterDisallowedRules rulesByName = List.filter allowed rulesByName.
Proof.
  intros Hn. unfold filterDisallowedRules.
  assert (Hgen : forall after before,
             NoDup (mapKeys (before ++ after)) ->
             fold_left
               (fun (filteredRules : Map string ESRule) '(name, rule) =>
                  if negb (deprecated (meta rule))
                  then mapSet name rule filteredRules
                  else filteredRules)
               after (List.filter allowed before)
             = List.filter allowed (before ++ after)).
  { induction after as [|[name rule] after IH]; intros before Hb.
    - simpl. rewrite app_nil_r. reflexivity.
    - simpl.
      assert (Hb' : NoDup (mapKeys ((before ++ [(name, rule)]) ++ after)))
        by (rewrite <- app_assoc; exact Hb).
      specialize (IH (before ++ [(name, rule)]) Hb').
      rewrite <- app_assoc in IH. simpl in IH. rewrite <- IH.
      rewrite List.filter_app. simpl.
      destruct (negb (deprecated (meta rule))); [| rewrite app_nil_r; reflexivity].
      rewrite mapSet_fresh; [reflexivity |].
      unfold mapKeys in Hb. rewrite map_app in Hb. simpl in Hb.
      apply NoDup_app in Hb. destruct Hb as (_ & Hdisj & _).
      intros Hin. unfold mapKeys in Hin. apply in_map_iff in Hin.
      destruct Hin as ([n r] & E & Hin). simpl in E. subst n.
      apply filter_In in Hin. destruct Hin as [Hin _].
      apply (Hdisj name); [| left].
      apply list_elem_of_In. apply in_map_iff. exists (name, r). auto. }
  exact (Hgen rulesByName [] Hn).
Qed.

Lemma mapGet_filter (P : string * ESRule -> bool) rulesByName (name : string) :
  NoDup (mapKeys rulesByName) ->
  mapGet name (List.filter P rulesByName) =
  match mapGet name rulesByName with
  | Some rule => if P (name, rule) then Some rule else None
  | None => None
  end.
Proof.
  induction rulesByName as [|[n r] rules IH]; intros Hn; [reflexivity |].
  inversion Hn as [|? ? Hnotin Hn']; subst. simpl.
  destruct (decide (n = name)) as [->|Hne].
  - destruct (P (name, r)) eqn:EP; simpl.
    + destruct (decide (name = name)); [reflexivity | contradiction].
    + rewrite (IH Hn'). rewrite mapGet_not_In; [reflexivity |].
      intros Hin. apply Hnotin. apply list_elem_of_In. exact Hin.
  - destruct (P (n, r)); simpl; [| exact (IH Hn')].
    destruct (decide (n = name)); [contradiction | exact (IH Hn')].
Qed.

Lemma filter_keys_NoDup (P : string * ESRule -> bool) rulesByName :
  NoDup (mapKeys rulesByName) -> NoDup (mapKeys (List.filter P rulesByName)).
Proof.
  induction rulesByName as [|[n r] rules IH]; intros Hn; [constructor |].
  inversion Hn as [|? ? Hnotin Hn']; subst. simpl.
  destruct (P (n, r)); simpl; [| exact (IH Hn')].
  constructor; [| exact (IH Hn')].
  intros Hin. apply Hnotin. apply list_elem_of_In in Hin.
  apply list_elem_of_In. unfold mapKeys in *. apply in_map_iff in Hin.
  destruct Hin as (x & E & Hin). apply filter_In in Hin.
  apply in_map_iff. exists x. tauto.
Qed.

(** X13.  [filterDisallowedRules] on a map of rules keeps exactly the rules
    that are not deprecated, under their names and in their order; what it
    returns has no deprecated rule, and filtering it again changes
    nothing. *)
Theorem filterDisallowedRules_spec rulesByName :
  NoDup (mapKeys rulesByName) ->
  (forall name,
     mapGet name (filterDisallowedRules rulesByName) =
     match mapGet name rulesByName with
     | Some rule => if deprecated (meta rule) then None else Some rule
     | None => None
     end)
  /\ sublist (filterDisallowedRules rulesByName) rulesByName
  /\ Forall (fun entry => deprecated (meta (snd entry)) = false)
       (filterDisallowedRules rulesByName)
  /\ filterDisallowedRules (filterDisallowedRules rulesByName)
     = filterDisallowedRules rulesByName.
Proof.
  intros Hn. rewrite (filterDisallowedRules_filter _ Hn).
  split; [| split; [| split]].
  - intros name. rewrite (mapGet_filter _ _ _ Hn).
    destruct (mapGet name rulesByName) as [rule|]; [| reflexivity].
    simpl. destruct (deprecated (meta rule)); reflexivity.
  - clear Hn. induction rulesByName as [|x l IH]; simpl; [constructor |].
    destruct (allowed x); [apply sublist_skip | apply sublist_cons]; exact IH.
  - apply List.Forall_forall. intros x Hx. apply filter_In in Hx.
    destruct Hx as [_ Hx]. apply negb_true_iff in Hx. exact Hx.
  - rewrite filterDisallowedRules_filter by (apply filter_keys_NoDup; exact Hn).
    clear Hn. induction rulesByName as [|x l IH]; simpl; [reflexivity |].
    destruct (allowed x) eqn:E; simpl; [rewrite E, IH; reflexivity | exact IH].
Qed.

End AllowedRules.

(** Of three rules, the deprecated one is left out. *)
Lemma filterDisallowedRules_spec_witness :
  (forall name,
     mapGet name
       (EslintCommons.EslintStrategyHelper.filterDisallowedRules
          Examples.someEsRules)
     = match mapGet name Examples.someEsRules with
       | Some rule => if deprecated (meta rule) then None else Some rule
       | None => None
       end)
  /\ sublist
       (EslintCommons.EslintStrategyHelper.filterDisallowedRules
          Examples.someEsRules) Examples.someEsRules
  /\ Forall (fun entry => deprecated (meta (snd entry)) = false)
       (EslintCommons.EslintStrategyHelper.filterDisallowedRules
          Examples.someEsRules)
  /\ EslintCommons.EslintStrategyHelper.filterDisallowedRules
       (EslintCommons.EslintStrategyHelper.filterDisallowedRules
          Examples.someEsRules)
     = EslintCommons.EslintStrategyHelper.filterDisallowedRules
         Examples.someEsRules.
Proof.
  apply (filterDisallowedRules_spec Examples.someEsRules).
  apply (bool_decide_unpack _). vm_compute. exact I.
Defined.

Section RuleResults.

Import EslintCommons.EslintProcessHelper.

Variable engineName : string.
Variable ruleMap : gmap string ESRuleMetadata.
Variable processRuleViolation : string -> RuleViolation -> RuleViolation.

Local Abbreviation reported :=
  (fun r : ESResult => (0 <? length (messages r))%nat).
Local Abbreviation resultOf :=
  (fun r : ESResult =>
     toRuleResult engineName (filePath r) (messages r) ruleMap
       processRuleViolation).

Lemma addRuleResultsFromReport_append (results : list RuleResult)
    (esResults : list ESResult) :
  addRuleResultsFromReport engineName results esResults ruleMap
    processRuleViolation
  = results ++ map resultOf (List.filter reported esResults).
Proof.
  unfold addRuleResultsFromReport. revert results.
  induction esResults as [|r esResults IH]; intros results; simpl.
  - rewrite app_nil_r. reflexivity.
  - rewrite IH. destruct (0 <? length (messages r))%nat; simpl;
      [rewrite <- app_assoc |]; reflexivity.
Qed.

(** X14.  [addRuleResultsFromReport] leaves the results that are there in
    front, and adds after them one result for each reported file that has
    messages, in the order of the report: for that file and the engine,
    with one violation for each message. *)
Theorem addRuleResultsFromReport_spec (results : list RuleResult)
    (esResults : list ESResult) :
  exists added,
    addRuleResultsFromReport engineName results esResults ruleMap
      processRuleViolation
    = results ++ added
    /\ Forall2
         (fun (r : ESResult) (result : RuleResult) =>
            fileName result = filePath r
            /\ result_engine result = engineName
            /\ length (violations result) = length (messages r)
            /\ messages r <> [])
         (List.filter reported esResults) added.
Proof.
  exists (map resultOf (List.filter reported esResults)).
  split; [apply addRuleResultsFromReport_append |].
  induction esResults as [|r esResults IH]; simpl; [constructor |].
  destruct (0 <? length (messages r))%nat eqn:E; simpl; [| exact IH].
  constructor; [| exact IH].
  repeat split; [apply length_map |].
  intros Hm. rewrite Hm in E. discriminate.
Qed.

End RuleResults.

(* ================================================================== *)
(** ** BaseEslintEngine: the course of a run *)
(* ================================================================== *)

Section RunCourse.

Import BaseEslintEngine Shape.

Variable strategy : EslintStrategy.
Variable baseDependencies : StaticDependencies.
Variable JSON_parse : string -> Outcome LooseObject.

Local Abbreviation runTargets := (runTargets strategy baseDependencies JSON_parse).
Local Abbreviation run := (run strategy baseDependencies JSON_parse).
Local Abbreviation userOverride := (userOverride JSON_parse).
Local Abbreviation supported := (supported strategy).
Local Abbreviation runnable := (runnable strategy).
Local Abbreviation invokedFor := (invokedFor strategy baseDependencies).
Local Abbreviation resultsOf := (resultsOf strategy baseDependencies).

(** What the engine made for an invocation does on its files. *)
Local Abbreviation executed inv :=
  (executeOnFiles (createCLIEngine baseDependencies (invokedWith inv))
     (invokedOn inv)).

Implicit Types (rules : list Rule) (engineOptions : gmap string string)
  (targets : list RuleTarget) (results : list RuleResult)
  (log : list Invocation).

Lemma runTargets_cons rules engineOptions (tgt : RuleTarget) targets results log :
  runTargets (configureRules rules) engineOptions (tgt :: targets) results log =
  if (length (supported tgt) =? 0)%nat
  then runTargets (configureRules rules) engineOptions targets results log
  else
    match mergeEnv JSON_parse
            (assign {| cwd := cwdOf baseDependencies tgt;
                       BaseEslintEngine.rules := configureRules rules;
                       baseConfig := None; configRest := ∅ |}
               (getRunConfig strategy engineOptions)) engineOptions with
    | Throw e => (Throw e, log)
    | Return config =>
        let inv := {| invokedWith := config; invokedOn := supported tgt |} in
        match executed inv with
        | Throw e => (Throw e, log ++ [inv])
        | Return report =>
            runTargets (configureRules rules) engineOptions targets
              (EslintCommons.EslintProcessHelper.addRuleResultsFromReport
                 (Constants.valueOf (getEngine strategy)) results report
                 (getRules (createCLIEngine baseDependencies config))
                 (processRuleViolation strategy))
              (log ++ [inv])
        end
    end.
Proof.
  simpl. unfold Shape.supported.
  destruct (length (filterUnsupportedPaths strategy (paths tgt)) =? 0)%nat;
    [reflexivity |].
  rewrite bind_unfold. unfold lift, Shape.cwdOf.
  destruct (mergeEnv JSON_parse _ engineOptions) as [config|e]; [| reflexivity].
  rewrite bind_unfold. unfold invoke at 1. simpl.
  destruct (executeOnFiles (createCLIEngine baseDependencies config) _);
    reflexivity.
Qed.

(** The course of the loop over the targets. *)
Lemma runTargets_course rules engineOptions targets results log :
  exists served invocations,
    snd (runTargets (configureRules rules) engineOptions targets results log)
    = log ++ invocations
    /\ served `prefix_of` runnable targets
    /\ Forall2 (invokedFor rules engineOptions) served invocations
    /\ match fst (runTargets (configureRules rules) engineOptions targets
                    results log) with
       | Return rs =>
           served = runnable targets
           /\ rs = results ++ flat_map resultsOf invocations
       | Throw e =>
           userOverride engineOptions = Throw e
           \/ exists inv,
                last invocations = Some inv /\ executed inv = Throw e
       end.
Proof.
  revert results log. induction targets as [|tgt targets IH]; intros results log.
  - exists [], []. simpl. rewrite !app_nil_r.
    split; [reflexivity |]. split; [apply prefix_nil |].
    split; [constructor |]. split; reflexivity.
  - rewrite runTargets_cons. unfold Shape.runnable. simpl.
    fold (Shape.runnable strategy targets).
    destruct (length (supported tgt) =? 0)%nat eqn:Elen; simpl; [apply IH |].
    match goal with
    | |- context [mergeEnv JSON_parse ?c engineOptions] =>
        pose proof (mergeEnv_spec JSON_parse c engineOptions) as Hm;
        destruct (mergeEnv JSON_parse c engineOptions) as [config|e]
    end.
    2:{ exists [], []. simpl. rewrite app_nil_r.
        split; [reflexivity |]. split; [apply prefix_nil |].
        split; [constructor |]. left. exact Hm. }
    destruct Hm as (envOverride & env' & rest & Ho & Hb & Henv & Hcwd & Hrules
                    & Hrest).
    set (inv := {| invokedWith := config; invokedOn := supported tgt |}).
    assert (Hinv : invokedFor rules engineOptions tgt inv).
    { unfold Shape.invokedFor. simpl. rewrite Hcwd, Hrules, Hrest. simpl.
      repeat split. unfold spread. apply (right_id ∅ (∪)). }
    cbv zeta. fold inv.
    destruct (executeOnFiles (createCLIEngine baseDependencies config)
                (supported tgt)) as [report|e] eqn:Eexec.
    + destruct (IH (EslintCommons.EslintProcessHelper.addRuleResultsFromReport
                      (Constants.valueOf (getEngine strategy)) results report
                      (getRules (createCLIEngine baseDependencies config))
                      (processRuleViolation strategy)) (log ++ [inv]))
        as (served & invocations & Hlog & Hpre & Hall & Hout).
      exists (tgt :: served), (inv :: invocations).
      rewrite Hlog, <- app_assoc. simpl.
      split; [reflexivity |]. split; [apply prefix_cons; exact Hpre |].
      split; [constructor; assumption |].
      destruct (fst (runTargets _ _ _ _ _)) as [rs|e].
      * destruct Hout as [-> ->]. split; [reflexivity |].
        rewrite addRuleResultsFromReport_append, <- app_assoc.
        unfold Shape.resultsOf at 2. subst inv. simpl. rewrite Eexec.
        reflexivity.
      * destruct Hout as [Hu|(inv' & Hlast & Hex)]; [left; exact Hu | right].
        exists inv'. split; [| exact Hex].
        rewrite last_cons, Hlast. reflexivity.
    + exists [tgt], [inv]. simpl.
      split; [reflexivity |]. split; [apply prefix_cons, prefix_nil |].
      split; [constructor; [exact Hinv | constructor] |].
      right. exists inv. split; [reflexivity | exact Eexec].
Qed.

(** The loop when the [env] option does not parse. *)
Lemma runTargets_bad_env rules engineOptions targets results log (e : Error) :
  userOverride engineOptions = Throw e ->
  runTargets (configureRules rules) engineOptions targets results log
  = (match runnable targets with
     | [] => Return results
     | _ :: _ => Throw e
     end, log).
Proof.
  intros Hu. induction targets as [|tgt targets IH]; [reflexivity |].
  rewrite runTargets_cons. unfold Shape.runnable. simpl.
  fold (Shape.runnable strategy targets).
  destruct (length (supported tgt) =? 0)%nat; simpl; [exact IH |].
  match goal with
  | |- context [mergeEnv JSON_parse ?c engineOptions] =>
      pose proof (mergeEnv_spec JSON_parse c engineOptions) as Hm;
      destruct (mergeEnv JSON_parse c engineOptions) as [config|e']
  end.
  - destruct Hm as (envOverride & _ & _ & Ho & _). congruence.
  - congruence.
Qed.

Lemma run_nonempty rules (ruleGroups : list RuleGroup) targets engineOptions log :
  Exists (fun rule => name rule <> "__proto__") rules ->
  run ruleGroups rules targets engineOptions log =
  match runTargets (configureRules rules) engineOptions targets [] log with
  | (Return rs, log') => (Return rs, log')
  | (Throw e, log') => (Throw (SfdxErrorFrom e), log')
  end.
Proof.
  intros Hr. unfold BaseEslintEngine.run.
  rewrite (configureRules_nonempty rules Hr). unfold tryCatch.
  destruct (runTargets (configureRules rules) engineOptions targets [] log)
    as [[rs|e] log']; reflexivity.
Qed.

(** Without a configured rule, nothing is invoked and nothing found. *)
Lemma run_empty rules (ruleGroups : list RuleGroup) targets engineOptions log :
  Forall (fun rule => name rule = "__proto__") rules ->
  run ruleGroups rules targets engineOptions log = (Return [], log).
Proof.
  intros Hr. apply configureRules_empty_iff in Hr.
  unfold BaseEslintEngine.run. rewrite Hr. reflexivity.
Qed.

(** X15.  With a rule to configure, one that is not called [__proto__],
    [run] invokes the engine for the targets that have supported files, in
    their order and on those files, one invocation for each, and for no
    other target; when it returns, it has served all of them, and when it
    throws, those up to the failure. *)
Theorem run_serves_runnable_targets (ruleGroups : list RuleGroup) rules
    targets engineOptions log :
  Exists (fun rule => name rule <> "__proto__") rules ->
  exists served invocations,
    snd (run ruleGroups rules targets engineOptions log) = log ++ invocations
    /\ served `prefix_of` runnable targets
    /\ Forall2 (fun tgt inv => invokedOn inv = supported tgt /\ invokedOn inv <> [])
         served invocations
    /\ (forall rs,
          fst (run ruleGroups rules targets engineOptions log) = Return rs ->
          served = runnable targets).
Proof.
  intros Hr. rewrite (run_nonempty _ ruleGroups _ _ _ Hr).
  destruct (runTargets_course rules engineOptions targets [] log)
    as (served & invocations & Hlog & Hpre & Hall & Hout).
  exists served, invocations.
  destruct (runTargets (configureRules rules) engineOptions targets [] log)
    as [[rs|e] log']; simpl in *; (split; [exact Hlog |]);
    (split; [exact Hpre |]).
  all: split; [| try (intros rs' [= <-]; tauto); discriminate].
  all: assert (Hrun : Forall (fun tgt => supported tgt <> [])
                        (runnable targets)).
  all: try (apply List.Forall_forall; intros tgt Hin;
            apply filter_In in Hin; destruct Hin as [_ Hin];
            intros E; unfold Shape.supported in *; rewrite E in Hin;
            discriminate).
  all: destruct Hpre as [k Hk]; rewrite Hk in Hrun;
       apply Forall_app in Hrun; destruct Hrun as [Hrun _].
  all: clear - Hall Hrun; induction Hall as [|tgt inv ? ? [Hon _] _ IH];
       [constructor |]; inversion Hrun; subst;
       constructor; [split; congruence | auto].
Qed.

(** X16.  The configuration of every invocation comes from the run
    configuration of the strategy where it has the property: its [rules]
    replace the configured rules, its [cwd] the working directory of the
    target, and its other properties are passed on. *)
Theorem run_config_from_strategy (ruleGroups : list RuleGroup) rules
    targets engineOptions log :
  exists invocations,
    snd (run ruleGroups rules targets engineOptions log) = log ++ invocations
    /\ Forall
         (fun inv =>
            BaseEslintEngine.rules (invokedWith inv)
            = default (configureRules rules)
                (run_rules (getRunConfig strategy engineOptions))
            /\ configRest (invokedWith inv)
               = run_rest (getRunConfig strategy engineOptions)
            /\ exists tgt,
                 In tgt targets
                 /\ cwd (invokedWith inv)
                    = default (cwdOf baseDependencies tgt)
                        (run_cwd (getRunConfig strategy engineOptions)))
         invocations.
Proof.
  unfold BaseEslintEngine.run.
  destruct (size (properties (configureRules rules)) =? 0)%nat.
  { exists []. simpl. rewrite app_nil_r. auto. }
  destruct (runTargets_course rules engineOptions targets [] log)
    as (served & invocations & Hlog & Hpre & Hall & _).
  exists invocations. split.
  - unfold tryCatch.
    destruct (runTargets (configureRules rules) engineOptions targets [] log)
      as [[rs|e] log']; exact Hlog.
  - assert (Hin : Forall (fun tgt => In tgt targets) served).
    { destruct Hpre as [k Hk]. apply List.Forall_forall. intros tgt Hin.
      assert (H : In tgt (runnable targets))
        by (rewrite Hk; apply in_or_app; auto).
      apply filter_In in H. tauto. }
    clear - Hall Hin.
    induction Hall as [|tgt inv ? ? (_ & Hcwd & Hrules & Hrest) _ IH];
      [constructor |].
    inversion Hin; subst. constructor; [| auto]. eauto.
Qed.

(** X17.  What [run] returns is, in the order of the invocations, one
    result for each file that the engine reported with messages; without
    a rule to configure it makes no invocation and returns no result. *)
Theorem run_results (ruleGroups : list RuleGroup) rules targets
    engineOptions log :
  exists invocations,
    snd (run ruleGroups rules targets engineOptions log) = log ++ invocations
    /\ (forall rs,
          fst (run ruleGroups rules targets engineOptions log) = Return rs ->
          rs = flat_map resultsOf invocations)
    /\ (Forall (fun rule => name rule = "__proto__") rules ->
        invocations = []
        /\ fst (run ruleGroups rules targets engineOptions log) = Return []).
Proof.
  unfold BaseEslintEngine.run.
  destruct (size (properties (configureRules rules)) =? 0)%nat eqn:E.
  { exists []. simpl. rewrite app_nil_r. split; [reflexivity |].
    split; [intros rs [= <-]; reflexivity | auto]. }
  destruct (runTargets_course rules engineOptions targets [] log)
    as (served & invocations & Hlog & _ & _ & Hout).
  exists invocations.
  assert (Hnot : ~ Forall (fun rule => name rule = "__proto__") rules).
  { intros Hall. apply configureRules_empty_iff in Hall.
    rewrite Hall in E. discriminate. }
  unfold tryCatch.
  destruct (runTargets (configureRules rules) engineOptions targets [] log)
    as [[rs|e] log']; simpl in *; (split; [exact Hlog |]);
    (split; [| intros Hall; contradiction]).
  - intros rs' [= <-]. tauto.
  - discriminate.
Qed.

(** X23.  [configureRules] gives the name [__proto__] no property; every
    other name it configures from the last rule of the list that bears
    it, at the default configuration of that rule when it has one that is
    not the empty string and at 'error' when not; and it configures no
    name that no rule bears.  So the configured rules are empty exactly
    when every rule of the list is called [__proto__], and [run] then
    returns no result and invokes nothing. *)
Theorem configureRules_spec (ruleGroups : list RuleGroup) rules targets
    engineOptions log :
  (forall ruleName,
     properties (configureRules rules) !! ruleName
     = if String.eqb ruleName "__proto__" then None
       else effectiveConfig <$> lastNamed ruleName rules)
  /\ (size (properties (configureRules rules)) = 0
      <-> Forall (fun rule => name rule = "__proto__") rules)
  /\ (Forall (fun rule => name rule = "__proto__") rules ->
      run ruleGroups rules targets engineOptions log = (Return [], log)).
Proof.
  split; [| split; [apply configureRules_empty_iff | apply run_empty]].
  intros ruleName. rewrite configureRules_lookup.
  destruct (String.eqb ruleName "__proto__"); [reflexivity |].
  destruct (lastNamed ruleName rules) as [rule|]; simpl; [| reflexivity].
  rewrite orElse_effectiveConfig. reflexivity.
Qed.

(** X19.  An [env] option that does not parse fails the run before the
    engine is invoked, but only when there are a rule to configure, one
    that is not called [__proto__], and a target with supported files:
    without such a target the run returns no result and the option goes
    unread. *)
Theorem run_bad_env_option (ruleGroups : list RuleGroup) rules targets
    engineOptions log (e : Error) :
  Exists (fun rule => name rule <> "__proto__") rules ->
  userOverride engineOptions = Throw e ->
  run ruleGroups rules targets engineOptions log
  = (match runnable targets with
     | [] => Return []
     | _ :: _ => Throw (SfdxErrorFrom e)
     end, log).
Proof.
  intros Hr Hu. rewrite (run_nonempty _ ruleGroups _ _ _ Hr).
  rewrite (runTargets_bad_env _ _ _ _ _ _ Hu).
  destruct (runnable targets); reflexivity.
Qed.

End RunCourse.

(** Of a target of documents and a target of sources, the run serves the
    second, on its JavaScript file. *)
Lemma run_serves_runnable_targets_witness :
  exists served invocations,
    snd (BaseEslintEngine.run Examples.eslintStrategy Examples.dependencies
           Examples.parseEnv [] Examples.someRules Examples.someTargets ∅ [])
    = [] ++ invocations
    /\ served `prefix_of`
         Shape.runnable Examples.eslintStrategy Examples.someTargets
    /\ Forall2
         (fun tgt inv =>
            BaseEslintEngine.invokedOn inv
            = Shape.supported Examples.eslintStrategy tgt
            /\ BaseEslintEngine.invokedOn inv <> [])
         served invocations
    /\ (forall rs,
          fst (BaseEslintEngine.run Examples.eslintStrategy
                 Examples.dependencies Examples.parseEnv []
                 Examples.someRules Examples.someTargets ∅ [])
          = Return rs ->
          served
          = Shape.runnable Examples.eslintStrategy Examples.someTargets).
Proof.
  apply (run_serves_runnable_targets Examples.eslintStrategy
           Examples.dependencies Examples.parseEnv [] Examples.someRules
           Examples.someTargets ∅ []).
  left. discriminate.
Defined.

(** An [env] option that is no JSON text fails the run on the two targets
    before the engine is invoked. *)
Lemma run_bad_env_option_witness :
  BaseEslintEngine.run Examples.eslintStrategy Examples.dependencies
    Examples.parseEnv [] Examples.someRules Examples.someTargets
    Examples.badEnvOptions []
  = (match Shape.runnable Examples.eslintStrategy Examples.someTargets with
     | [] => Return []
     | _ :: _ =>
         Throw (SfdxErrorFrom (SyntaxError "Unexpected token in JSON"))
     end, []).
Proof.
  apply (run_bad_env_option Examples.eslintStrategy Examples.dependencies
           Examples.parseEnv [] Examples.someRules Examples.someTargets
           Examples.badEnvOptions [] (SyntaxError "Unexpected token in JSON")).
  - left. discriminate.
  - vm_compute. reflexivity.
Defined.

(* ================================================================== *)
(** ** BaseEslintEngine: the catalogue *)
(* ================================================================== *)

Section CatalogueFacts.

Import BaseEslintEngine Shape.

Variable strategy : EslintStrategy.
Variable filterDisallowedRules : Map string ESRule -> Map string ESRule.
Variable getLanguages : list string.
Variable ruleDefaultEnabled : string -> bool.
Variable getDefaultConfig : string -> option ESRuleConfig.

Local Abbreviation processRule :=
  (processRule strategy getLanguages ruleDefaultEnabled getDefaultConfig).
Local Abbreviation addToCatalog :=
  (addToCatalog strategy getLanguages ruleDefaultEnabled getDefaultConfig).
Local Abbreviation buildCatalog :=
  (buildCatalog strategy filterDisallowedRules getLanguages
     ruleDefaultEnabled getDefaultConfig).
Local Abbreviation getCatalog :=
  (getCatalog strategy filterDisallowedRules getLanguages ruleDefaultEnabled
     getDefaultConfig).

Local Abbreviation catalogued :=
  (fun entry : string * ESRule =>
     processRule (fst entry) (docs (meta (snd entry)))).

(** The category of a name after the rules [done]: none before the first
    rule of the category, and then the one that lists their addresses. *)
Local Abbreviation categoryOf name done :=
  (match urlsIn name done with
   | [] => None
   | _ :: _ =>
       Some {| group_name := name; group_engine := getName strategy;
               group_paths := urlsIn name done |}
   end).

Lemma urlsIn_snoc (name : string) (done : Map string ESRule)
    (entry : string * ESRule) :
  urlsIn name (done ++ [entry]) =
  urlsIn name done
  ++ (if String.eqb (doc_category (docs (meta (snd entry)))) name
      then [doc_url (docs (meta (snd entry)))] else []).
Proof.
  unfold urlsIn. rewrite List.filter_app, map_app. simpl.
  destruct (String.eqb _ name); reflexivity.
Qed.

Lemma fold_addToCatalog (rest done : Map string ESRule)
    (categoryMap : Map string RuleGroup) (rules : list CatalogRule) :
  NoDup (mapKeys categoryMap) ->
  (forall name, mapGet name categoryMap = categoryOf name done) ->
  rules = map catalogued done ->
  NoDup (mapKeys (fst (fold_left addToCatalog rest (categoryMap, rules))))
  /\ (forall name,
        mapGet name (fst (fold_left addToCatalog rest (categoryMap, rules)))
        = categoryOf name (done ++ rest))
  /\ snd (fold_left addToCatalog rest (categoryMap, rules))
     = map catalogued (done ++ rest).
Proof.
  revert done categoryMap rules.
  induction rest as [|[key esRule] rest IH]; intros done categoryMap rules
    Hn Hget Hrules.
  - simpl. rewrite app_nil_r. auto.
  - replace (done ++ (key, esRule) :: rest)
      with ((done ++ [(key, esRule)]) ++ rest)
      by (rewrite <- app_assoc; reflexivity).
    cbn [fold_left]. unfold BaseEslintEngine.addToCatalog at 2 4 6.
    apply IH.
    + apply mapSet_NoDup. exact Hn.
    + intros name. rewrite urlsIn_snoc. cbn [snd].
      set (c := doc_category (docs (meta esRule))).
      set (u := doc_url (docs (meta esRule))).
      destruct (String.eqb_spec c name) as [<-|Hne].
      * rewrite mapGet_mapSet_eq, (Hget c).
        destruct (urlsIn c done); reflexivity.
      * rewrite mapGet_mapSet_ne by exact Hne. rewrite app_nil_r.
        apply Hget.
    + rewrite map_app, Hrules. reflexivity.
Qed.

Lemma mapGet_In_NoDup {K V} `{EqDecision K} (k : K) (v : V) (m : Map K V) :
  NoDup (mapKeys m) -> In (k, v) m -> mapGet k m = Some v.
Proof.
  induction m as [|[k' v'] m IH]; simpl; [tauto |].
  intros Hn. inversion Hn as [|? ? Hnotin Hn']; subst.
  intros [[= -> ->]|Hin].
  - destruct (decide (k = k)); [reflexivity | contradiction].
  - destruct (decide (k' = k)) as [->|Hne]; [| auto].
    destruct Hnotin. apply list_elem_of_In. unfold mapKeys.
    apply in_map_iff. exists (k, v). auto.
Qed.

Lemma mapGet_Some_In {K V} `{EqDecision K} (k : K) (v : V) (m : Map K V) :
  mapGet k m = Some v -> In (k, v) m.
Proof.
  induction m as [|[k' v'] m IH]; simpl; [discriminate |].
  destruct (decide (k' = k)) as [->|Hne]; [intros [= ->]; auto | auto].
Qed.

(** X20.  The catalogue lists every allowed rule of the engine once, in
    the order of the rules, and one category for each category that a rule
    names: no two categories share a name, each is of this engine and
    lists the addresses of its rules, in their order, and none is empty.
    There are no rule sets.  Once built, the catalogue is what every later
    call gives, whatever the rules of the engine are then. *)
Theorem getCatalog_spec (cliRules : Map string ESRule) :
  let allRules := filterDisallowedRules cliRules in
  let catalog := fst (getCatalog cliRules None) in
  catalog_rules catalog = map catalogued allRules
  /\ catalog_rulesets catalog = []
  /\ NoDup (map group_name (catalog_categories catalog))
  /\ (forall category,
        In category (catalog_categories catalog) ->
        group_engine category = getName strategy
        /\ group_paths category = urlsIn (group_name category) allRules
        /\ group_paths category <> [])
  /\ (forall key esRule,
        In (key, esRule) allRules ->
        exists category,
          In category (catalog_categories catalog)
          /\ group_name category = doc_category (docs (meta esRule)))
  /\ (forall cliRules',
        getCatalog cliRules' (snd (getCatalog cliRules None))
        = (catalog, Some catalog)).
Proof.
  cbv zeta. unfold BaseEslintEngine.getCatalog, BaseEslintEngine.buildCatalog.
  cbn [fst snd].
  destruct (fold_addToCatalog (filterDisallowedRules cliRules) [] [] [])
    as (Hn & Hget & Hrules); [constructor | reflexivity | reflexivity |].
  rewrite app_nil_l in Hget, Hrules.
  destruct (fold_left addToCatalog (filterDisallowedRules cliRules) ([], []))
    as [categoryMap rules]. cbn [fst snd] in *.
  cbn [catalog_rules catalog_rulesets catalog_categories].
  assert (Hentry : forall k g,
             In (k, g) categoryMap ->
             g = {| group_name := k; group_engine := getName strategy;
                    group_paths :=
                      urlsIn k (filterDisallowedRules cliRules) |}
             /\ urlsIn k (filterDisallowedRules cliRules) <> []).
  { intros k g Hin. apply (mapGet_In_NoDup _ _ _ Hn) in Hin.
    rewrite Hget in Hin.
    destruct (urlsIn k (filterDisallowedRules cliRules)) eqn:E;
      [discriminate |].
    injection Hin as <-. split; [reflexivity | discriminate]. }
  split; [exact Hrules |]. split; [reflexivity |].
  split; [| split; [| split; [| reflexivity]]].
  - assert (Hnames : map group_name (map snd categoryMap) = mapKeys categoryMap).
    { unfold mapKeys. rewrite map_map. apply map_ext_in.
      intros [k g] Hin. destruct (Hentry k g Hin) as [-> _]. reflexivity. }
    rewrite Hnames. exact Hn.
  - intros category Hin. apply in_map_iff in Hin.
    destruct Hin as ([k g] & <- & Hin).
    destruct (Hentry k g Hin) as [-> Hne]. simpl. auto.
  - intros key esRule Hin.
    set (c := doc_category (docs (meta esRule))).
    assert (Hc : urlsIn c (filterDisallowedRules cliRules) <> []).
    { unfold urlsIn. intros E. apply map_eq_nil in E.
      assert (Hf : In (key, esRule)
                     (List.filter
                        (fun entry =>
                           String.eqb (doc_category (docs (meta (snd entry)))) c)
                        (filterDisallowedRules cliRules))).
      { apply filter_In. split; [exact Hin |]. apply String.eqb_refl. }
      rewrite E in Hf. exact Hf. }
    specialize (Hget c).
    destruct (urlsIn c (filterDisallowedRules cliRules)) eqn:E;
      [contradiction |].
    apply mapGet_Some_In in Hget.
    eexists. split; [apply in_map_iff; eexists; split; [| exact Hget] |];
      reflexivity.
Qed.

End CatalogueFacts.

(* ================================================================== *)
(** ** ScannerCommand: the filters of the flags *)
(* ================================================================== *)

Section RuleFilters.

Import ScannerCommand Shape.

Lemma pushFilter_cases (flag : option (list string))
    (make : list string -> RuleFilter) (filters : list RuleFilter) :
  (exists values,
     flag = Some values /\ values <> []
     /\ pushFilter flag make filters = filters ++ [make values])
  \/ ((flag = None \/ flag = Some []) /\ pushFilter flag make filters = filters).
Proof.
  destruct flag as [[|value values]|]; simpl; [tauto | | tauto].
  left. exists (value :: values). repeat split. discriminate.
Qed.

(** X21.  [buildRuleFilters] makes at most one filter of each kind, in the
    order category, rule set, language, rule name, engine; a flag that is
    absent or empty makes none, so that no filter is without values; and
    the filter of a flag holds the values of the flag, the one of the rule
    name the name alone. *)
Theorem buildRuleFilters_spec (flags : Flags) :
  let filters := buildRuleFilters flags in
  Sorted.StronglySorted lt (map kindOf filters)
  /\ Forall (fun filter => valuesOf filter <> []) filters
  /\ (forall values,
        In (CategoryFilter values) filters
        <-> category flags = Some values /\ values <> [])
  /\ (forall values,
        In (RulesetFilter values) filters
        <-> ruleset flags = Some values /\ values <> [])
  /\ (forall values,
        In (LanguageFilter values) filters
        <-> language flags = Some values /\ values <> [])
  /\ (forall values,
        In (RulenameFilter values) filters
        <-> exists name,
              rulename flags = Some name /\ name <> "" /\ values = [name])
  /\ (forall values,
        In (EngineFilter values) filters
        <-> engine flags = Some values /\ values <> []).
Proof.
  destruct flags as [c r l n e]. cbv zeta. unfold buildRuleFilters.
  cbn [category ruleset language rulename engine].
  destruct (pushFilter_cases c CategoryFilter [])
    as [(vc & -> & Hc & ->)|[Hc ->]].
  all: match goal with
       | |- context [pushFilter ?flag RulesetFilter ?fs] =>
           destruct (pushFilter_cases flag RulesetFilter fs)
             as [(vr & -> & Hr & ->)|[Hr ->]]
       end.
  all: match goal with
       | |- context [pushFilter ?flag LanguageFilter ?fs] =>
           destruct (pushFilter_cases flag LanguageFilter fs)
             as [(vl & -> & Hl & ->)|[Hl ->]]
       end.
  all: destruct n as [n|]; [destruct (String.eqb_spec n "") as [->|Hn] |];
       cbn [negb].
  all: match goal with
       | |- context [pushFilter ?flag EngineFilter ?fs] =>
           destruct (pushFilter_cases flag EngineFilter fs)
             as [(ve & -> & He & ->)|[He ->]]
       end.
  all: cbn [app map kindOf].
  all: split; [repeat (constructor; try lia) |].
  all: split; [repeat constructor; cbn [valuesOf]; congruence |].
  all: repeat match goal with |- _ /\ _ => split end.
  all: intros values; split; intros H; cbn [In] in *.
  all: try (destruct H as (name & H1 & H2 & H3)).
  all: repeat match goal with
       | H : _ \/ _ |- _ => destruct H as [H|H]
       | H : _ /\ _ |- _ => destruct H
       end.
  all: try discriminate; try contradiction; try congruence.
  all: repeat match goal with
       | H : Some _ = Some _ |- _ => injection H as H
       | H : RulenameFilter _ = RulenameFilter _ |- _ => injection H as H
       | H : CategoryFilter _ = CategoryFilter _ |- _ => injection H as H
       | H : RulesetFilter _ = RulesetFilter _ |- _ => injection H as H
       | H : LanguageFilter _ = LanguageFilter _ |- _ => injection H as H
       | H : EngineFilter _ = EngineFilter _ |- _ => injection H as H
       end; subst.
  all: try (split; [reflexivity | assumption]).
  all: try solve [repeat first [left; reflexivity | right]].
  all: eexists; split; [reflexivity |]; split; [assumption | reflexivity].
Qed.

End RuleFilters.

(* ================================================================== *)
(** ** The command that adds paths *)
(* ================================================================== *)

Section AddCommand.

Import CustomRulePathManager.

Variable engines : list RuleEngine.
Variable fileHandler : FileHandler.
Variable JSON_parse : string -> Outcome RulePathJson.
Variable JSON_stringify : RulePathJson -> string.
Variable path_resolve : string -> string -> string.
Variable SFDX_SCANNER_PATH : string.
Variable filePath : string.
Variable untildify : string -> string.
Variable resolve : string -> string.

Local Abbreviation addPathsForLanguage :=
  (addPathsForLanguage engines fileHandler JSON_parse JSON_stringify
     path_resolve SFDX_SCANNER_PATH filePath).
Local Abbreviation run :=
  (Add.run engines fileHandler JSON_parse JSON_stringify path_resolve
     SFDX_SCANNER_PATH filePath untildify resolve).

Lemma validateFlags_cases (flags : Add.Flags) :
  (Add.language flags = "" ->
   Add.validateFlags flags
   = Throw (SfdxError "validations.languageCannotBeEmpty" []))
  /\ (Add.language flags <> "" ->
      Add.path flags = [] \/ In "" (Add.path flags) ->
      Add.validateFlags flags
      = Throw (SfdxError "validations.pathCannotBeEmpty" []))
  /\ (Add.language flags <> "" ->
      Add.path flags <> [] -> ~ In "" (Add.path flags) ->
      Add.validateFlags flags = Return tt).
Proof.
  unfold Add.validateFlags.
  destruct (Add.language flags) as [|c language].
  { split; [reflexivity | split; intros Hl; contradiction]. }
  cbn [String.length Nat.eqb].
  split; [discriminate |].
  destruct (Add.path flags) as [|p paths].
  { split; intros; [reflexivity | contradiction]. }
  cbn [length Nat.ltb Nat.leb negb orb].
  destruct (existsb (String.eqb "") (p :: paths)) eqn:E.
  - apply existsb_exists in E. destruct E as (x & Hin & Hx).
    apply String.eqb_eq in Hx. subst x.
    split; intros; [reflexivity | contradiction].
  - split; [| reflexivity]. intros _ [Hnil|Hin]; [discriminate |].
    assert (Hex : existsb (String.eqb "") (p :: paths) = true).
    { apply existsb_exists. exists "". split; [exact Hin | reflexivity]. }
    congruence.
Qed.

(** X22.  The command checks its flags before it asks for the manager: an
    empty language, and otherwise an empty list of paths or an empty path
    in it, fails the command with its own message while the registry and
    the file stay untouched; with valid flags the command is
    [addPathsForLanguage] on the language and the paths made absolute,
    and what it reports as added is what that call returns. *)
Theorem add_run_spec (flags : Add.Flags) (st : State) :
  (Add.language flags = "" ->
   run flags st
   = (Throw (SfdxError "validations.languageCannotBeEmpty" []), st))
  /\ (Add.language flags <> "" ->
      Add.path flags = [] \/ In "" (Add.path flags) ->
      run flags st
      = (Throw (SfdxError "validations.pathCannotBeEmpty" []), st))
  /\ (Add.language flags <> "" ->
      Add.path flags <> [] -> ~ In "" (Add.path flags) ->
      run flags st
      = match addPathsForLanguage (Add.language flags)
                (map (fun p => resolve (untildify p)) (Add.path flags)) st with
        | (Return classpathEntries, st') =>
            (Return {| Add.success := true;
                       Add.result_language := Add.language flags;
                       Add.result_path := classpathEntries |}, st')
        | (Throw e, st') => (Throw e, st')
        end).
Proof.
  destruct (validateFlags_cases flags) as (Hlang & Hpath & Hvalid).
  unfold Add.run. rewrite bind_unfold. unfold lift.
  split; [| split].
  - intros Hl. rewrite (Hlang Hl). reflexivity.
  - intros Hl Hp. rewrite (Hpath Hl Hp). reflexivity.
  - intros Hl Hp Hin. rewrite (Hvalid Hl Hp Hin), bind_unfold.
    unfold Add.resolvePaths.
    destruct (addPathsForLanguage _ _ st) as [[entries|e] st']; reflexivity.
Qed.

End AddCommand.
